(** * Response normalisation of the data-product discovery app

    A shallow embedding of [model_serving_utils.py]: the endpoint probe,
    the two query executors, the stream-chunk extractor and the structured
    result parser, together with the fragments of the Python runtime they
    rely on (dynamic values, [json.loads], [str] methods, [re.search]). *)

From Stdlib Require Import Ascii String List NArith ZArith Bool Lia.
Import ListNotations.

Set Implicit Arguments.
Set Warnings "-register-all".
Open Scope list_scope.

(** ** Python text

    A Python [str] is a sequence of Unicode code points, so [len] counts
    code points: the model is [list N].  Literals are written with [u];
    [jq] is [u] with every apostrophe turned into a quotation mark, for
    writing JSON documents. *)

Definition pystr := list N.

Definition c_quote : N := 34.
Definition c_apostrophe : N := 39.
Definition c_backslash : N := 92.
Definition c_newline : N := 10.

Definition ch (a : ascii) : N := N_of_ascii a.

Definition u (s : string) : pystr := map N_of_ascii (list_ascii_of_string s).

Definition jq (s : string) : pystr :=
  map (fun c => if N.eqb c c_apostrophe then c_quote else c) (u s).

Fixpoint str_eqb (a b : pystr) : bool :=
  match a, b with
  | [], [] => true
  | x :: a', y :: b' => N.eqb x y && str_eqb a' b'
  | _, _ => false
  end.

(** [s.startswith(p)], returning what follows the prefix. *)
Fixpoint strip_prefix (p s : pystr) : option pystr :=
  match p, s with
  | [], _ => Some s
  | x :: p', y :: s' => if N.eqb x y then strip_prefix p' s' else None
  | _ :: _, [] => None
  end.

Definition startswith (s p : pystr) : bool :=
  match strip_prefix p s with Some _ => true | None => false end.

(** [sub in s] on two strings. *)
Fixpoint str_contains (sub s : pystr) : bool :=
  startswith s sub ||
  match s with
  | [] => false
  | _ :: t => str_contains sub t
  end.

(** [s.replace(old, new)] for a non-empty [old]: occurrences are replaced
    from the left and do not overlap.  [skip] counts the characters of an
    occurrence that are still to be dropped. *)
Fixpoint replace_from (old new : pystr) (skip : nat) (s : pystr) : pystr :=
  match s with
  | [] => []
  | c :: t =>
      match skip with
      | S k => replace_from old new k t
      | O =>
          if startswith s old
          then new ++ replace_from old new (length old - 1) t
          else c :: replace_from old new 0 t
      end
  end.

Definition str_replace (s old new : pystr) : pystr := replace_from old new 0 s.

(** [str.isspace] on one code point; also the class [\s] of [re] on [str]
    patterns. *)
Definition py_isspace (c : N) : bool :=
  ((9 <=? c) && (c <=? 13) || (28 <=? c) && (c <=? 32) ||
   (c =? 133) || (c =? 160) || (c =? 5760) ||
   (8192 <=? c) && (c <=? 8202) ||
   (c =? 8232) || (c =? 8233) || (c =? 8239) || (c =? 8287) || (c =? 12288))%N.

Fixpoint lstrip (s : pystr) : pystr :=
  match s with
  | c :: t => if py_isspace c then lstrip t else s
  | [] => []
  end.

(** [s.strip()] *)
Definition str_strip (s : pystr) : pystr := rev (lstrip (rev (lstrip s))).

(** [s.split(sep)] for a one-character separator. *)
Fixpoint split_on (sep : N) (s : pystr) : list pystr :=
  match s with
  | [] => [[]]
  | c :: t =>
      if N.eqb c sep then [] :: split_on sep t
      else match split_on sep t with
           | l :: ls => (c :: l) :: ls
           | [] => [[c]]
           end
  end.

(** ** Python values

    The payloads the transport hands back are decoded JSON: [None],
    booleans, integers, floats, strings, lists and string-keyed dicts.  A
    dict is an association list in insertion order with distinct keys.  A
    float is kept as the literal it was read from: no arithmetic is done
    on it, and whether it is zero is read off the literal.  [PyObject]
    stands for any other object: one that is true, has no length, no items
    and no methods, and that [json.dumps] refuses. *)

Inductive pyval : Type :=
| PyNone
| PyBool (b : bool)
| PyInt (z : Z)
| PyFloat (lit : pystr)
| PyStr (s : pystr)
| PyList (l : list pyval)
| PyDict (d : list (pystr * pyval))
| PyObject (id : N).

Fixpoint lookup (k : pystr) (d : list (pystr * pyval)) : option pyval :=
  match d with
  | [] => None
  | (k', v) :: d' => if str_eqb k' k then Some v else lookup k d'
  end.

Definition has_key (k : pystr) (d : list (pystr * pyval)) : bool :=
  match lookup k d with Some _ => true | None => false end.

(** [d[k] = v] on a dict: a present key keeps its position. *)
Fixpoint dict_set (k : pystr) (v : pyval) (d : list (pystr * pyval))
  : list (pystr * pyval) :=
  match d with
  | [] => [(k, v)]
  | (k', v') :: d' =>
      if str_eqb k' k then (k', v) :: d' else (k', v') :: dict_set k v d'
  end.

(** Exceptions raised by the operations of the runtime; their messages are
    not modelled. *)
Inductive pyerr : Type :=
| TypeError
| KeyError
| IndexError
| AttributeError
| UnicodeDecodeError
| ValueError
| RecursionError.

Inductive result (A : Type) : Type :=
| Ok (a : A)
| Raise (e : pyerr).
Arguments Ok {A} a.
Arguments Raise {A} e.

Definition bind {A B : Type} (m : result A) (f : A -> result B) : result B :=
  match m with
  | Ok a => f a
  | Raise e => Raise e
  end.

Notation "x <- m ;; k" := (bind m (fun x => k))
  (at level 61, m at next level, right associativity).

Definition is_digit (c : N) : bool := ((48 <=? c) && (c <=? 57))%N.

Fixpoint take_digits (s : pystr) : pystr * pystr :=
  match s with
  | c :: t =>
      if is_digit c then let (ds, r) := take_digits t in (c :: ds, r)
      else ([], s)
  | [] => ([], [])
  end.

Definition digits_value (ds : pystr) : Z :=
  fold_left (fun acc d => (acc * 10 + Z.of_N (d - 48)%N)%Z) ds 0%Z.

(** The float a number literal is read as is zero when the literal, with
    digits [m] and decimal exponent [e], denotes at most 2^-1075, half of
    the smallest positive float: reading rounds to the nearest float, ties
    to even.  A literal is zero by its digits ([0.0]) or by underflow
    ([1e-999]). *)
Definition float_is_zero (lit : pystr) : bool :=
  let unsigned :=
    match lit with
    | c :: t => if N.eqb c (ch "-") then t else lit
    | [] => lit
    end in
  match unsigned with
  | [] => false
  | c :: _ =>
      if N.eqb c (ch "N") || N.eqb c (ch "I") then false
      else
        let (ip, r1) := take_digits unsigned in
        let (frac, r2) :=
          match r1 with
          | d :: r => if N.eqb d (ch ".") then take_digits r else ([], r1)
          | [] => ([], r1)
          end in
        let exponent :=
          match r2 with
          | e :: r =>
              if N.eqb e (ch "e") || N.eqb e (ch "E") then
                match r with
                | sg :: r' =>
                    if N.eqb sg (ch "-") then (- digits_value (fst (take_digits r')))%Z
                    else if N.eqb sg (ch "+") then digits_value (fst (take_digits r'))
                    else digits_value (fst (take_digits r))
                | [] => 0%Z
                end
              else 0%Z
          | [] => 0%Z
          end in
        let m := digits_value (ip ++ frac) in
        let e := (exponent - Z.of_nat (length frac))%Z in
        (m =? 0)%Z || ((e <? 0)%Z && (m * 2 ^ 1075 <=? 10 ^ (- e))%Z)
  end.

(** [bool(v)] *)
Definition truthy (v : pyval) : bool :=
  match v with
  | PyNone => false
  | PyBool b => b
  | PyInt z => negb (Z.eqb z 0)
  | PyFloat lit => negb (float_is_zero lit)
  | PyStr s => match s with [] => false | _ => true end
  | PyList l => match l with [] => false | _ => true end
  | PyDict d => match d with [] => false | _ => true end
  | PyObject _ => true
  end.

(** [a or b] *)
Definition py_or (a b : pyval) : pyval := if truthy a then a else b.

(** [len(v)] *)
Definition py_len (v : pyval) : result nat :=
  match v with
  | PyStr s => Ok (length s)
  | PyList l => Ok (length l)
  | PyDict d => Ok (length d)
  | _ => Raise TypeError
  end.

(** [v == k] for a string [k]: only an equal string is equal to it. *)
Definition eq_str (v : pyval) (k : pystr) : bool :=
  match v with
  | PyStr s => str_eqb s k
  | _ => false
  end.

(** [k in v] for a string [k]: key of a dict, element of a list, substring
    of a string; anything else is not a container. *)
Definition py_in (k : pystr) (v : pyval) : result bool :=
  match v with
  | PyDict d => Ok (has_key k d)
  | PyList l => Ok (existsb (fun x => eq_str x k) l)
  | PyStr s => Ok (str_contains k s)
  | _ => Raise TypeError
  end.

(** [v[k]] for a string [k] *)
Definition getitem (v : pyval) (k : pystr) : result pyval :=
  match v with
  | PyDict d => match lookup k d with Some x => Ok x | None => Raise KeyError end
  | _ => Raise TypeError
  end.

(** [v[0]] *)
Definition getitem_first (v : pyval) : result pyval :=
  match v with
  | PyList l => match l with x :: _ => Ok x | [] => Raise IndexError end
  | PyStr s => match s with c :: _ => Ok (PyStr [c]) | [] => Raise IndexError end
  | PyDict _ => Raise KeyError
  | _ => Raise TypeError
  end.

(** [v[-1]] *)
Definition getitem_last (v : pyval) : result pyval :=
  match v with
  | PyList l => match rev l with x :: _ => Ok x | [] => Raise IndexError end
  | PyStr s => match rev s with c :: _ => Ok (PyStr [c]) | [] => Raise IndexError end
  | PyDict _ => Raise KeyError
  | _ => Raise TypeError
  end.

(** [v.get(k, default)]: only a dict has the method. *)
Definition py_get (v : pyval) (k : pystr) (default : pyval) : result pyval :=
  match v with
  | PyDict d => match lookup k d with Some x => Ok x | None => Ok default end
  | _ => Raise AttributeError
  end.

(** The texts of the parts tagged 'text', joined: the comprehension reads
    [part.get("type")] and [part.get("text")] of every part, which only a
    dict has, and [join] takes only strings. *)
Fixpoint join_text_parts (parts : list pyval) : result pystr :=
  match parts with
  | [] => Ok []
  | part :: rest =>
      ty <- py_get part (u "type") PyNone ;;
      if eq_str ty (u "text") then
        t <- py_get part (u "text") (PyStr []) ;;
        tl <- join_text_parts rest ;;
        match t with
        | PyStr s => Ok (s ++ tl)
        | _ => Raise TypeError
        end
      else join_text_parts rest
  end.

(** ** [json.loads]

    The decoder of the standard library on a [str]: objects, arrays,
    strings with their escapes, numbers, [true], [false], [null] and the
    three constants [NaN], [Infinity] and [-Infinity].  A call ends in one
    of three ways: it returns the decoded value, it raises
    [json.JSONDecodeError] on a text that is not JSON, or it raises another
    exception because a limit of the interpreter is reached: [ValueError]
    when an integer literal has more digits than [int] converts,
    [RecursionError] when arrays and objects are nested deeper than the
    stack allows. *)

Inductive decoding (A : Type) : Type :=
| Decoded (a : A)
| JSONDecodeError
| Raising (e : pyerr).
Arguments Decoded {A} a.
Arguments JSONDecodeError {A}.
Arguments Raising {A} e.

(** The limits of the running interpreter.  [int_max_str_digits] is
    [sys.get_int_max_str_digits()]: 0 switches the check off, and a literal
    of at most 640 digits is never checked.  [nesting_room] is the number of
    arrays and objects, one inside the other, that the decoder can enter at
    the place of the call before the recursion guard raises. *)
Record interpreter : Type := Interpreter {
  int_max_str_digits : nat;
  nesting_room : nat
}.

(** The defaults: 4300 digits, a recursion limit of 1000. *)
Definition default_interpreter : interpreter :=
  {| int_max_str_digits := 4300; nesting_room := 1000 |}.

(** [int(digits)] refuses the conversion. *)
Definition too_many_digits (py : interpreter) (ds : pystr) : bool :=
  (640 <? length ds) && (0 <? int_max_str_digits py)
  && (int_max_str_digits py <? length ds).

Definition is_json_ws (c : N) : bool :=
  N.eqb c 32 || N.eqb c 9 || N.eqb c 10 || N.eqb c 13.

Fixpoint skip_ws (s : pystr) : pystr :=
  match s with
  | c :: t => if is_json_ws c then skip_ws t else s
  | [] => []
  end.

Definition hex_val (c : N) : option N :=
  if is_digit c then Some (c - 48)%N
  else if ((97 <=? c) && (c <=? 102))%N then Some (c - 87)%N
  else if ((65 <=? c) && (c <=? 70))%N then Some (c - 55)%N
  else None.

Definition hex4_val (a b c d : N) : option N :=
  match hex_val a, hex_val b, hex_val c, hex_val d with
  | Some a, Some b, Some c, Some d => Some (((a * 16 + b) * 16 + c) * 16 + d)%N
  | _, _, _, _ => None
  end.

Definition simple_escape (e : N) : option N :=
  if N.eqb e c_quote then Some c_quote
  else if N.eqb e c_backslash then Some c_backslash
  else if N.eqb e (ch "/") then Some (ch "/")
  else if N.eqb e (ch "b") then Some 8%N
  else if N.eqb e (ch "f") then Some 12%N
  else if N.eqb e (ch "n") then Some 10%N
  else if N.eqb e (ch "r") then Some 13%N
  else if N.eqb e (ch "t") then Some 9%N
  else None.

Definition is_high_surrogate (c : N) : bool := ((55296 <=? c) && (c <=? 56319))%N.
Definition is_low_surrogate (c : N) : bool := ((56320 <=? c) && (c <=? 57343))%N.
Definition join_surrogates (hi lo : N) : N :=
  (65536 + ((hi - 55296) * 1024 + (lo - 56320)))%N.

(** The body of a string, after its opening quotation mark; [acc] holds the
    decoded characters in reverse. *)
Fixpoint scan_string (s acc : pystr) : option (pystr * pystr) :=
  match s with
  | [] => None
  | c :: t =>
      if N.eqb c c_quote then Some (rev acc, t)
      else if N.eqb c c_backslash then
        match t with
        | [] => None
        | e :: t1 =>
            if N.eqb e (ch "u") then
              match t1 with
              | h1 :: h2 :: h3 :: h4 :: t2 =>
                  match hex4_val h1 h2 h3 h4 with
                  | None => None
                  | Some hi =>
                      if is_high_surrogate hi then
                        match t2 with
                        | b :: x :: l1 :: l2 :: l3 :: l4 :: t3 =>
                            if N.eqb b c_backslash && N.eqb x (ch "u") then
                              match hex4_val l1 l2 l3 l4 with
                              | None => None
                              | Some lo =>
                                  if is_low_surrogate lo
                                  then scan_string t3 (join_surrogates hi lo :: acc)
                                  else scan_string t2 (hi :: acc)
                              end
                            else scan_string t2 (hi :: acc)
                        | _ => scan_string t2 (hi :: acc)
                        end
                      else scan_string t2 (hi :: acc)
                  end
              | _ => None
              end
            else
              match simple_escape e with
              | Some x => scan_string t1 (x :: acc)
              | None => None
              end
        end
      else if (c <? 32)%N then None
      else scan_string t (c :: acc)
  end.

(** A number: an optional minus sign, an integer part without leading
    zero, an optional fraction and an optional exponent; an [int] when it
    has neither fraction nor exponent, a [float] otherwise. *)
Definition scan_number (py : interpreter) (s : pystr)
  : decoding (pyval * pystr) :=
  let (neg, s1) :=
    match s with
    | c :: t => if N.eqb c (ch "-") then (true, t) else (false, s)
    | [] => (false, s)
    end in
  match s1 with
  | [] => JSONDecodeError
  | c :: t =>
      let int_part :=
        if N.eqb c (ch "0") then Some ([c], t)
        else if is_digit c then let (ds, r) := take_digits t in Some (c :: ds, r)
        else None in
      match int_part with
      | None => JSONDecodeError
      | Some (ip, r1) =>
          let (frac, r2) :=
            match r1 with
            | d :: r =>
                if N.eqb d (ch ".") then
                  match take_digits r with
                  | ([], _) => ([], r1)
                  | (ds, r') => (d :: ds, r')
                  end
                else ([], r1)
            | [] => ([], r1)
            end in
          let (ex, r3) :=
            match r2 with
            | e :: r =>
                if N.eqb e (ch "e") || N.eqb e (ch "E") then
                  let (sign, r') :=
                    match r with
                    | sg :: r'' =>
                        if N.eqb sg (ch "+") || N.eqb sg (ch "-")
                        then ([sg], r'') else ([], r)
                    | [] => ([], r)
                    end in
                  match take_digits r' with
                  | ([], _) => ([], r2)
                  | (ds, r'') => (e :: sign ++ ds, r'')
                  end
                else ([], r2)
            | [] => ([], r2)
            end in
          match frac, ex with
          | [], [] =>
              if too_many_digits py ip then Raising ValueError
              else
                Decoded (PyInt (if neg then - digits_value ip else digits_value ip)%Z, r3)
          | _, _ =>
              Decoded (PyFloat ((if neg then [ch "-"] else []) ++ ip ++ frac ++ ex), r3)
          end
      end
  end.

(** The elements of an array after the first value position; [n] bounds the
    number of elements by the length of the text. *)
Fixpoint parse_elems (value : pystr -> decoding (pyval * pystr)) (n : nat)
  (s : pystr) (acc : list pyval) : decoding (pyval * pystr) :=
  match n with
  | O => JSONDecodeError
  | S n' =>
      match value s with
      | JSONDecodeError => JSONDecodeError
      | Raising e => Raising e
      | Decoded (v, r) =>
          match skip_ws r with
          | c :: r1 =>
              if N.eqb c (ch "]") then Decoded (PyList (rev (v :: acc)), r1)
              else if N.eqb c (ch ",")
              then parse_elems value n' (skip_ws r1) (v :: acc)
              else JSONDecodeError
          | [] => JSONDecodeError
          end
      end
  end.

(** The members of an object; a repeated key keeps its first position and
    its last value, as [dict] does. *)
Fixpoint parse_members (value : pystr -> decoding (pyval * pystr)) (n : nat)
  (s : pystr) (acc : list (pystr * pyval)) : decoding (pyval * pystr) :=
  match n with
  | O => JSONDecodeError
  | S n' =>
      match s with
      | q :: t =>
          if N.eqb q c_quote then
            match scan_string t [] with
            | None => JSONDecodeError
            | Some (key, r) =>
                match skip_ws r with
                | c :: r1 =>
                    if N.eqb c (ch ":") then
                      match value (skip_ws r1) with
                      | JSONDecodeError => JSONDecodeError
                      | Raising e => Raising e
                      | Decoded (v, r2) =>
                          let acc' := dict_set key v acc in
                          match skip_ws r2 with
                          | c2 :: r3 =>
                              if N.eqb c2 (ch "}") then Decoded (PyDict acc', r3)
                              else if N.eqb c2 (ch ",")
                              then parse_members value n' (skip_ws r3) acc'
                              else JSONDecodeError
                          | [] => JSONDecodeError
                          end
                      end
                    else JSONDecodeError
                | [] => JSONDecodeError
                end
            end
          else JSONDecodeError
      | [] => JSONDecodeError
      end
  end.

(** One JSON value at the head of [s].  [room] is the nesting the decoder
    can still enter: an object or an array uses one level of it, and with
    none left the recursion guard raises as the bracket is read.  [fuel]
    bounds the nesting by the length of the text, for the recursion to be
    structural. *)
Fixpoint scan_once (py : interpreter) (fuel room : nat) (s : pystr)
  : decoding (pyval * pystr) :=
  match fuel with
  | O => JSONDecodeError
  | S f =>
      match s with
      | [] => JSONDecodeError
      | c :: t =>
          if N.eqb c c_quote then
            match scan_string t [] with
            | Some (x, r) => Decoded (PyStr x, r)
            | None => JSONDecodeError
            end
          else if N.eqb c (ch "{") then
            match room with
            | O => Raising RecursionError
            | S room' =>
                match skip_ws t with
                | c' :: r =>
                    if N.eqb c' (ch "}") then Decoded (PyDict [], r)
                    else parse_members (scan_once py f room') (S (length t))
                                       (skip_ws t) []
                | [] => JSONDecodeError
                end
            end
          else if N.eqb c (ch "[") then
            match room with
            | O => Raising RecursionError
            | S room' =>
                match skip_ws t with
                | c' :: r =>
                    if N.eqb c' (ch "]") then Decoded (PyList [], r)
                    else parse_elems (scan_once py f room') (S (length t))
                                     (skip_ws t) []
                | [] => JSONDecodeError
                end
            end
          else
            match strip_prefix (u "null") s with
            | Some r => Decoded (PyNone, r)
            | None =>
            match strip_prefix (u "true") s with
            | Some r => Decoded (PyBool true, r)
            | None =>
            match strip_prefix (u "false") s with
            | Some r => Decoded (PyBool false, r)
            | None =>
            match strip_prefix (u "NaN") s with
            | Some r => Decoded (PyFloat (u "NaN"), r)
            | None =>
            match strip_prefix (u "Infinity") s with
            | Some r => Decoded (PyFloat (u "Infinity"), r)
            | None =>
            match strip_prefix (u "-Infinity") s with
            | Some r => Decoded (PyFloat (u "-Infinity"), r)
            | None => scan_number py s
            end end end end end end
      end
  end.

(** [json.loads(s)]: one value, surrounded by optional white space, and
    nothing else. *)
Definition json_loads (py : interpreter) (s : pystr) : decoding pyval :=
  match scan_once py (S (length s)) (nesting_room py) (skip_ws s) with
  | Decoded (v, r) =>
      match skip_ws r with [] => Decoded v | _ => JSONDecodeError end
  | JSONDecodeError => JSONDecodeError
  | Raising e => Raising e
  end.

(** ** [re.search]

    The fragment of [re] the parser's pattern is written in: literal text,
    lazy and greedy repetition of a character class, an optional group and
    the end anchor.  Matching is by backtracking, the continuation [k]
    standing for the rest of the pattern; it returns the text left after
    the match. *)

Inductive regex : Type :=
| Lit (s : pystr)
| LazyStar (cls : N -> bool)
| GreedyStar (cls : N -> bool)
| Opt (r : regex)
| EndAnchor
| Seq (r1 r2 : regex).

(** [cls*?]: as few characters as the rest of the pattern allows. *)
Fixpoint lazy_star (cls : N -> bool) (k : pystr -> option pystr) (s : pystr)
  : option pystr :=
  match k s with
  | Some r => Some r
  | None =>
      match s with
      | c :: t => if cls c then lazy_star cls k t else None
      | [] => None
      end
  end.

(** [cls*]: as many characters as the rest of the pattern allows. *)
Fixpoint greedy_star (cls : N -> bool) (k : pystr -> option pystr) (s : pystr)
  : option pystr :=
  match s with
  | c :: t =>
      if cls c then
        match greedy_star cls k t with
        | Some r => Some r
        | None => k s
        end
      else k s
  | [] => k s
  end.

(** [$] without [re.MULTILINE]: the end of the text, or just before a
    newline that ends it. *)
Definition at_end (s : pystr) : bool :=
  match s with
  | [] => true
  | [c] => N.eqb c c_newline
  | _ => false
  end.

Fixpoint re_match (r : regex) (k : pystr -> option pystr) (s : pystr)
  : option pystr :=
  match r with
  | Lit l => match strip_prefix l s with Some t => k t | None => None end
  | LazyStar cls => lazy_star cls k s
  | GreedyStar cls => greedy_star cls k s
  | Opt r1 => match re_match r1 k s with Some t => Some t | None => k s end
  | EndAnchor => if at_end s then k s else None
  | Seq r1 r2 => re_match r1 (re_match r2 k) s
  end.

(** [re.search(r, s).group()]: the match at the leftmost position that has
    one, [None] when there is none. *)
Fixpoint re_search (r : regex) (s : pystr) : option pystr :=
  match re_match r Some s with
  | Some rest => Some (firstn (length s - length rest) s)
  | None =>
      match s with
      | [] => None
      | _ :: t => re_search r t
      end
  end.

(** [[\s\S]]: a white-space character or a character that is not one. *)
Definition any_char (c : N) : bool := py_isspace c || negb (py_isspace c).

Definition QU : pystr := u "query_understanding".
Definition RESULTS : pystr := u "results".

(** [r'\{[\s\S]*?"query_understanding"[\s\S]*?"results"[\s\S]*?\}(?:\s*\})?$'] *)
Definition json_object_pattern : regex :=
  Seq (Lit (u "{"))
 (Seq (LazyStar any_char)
 (Seq (Lit (c_quote :: QU ++ [c_quote]))
 (Seq (LazyStar any_char)
 (Seq (Lit (c_quote :: RESULTS ++ [c_quote]))
 (Seq (LazyStar any_char)
 (Seq (Lit (u "}"))
 (Seq (Opt (Seq (GreedyStar py_isspace) (Lit (u "}"))))
      EndAnchor))))))).

(** ** The structured result parser: [parse_rag_response]

    The body of the function is a chain of statements over the working
    value [response]; each piece either returns from the function, hands
    the working value to the next statement, or raises.  Calls to the
    logger do not influence the result and are left out, except for the
    [json.dumps] inside the last one, which can raise.  Every piece takes
    the interpreter [py] that [json.loads] runs in: what the decoder raises
    besides [JSONDecodeError] no inner handler catches. *)

Inductive flow (A : Type) : Type :=
| Return (v : option pyval)
| Next (a : A)
| Throw (e : pyerr).
Arguments Return {A} v.
Arguments Next {A} a.
Arguments Throw {A} e.

Definition and_then {A B : Type} (m : flow A) (f : A -> flow B) : flow B :=
  match m with
  | Return v => Return v
  | Next a => f a
  | Throw e => Throw e
  end.

(** [json.dumps(v)] succeeds on decoded JSON and raises [TypeError] on
    anything that holds another object. *)
Fixpoint serializable (v : pyval) : bool :=
  match v with
  | PyObject _ => false
  | PyList l => forallb serializable l
  | PyDict d => forallb (fun kv => serializable (snd kv)) d
  | _ => true
  end.

(** ['query_understanding' in v and 'results' in v] *)
Definition has_both (v : pyval) : result bool :=
  a <- py_in QU v ;;
  if a then py_in RESULTS v else Ok false.

(** [if isinstance(response, dict) and "raw_response" in response:
       response = response["raw_response"]] *)
Definition unwrap_raw (response : pyval) : pyval :=
  match response with
  | PyDict d =>
      match lookup (u "raw_response") d with
      | Some r => r
      | None => response
      end
  | _ => response
  end.

(** [if isinstance(response, str): ...]: decode it, or give up. *)
Definition decode_string (py : interpreter) (response : pyval) : flow pyval :=
  match response with
  | PyStr s =>
      match json_loads py s with
      | Decoded v => Next v
      | JSONDecodeError => Return None
      | Raising e => Throw e
      end
  | _ => Next response
  end.

(** [for key in ['content', 'text', 'result']: ...] on the dict [response];
    the [break] leaves the loop with the list as the working value. *)
Fixpoint probe_keys (py : interpreter) (keys : list pystr)
  (response : list (pystr * pyval)) : flow pyval :=
  match keys with
  | [] => Next (PyDict response)
  | key :: rest =>
      match lookup key response with
      | None => probe_keys py rest response
      | Some content =>
          match content with
          | PyStr s =>
              match json_loads py s with
              | Decoded parsed =>
                  match has_both parsed with
                  | Ok true => Return (Some parsed)
                  | Ok false => probe_keys py rest response
                  | Raise e => Throw e
                  end
              | JSONDecodeError => probe_keys py rest response
              | Raising e => Throw e
              end
          | PyDict c =>
              if has_key QU c then Return (Some content)
              else probe_keys py rest response
          | PyList _ => Next content
          | _ => probe_keys py rest response
          end
      end
  end.

(** Case 1: [if isinstance(response, dict): ...] *)
Definition mapping_branch (py : interpreter) (response : pyval) : flow pyval :=
  match response with
  | PyDict d =>
      if has_key QU d && has_key RESULTS d then Return (Some response)
      else
        match lookup (u "output") d with
        | Some (PyList l) => Next (PyList l)
        | _ => probe_keys py [u "content"; u "text"; u "result"] d
        end
  | _ => Next response
  end.

(** [text.replace('```json', '').replace('```', '')] *)
Definition strip_fences (text : pystr) : pystr :=
  str_replace (str_replace text (u "```json") []) (u "```") [].

(** The [try] statement on one candidate text: decode it whole, and when
    that raises [JSONDecodeError] decode what the pattern finds in it.  Both
    handlers catch [JSONDecodeError] only. *)
Definition try_candidate (py : interpreter) (text : pystr) : flow unit :=
  let text := strip_fences text in
  match json_loads py text with
  | Decoded parsed =>
      match parsed with
      | PyDict d => if has_key QU d then Return (Some parsed) else Next tt
      | _ => Next tt
      end
  | JSONDecodeError =>
      match re_search json_object_pattern text with
      | Some json_match =>
          match json_loads py json_match with
          | Decoded parsed => Return (Some parsed)
          | JSONDecodeError => Next tt
          | Raising e => Throw e
          end
      | None => Next tt
      end
  | Raising e => Throw e
  end.

(** [content_block.get('text') or content_block.get('output_text')] *)
Definition candidate_text (content_block : list (pystr * pyval)) : pyval :=
  py_or (match lookup (u "text") content_block with Some t => t | None => PyNone end)
        (match lookup (u "output_text") content_block with Some t => t | None => PyNone end).

(** The body of [for content_block in content]. *)
Definition scan_block (py : interpreter) (content_block : pyval) : flow unit :=
  match content_block with
  | PyDict b =>
      let text := candidate_text b in
      if truthy text then
        match py_len text with
        | Raise e => Throw e
        | Ok n =>
            if 50 <? n then
              match text with
              | PyStr s => try_candidate py s
              | _ => Throw AttributeError
              end
            else Next tt
        end
      else Next tt
  | _ => Next tt
  end.

Fixpoint scan_blocks (py : interpreter) (content : list pyval) : flow unit :=
  match content with
  | [] => Next tt
  | content_block :: rest =>
      and_then (scan_block py content_block) (fun _ => scan_blocks py rest)
  end.

(** [item.get('type') == 'message' and item.get('role') == 'assistant'] *)
Definition is_assistant_message (item : list (pystr * pyval)) : bool :=
  match lookup (u "type") item with
  | Some t => eq_str t (u "message")
  | None => false
  end &&
  match lookup (u "role") item with
  | Some r => eq_str r (u "assistant")
  | None => false
  end.

(** The body of [for item in reversed(response)]. *)
Definition scan_item (py : interpreter) (item : pyval) : flow unit :=
  match item with
  | PyDict d =>
      if is_assistant_message d then
        match lookup (u "content") d with
        | None => scan_blocks py []
        | Some (PyList content) => scan_blocks py content
        | Some (PyStr content) =>
            match json_loads py content with
            | Decoded (PyDict p) =>
                if has_key QU p then Return (Some (PyDict p)) else Next tt
            | Decoded _ => Next tt
            | JSONDecodeError => Next tt
            | Raising e => Throw e
            end
        | Some _ => Next tt
        end
      else Next tt
  | _ => Next tt
  end.

Fixpoint scan_items (py : interpreter) (items : list pyval) : flow unit :=
  match items with
  | [] => Next tt
  | item :: rest => and_then (scan_item py item) (fun _ => scan_items py rest)
  end.

(** Case 2: [if isinstance(response, list): ...] *)
Definition list_branch (py : interpreter) (response : pyval) : flow unit :=
  match response with
  | PyList l => scan_items py (rev l)
  | _ => Next tt
  end.

(** The last statements: the diagnostics, then [return None]. *)
Definition report_failure (response : pyval) : flow unit :=
  match response with
  | PyDict _ | PyList _ =>
      if serializable response then Return None else Throw TypeError
  | _ => Return None
  end.

(** The body of the outer [try]. *)
Definition parse_rag_body (py : interpreter) (response : pyval) : flow unit :=
  let response := unwrap_raw response in
  and_then (decode_string py response) (fun response =>
  and_then (mapping_branch py response) (fun response =>
  and_then (list_branch py response) (fun _ =>
  report_failure response))).

(** [parse_rag_response]: the body under [except Exception: return None]. *)
Definition parse_rag_response (py : interpreter) (response : pyval)
  : option pyval :=
  match parse_rag_body py response with
  | Return v => v
  | Next _ => None
  | Throw _ => None
  end.

(** The messages of the agent reply format. *)
Definition text_block (text : pystr) : pyval :=
  PyDict [(u "type", PyStr (u "output_text")); (u "text", PyStr text)].

Definition assistant_message (content : pyval) : pyval :=
  PyDict [(u "type", PyStr (u "message")); (u "role", PyStr (u "assistant"));
          (u "content", content)].

(** ** Collaborators, exceptions and the trace of effects

    The metadata lookup and the transport are external: a call to one of
    them returns a value or raises, and of what it raises only [str(e)] is
    used.  What a function does besides returning is recorded as a trace:
    the requests it sends, the records it logs and, for a generator, the
    fragments it yields.  A log record keeps the level, the call site and
    the values formatted into the message. *)

Record failure : Type := Failure { detail : pystr }.

Inductive attempt (A : Type) : Type :=
| Success (a : A)
| Failed (e : failure).
Arguments Success {A} a.
Arguments Failed {A} e.

Inductive exn : Type :=
| Runtime (e : pyerr)
| Collaborator (e : failure)
| Exception (message : pystr).

Inductive level : Type := INFO | WARNING | ERROR.

Inductive log_msg : Type :=
| TaskTypeOf (endpoint_name task_type : pystr) (is_supported : bool)
| TaskTypeUnknown (endpoint_name : pystr) (e : exn)
| CouldNotParseJSON (json_str : pystr)
| StreamingFailed (e : exn)
| TryingCustomFormat (inputs : pyval)
| CustomAgentResponse (res : pyval)
| CustomFormatFailed (custom_error : failure)
| UnexpectedResponseFormat (res : pyval)
| BothFormatsFailed (custom_error : failure) (e : exn)
| CouldNotExtract (e : pyerr).

Inductive event : Type :=
| Sent (endpoint : pystr) (inputs : pyval)
| Logged (l : level) (m : log_msg)
| Yielded (fragment : pyval).

(** ** The endpoint capability probe: [is_endpoint_supported] *)

Definition supported_prefixes : list pystr :=
  [u "agent/"; u "llm/v1/chat"; u "llm/v1/completions"].

Section Probe.

(** [_get_endpoint_task_type]: the lookup through the workspace client. *)
Variable _get_endpoint_task_type : pystr -> attempt pyval.

Definition is_endpoint_supported (endpoint_name : pystr) : bool * list event :=
  match _get_endpoint_task_type endpoint_name with
  | Success (PyStr task_type) =>
      let is_supported := existsb (startswith task_type) supported_prefixes in
      (is_supported,
       [Logged INFO (TaskTypeOf endpoint_name task_type is_supported)])
  | Success _ =>
      (true, [Logged WARNING (TaskTypeUnknown endpoint_name (Runtime AttributeError))])
  | Failed e =>
      (true, [Logged WARNING (TaskTypeUnknown endpoint_name (Collaborator e))])
  end.

End Probe.

(** ** The message encoder: [_convert_messages_to_input] *)

Definition _convert_messages_to_input (messages : list pyval) : list pyval :=
  match messages with
  | _ :: _ => messages
  | [] => [PyDict [(u "role", PyStr (u "user")); (u "content", PyStr [])]]
  end.

(** ** The streaming executor: [query_endpoint_stream] *)

(** [bytes.decode('utf-8')], strict. *)
Definition is_cont (b : N) : bool := ((128 <=? b) && (b <=? 191))%N.

Fixpoint utf8_decode (bs : list N) : option pystr :=
  match bs with
  | [] => Some []
  | b0 :: t =>
      if (b0 <? 128)%N then option_map (cons b0) (utf8_decode t)
      else if ((194 <=? b0) && (b0 <=? 223))%N then
        match t with
        | b1 :: t1 =>
            if is_cont b1
            then option_map (cons ((b0 - 192) * 64 + (b1 - 128))%N) (utf8_decode t1)
            else None
        | _ => None
        end
      else if ((224 <=? b0) && (b0 <=? 239))%N then
        match t with
        | b1 :: b2 :: t2 =>
            let c := (((b0 - 224) * 64 + (b1 - 128)) * 64 + (b2 - 128))%N in
            if is_cont b1 && is_cont b2 && (2048 <=? c)%N
               && negb ((55296 <=? c) && (c <=? 57343))%N
            then option_map (cons c) (utf8_decode t2)
            else None
        | _ => None
        end
      else if ((240 <=? b0) && (b0 <=? 244))%N then
        match t with
        | b1 :: b2 :: b3 :: t3 =>
            let c := ((((b0 - 240) * 64 + (b1 - 128)) * 64 + (b2 - 128)) * 64
                      + (b3 - 128))%N in
            if is_cont b1 && is_cont b2 && is_cont b3
               && (65536 <=? c)%N && (c <=? 1114111)%N
            then option_map (cons c) (utf8_decode t3)
            else None
        | _ => None
        end
      else None
  end.

(** A unit of the streamed response: raw bytes, or a value (text, an
    already decoded mapping, or anything else). *)
Inductive chunk : Type :=
| ChunkBytes (bs : list N)
| ChunkValue (v : pyval).

(** The body of [for line in chunk.strip().split('\n')]: what the line
    adds to the trace, or the exception that leaves the loop.  The handler
    of line 81 catches [JSONDecodeError] only. *)
Definition process_line (py : interpreter) (line : pystr)
  : result (list event) :=
  match strip_prefix (u "data: ") line with
  | Some json_str =>
      if str_eqb (str_strip json_str) (u "[DONE]") then Ok []
      else
        match json_loads py json_str with
        | Decoded data => Ok [Yielded data]
        | JSONDecodeError => Ok [Logged WARNING (CouldNotParseJSON json_str)]
        | Raising e => Raise e
        end
  | None => Ok []
  end.

(** The loop over the lines: the trace up to its end, or up to the
    exception that stops it. *)
Fixpoint process_lines (py : interpreter) (lines : list pystr)
  : list event * option pyerr :=
  match lines with
  | [] => ([], None)
  | line :: rest =>
      match process_line py line with
      | Raise e => ([], Some e)
      | Ok evs => let (evs', r) := process_lines py rest in (evs ++ evs', r)
      end
  end.

(** [if isinstance(chunk, str): ...] *)
Definition process_text (py : interpreter) (chunk : pystr)
  : list event * option pyerr :=
  process_lines py (split_on c_newline (str_strip chunk)).

(** The body of [for chunk in response]. *)
Definition process_chunk (py : interpreter) (c : chunk)
  : list event * option pyerr :=
  match
    match c with
    | ChunkBytes bs =>
        match utf8_decode bs with
        | Some s => Ok (PyStr s)
        | None => Raise UnicodeDecodeError
        end
    | ChunkValue v => Ok v
    end
  with
  | Raise e => ([], Some e)
  | Ok (PyStr s) => process_text py s
  | Ok (PyDict d) => ([Yielded (PyDict d)], None)
  | Ok _ => ([], None)
  end.

(** The loop over the response: what happens up to its end, or up to the
    exception that stops it. *)
Fixpoint process_chunks (py : interpreter) (response : list chunk)
  : list event * option exn :=
  match response with
  | [] => ([], None)
  | c :: rest =>
      match process_chunk py c with
      | (evs, Some e) => (evs, Some (Runtime e))
      | (evs, None) =>
          let (evs', r) := process_chunks py rest in (evs ++ evs', r)
      end
  end.

Section Streaming.

(** [client.predict] on a streaming request.  The client is obtained
    before the [try] and is taken as given: what obtaining it raises
    reaches the caller as it is, with nothing sent and nothing logged. *)
Variable predict_stream : pystr -> pyval -> attempt (list chunk).

Definition stream_inputs (messages : list pyval) (max_tokens : Z) : pyval :=
  PyDict [(u "input", PyList (_convert_messages_to_input messages));
          (u "max_output_tokens", PyInt max_tokens);
          (u "stream", PyBool true)].

(** The generator, run to its end: its trace, and the exception it
    re-raises if one stopped it. *)
Definition query_endpoint_stream (py : interpreter) (endpoint_name : pystr)
  (messages : list pyval) (max_tokens : Z) : list event * option exn :=
  let inputs := stream_inputs messages max_tokens in
  match predict_stream endpoint_name inputs with
  | Failed e =>
      ([Sent endpoint_name inputs; Logged ERROR (StreamingFailed (Collaborator e))],
       Some (Collaborator e))
  | Success response =>
      match process_chunks py response with
      | (evs, None) => (Sent endpoint_name inputs :: evs, None)
      | (evs, Some e) =>
          (Sent endpoint_name inputs :: evs ++ [Logged ERROR (StreamingFailed e)],
           Some e)
      end
  end.

End Streaming.

(** ** The non-streaming executor: [query_endpoint] *)

Definition ROLE : pystr := u "role".
Definition CONTENT : pystr := u "content".
Definition RAW_RESPONSE : pystr := u "raw_response".
Definition ASSISTANT : pyval := PyStr (u "assistant").

Section Executor.

(** The builtin [str]: how a value is rendered as text is left open. *)
Variable py_str : pyval -> pystr.

(** [client.predict] on a request that does not stream; the client is
    taken as given, as above. *)
Variable predict : pystr -> pyval -> attempt pyval.

Definition agent_inputs (messages : list pyval) (max_tokens : Z) : pyval :=
  PyDict [(u "input", PyList (_convert_messages_to_input messages));
          (u "max_output_tokens", PyInt max_tokens);
          (u "stream", PyBool false)].

Definition chat_inputs (messages : list pyval) (max_tokens : Z) : pyval :=
  PyDict [(u "messages", PyList messages); (u "max_tokens", PyInt max_tokens)].

(** [{"role": "assistant", "content": str(content), "raw_response": res}] *)
Definition agent_message (content res : pyval) : pyval :=
  PyDict [(ROLE, ASSISTANT); (CONTENT, PyStr (py_str content)); (RAW_RESPONSE, res)].

(** The reply to the agent-format request, made into a message. *)
Definition from_agent_reply (res : pyval) : pyval * list event :=
  match res with
  | PyDict d =>
      match lookup (u "output") d with
      | Some content => (agent_message content res, [])
      | None =>
      match lookup (u "content") d with
      | Some content => (agent_message content res, [])
      | None =>
      match lookup (u "text") d with
      | Some content => (agent_message content res, [])
      | None =>
      match lookup (u "result") d with
      | Some content => (agent_message content res, [])
      | None =>
          (agent_message res res, [Logged INFO (CustomAgentResponse res)])
      end end end end
  | _ => (agent_message res res, [])
  end.

(** The reply to the chat-format request, made into a message; the
    operations on a reply of an unexpected shape can raise. *)
Definition from_chat_reply (res : pyval) : result (pyval * list event) :=
  in_messages <- py_in (u "messages") res ;;
  if in_messages then
    ms <- getitem res (u "messages") ;;
    if truthy ms then
      last <- getitem_last ms ;; Ok (last, [])
    else Ok (PyDict [(ROLE, ASSISTANT); (CONTENT, PyStr (u "No response"))], [])
  else
    in_choices <- py_in (u "choices") res ;;
    if in_choices then
      choices <- getitem res (u "choices") ;;
      first <- getitem_first choices ;;
      choice_message <- getitem first (u "message") ;;
      choice_content <- py_get choice_message CONTENT PyNone ;;
      match choice_content with
      | PyList parts =>
          combined_content <- join_text_parts parts ;;
          role <- py_get choice_message ROLE ASSISTANT ;;
          Ok (PyDict [(ROLE, role); (CONTENT, PyStr combined_content)], [])
      | PyStr _ => Ok (choice_message, [])
      | _ =>
          Ok (PyDict [(ROLE, ASSISTANT); (CONTENT, PyStr (py_str choice_content))], [])
      end
    else
      Ok (PyDict [(ROLE, ASSISTANT); (CONTENT, PyStr (py_str res))],
          [Logged WARNING (UnexpectedResponseFormat res)]).

(** [f"Failed to query endpoint {endpoint_name} with custom format:
       {str(custom_error)}"] *)
Definition failure_message (endpoint_name : pystr) (custom_error : failure) : pystr :=
  u "Failed to query endpoint " ++ endpoint_name ++
  u " with custom format: " ++ detail custom_error.

(** The handler of the first [try]: the chat-format attempt. *)
Definition chat_fallback (endpoint_name : pystr) (messages : list pyval)
  (max_tokens : Z) (custom_error : failure) : (exn + pyval) * list event :=
  let inputs := chat_inputs messages max_tokens in
  let both_failed e :=
    (inl (Exception (failure_message endpoint_name custom_error)),
     [Sent endpoint_name inputs; Logged ERROR (BothFormatsFailed custom_error e)]) in
  match predict endpoint_name inputs with
  | Failed e => both_failed (Collaborator e)
  | Success res =>
      match from_chat_reply res with
      | Raise e => both_failed (Runtime e)
      | Ok (message, evs) => (inr message, Sent endpoint_name inputs :: evs)
      end
  end.

(** [query_endpoint]: the message returned ([inr]) or the exception raised
    ([inl]), with the trace of requests and log records. *)
Definition query_endpoint (endpoint_name : pystr) (messages : list pyval)
  (max_tokens : Z) : (exn + pyval) * list event :=
  let inputs := agent_inputs messages max_tokens in
  let start := [Logged INFO (TryingCustomFormat inputs); Sent endpoint_name inputs] in
  match predict endpoint_name inputs with
  | Success res =>
      let (message, evs) := from_agent_reply res in
      (inr message, start ++ evs)
  | Failed custom_error =>
      let (r, evs) := chat_fallback endpoint_name messages max_tokens custom_error in
      (r, start ++ Logged WARNING (CustomFormatFailed custom_error) :: evs)
  end.

End Executor.

(** ** The chunk content extractor: [extract_content_from_stream]

    Each format either returns a value from the function ([Some]), falls
    through to the next one ([None]), or raises. *)

Definition or_next (m k : result (option pyval)) : result (option pyval) :=
  match m with
  | Ok None => k
  | _ => m
  end.

(** Format 1: [chunk["choices"][0].get("delta", {})] and its ["content"]. *)
Definition format_choices (chunk : pyval) : result (option pyval) :=
  present <- py_in (u "choices") chunk ;;
  if present then
    choices <- getitem chunk (u "choices") ;;
    first <- getitem_first choices ;;
    delta <- py_get first (u "delta") (PyDict []) ;;
    has_content <- py_in CONTENT delta ;;
    if has_content then
      c <- getitem delta CONTENT ;; Ok (Some c)
    else Ok None
  else Ok None.

(** Format 2: a top-level ["content"], a string or a list of parts. *)
Definition format_content (chunk : pyval) : result (option pyval) :=
  present <- py_in CONTENT chunk ;;
  if present then
    content <- getitem chunk CONTENT ;;
    match content with
    | PyStr _ => Ok (Some content)
    | PyList parts => s <- join_text_parts parts ;; Ok (Some (PyStr s))
    | _ => Ok None
    end
  else Ok None.

(** Format 3: a top-level ["text"]. *)
Definition format_text (chunk : pyval) : result (option pyval) :=
  present <- py_in (u "text") chunk ;;
  if present then
    t <- getitem chunk (u "text") ;; Ok (Some t)
  else Ok None.

(** Format 4: a top-level ["output"], a string or a dict with ["text"] or
    ["content"]. *)
Definition format_output (chunk : pyval) : result (option pyval) :=
  present <- py_in (u "output") chunk ;;
  if present then
    output <- getitem chunk (u "output") ;;
    match output with
    | PyStr _ => Ok (Some output)
    | PyDict d =>
        match lookup (u "text") d with
        | Some t => Ok (Some t)
        | None =>
            match lookup CONTENT d with
            | Some c => Ok (Some c)
            | None => Ok None
            end
        end
    | _ => Ok None
    end
  else Ok None.

(** Format 5: a top-level ["delta"], a string or a dict with ["content"]. *)
Definition format_delta (chunk : pyval) : result (option pyval) :=
  present <- py_in (u "delta") chunk ;;
  if present then
    delta <- getitem chunk (u "delta") ;;
    match delta with
    | PyStr _ => Ok (Some delta)
    | PyDict d =>
        match lookup CONTENT d with
        | Some c => Ok (Some c)
        | None => Ok None
        end
    | _ => Ok None
    end
  else Ok None.

(** The body of the [try]. *)
Definition extract_body (chunk : pyval) : result (option pyval) :=
  or_next (format_choices chunk)
 (or_next (format_content chunk)
 (or_next (format_text chunk)
 (or_next (format_output chunk)
          (format_delta chunk)))).

(** [extract_content_from_stream]: what is returned ([PyNone] for [None])
    and what is logged. *)
Definition extract_content_from_stream (chunk : pyval) : pyval * list event :=
  match extract_body chunk with
  | Ok (Some v) => (v, [])
  | Ok None => (PyNone, [])
  | Raise e => (PyNone, [Logged WARNING (CouldNotExtract e)])
  end.


(** * Statements: inputs and predicates *)

(** A mapping recovered by the regular-expression fallback: the candidate
    text is long enough, does not decode as a whole, and the mapping is the
    decoding of what the pattern matches in it. *)
Definition regex_recovered (py : interpreter) (d : list (pystr * pyval))
  : Prop :=
  exists text json_match,
    50 < length text /\
    json_loads py (strip_fences text) = JSONDecodeError /\
    re_search json_object_pattern (strip_fences text) = Some json_match /\
    json_loads py json_match = Decoded (PyDict d).

(** What holds of every mapping the parser returns. *)
Definition accepted (py : interpreter) (d : list (pystr * pyval)) : Prop :=
  has_key QU d = true \/ regex_recovered py d.

Definition churn_only_text : pystr :=
  jq "{'query_understanding': 'find customer churn data products'}".

Definition prose_then_object : pystr :=
  jq "Here are results: {'query_understanding':'x','results':[{'rank':1}]}".

Definition prose_around_object : pystr :=
  jq "Here are results: {'query_understanding':'x','results':[{'rank':1}]} Thanks".

Definition embedded_object : pyval :=
  PyDict [(QU, PyStr (u "x"));
          (RESULTS, PyList [PyDict [(u "rank", PyInt 1)]])].

Definition fenced_document : pystr :=
  u "```json" ++ [c_newline] ++
  jq "{'query_understanding':'churn data','results':[{'rank':1}],'recommended_action':'ask'}" ++
  [c_newline] ++ u "```".

(** The candidate texts of the content blocks of an assistant message. *)
Definition candidates (item : pyval) : list pyval :=
  match item with
  | PyDict d =>
      if is_assistant_message d then
        match lookup (u "content") d with
        | Some (PyList content) =>
            flat_map (fun blk => match blk with
                                 | PyDict b => [candidate_text b]
                                 | _ => []
                                 end) content
        | _ => []
        end
      else []
  | _ => []
  end.

(** An assistant message whose content is a plain string, not a list of
    content blocks. *)
Definition has_string_content (item : pyval) : bool :=
  match item with
  | PyDict d =>
      is_assistant_message d &&
      match lookup (u "content") d with
      | Some (PyStr _) => true
      | _ => false
      end
  | _ => false
  end.

(** A candidate text qualifies when the attempt on it returns a value. *)
Definition qualifies (py : interpreter) (text : pystr) : Prop :=
  exists v, try_candidate py text = Return (Some v).

Definition short_valid_text : pystr :=
  jq "{'query_understanding':'x','results':[]}".

Definition string_under_content : pyval :=
  PyDict [(CONTENT, PyStr (jq "['query_understanding', 'results']"))].

(** The requests of a trace, in the order they were sent. *)
Definition requests (trace : list event) : list pyval :=
  flat_map (fun e => match e with Sent _ inputs => [inputs] | _ => [] end) trace.

(** A choice message whose content, when it is a list of parts, can be
    joined without raising. *)
Definition joinable_content (m : list (pystr * pyval)) : Prop :=
  forall parts, lookup CONTENT m = Some (PyList parts) ->
                exists s, join_text_parts parts = Ok s.

(** A rendering of values for the examples: [str] of a string is the
    string; other values are elided. *)
Definition str_of (v : pyval) : pystr :=
  match v with
  | PyStr s => s
  | _ => u "..."
  end.

Definition user_turn : pyval :=
  PyDict [(ROLE, PyStr (u "user")); (CONTENT, PyStr (u "churn tables"))].

Definition hello_message : list (pystr * pyval) :=
  [(ROLE, ASSISTANT); (CONTENT, PyStr (u "Hello"))].

Definition choices_reply : list (pystr * pyval) :=
  [(u "choices", PyList [PyDict [(u "message", PyDict hello_message)]])].

(** An endpoint that rejects the agent format and answers the chat format
    with a 'choices' payload. *)
Definition chat_only_client (_ : pystr) (inputs : pyval) : attempt pyval :=
  match inputs with
  | PyDict d =>
      if has_key (u "messages") d then Success (PyDict choices_reply)
      else Failed (Failure (u "400: unknown field input"))
  | _ => Failed (Failure (u "400: bad request"))
  end.

(** An endpoint that rejects both formats, each with its own detail. *)
Definition rejecting_client (_ : pystr) (inputs : pyval) : attempt pyval :=
  match inputs with
  | PyDict d =>
      if has_key (u "messages") d then Failed (Failure (u "chat format rejected"))
      else Failed (Failure (u "agent format rejected"))
  | _ => Failed (Failure (u "400: bad request"))
  end.

(** An endpoint that answers the agent format. *)
Definition agent_client (_ : pystr) (_ : pyval) : attempt pyval :=
  Success (PyDict [(u "output", PyStr (u "Hello"))]).

(** A metadata lookup that fails. *)
Definition unreachable_workspace (_ : pystr) : attempt pyval :=
  Failed (Failure (u "connection refused")).

Definition DATA : pystr := u "data: ".

Definition sse_buffer : pystr :=
  jq "data: {'a': 1}" ++ [c_newline] ++ u "data: oops" ++ [c_newline] ++
  jq "data: {'b': 2}" ++ [c_newline] ++ u "data: [DONE]" ++ [c_newline].



(** A remainder that is no JSON document, an integer literal of 4301
    digits followed by a word: the decoder raises on the literal before it
    gets to the word. *)
Definition long_integer_text : pystr := repeat (ch "1") 4301 ++ u " oops".


(** *** The extractor, by the words of the specification

    The five shapes of a fragment, each giving the text it holds when the
    fragment has that shape, and the first of them that does. *)

Definition spec_text_parts (parts : list pyval) : pystr :=
  flat_map (fun part =>
              match part with
              | PyDict p =>
                  match lookup (u "type") p, lookup (u "text") p with
                  | Some ty, Some (PyStr s) => if eq_str ty (u "text") then s else []
                  | _, _ => []
                  end
              | _ => []
              end) parts.

Definition spec_shape_choices (chunk : list (pystr * pyval)) : option pyval :=
  match lookup (u "choices") chunk with
  | Some (PyList (PyDict first :: _)) =>
      match lookup (u "delta") first with
      | Some (PyDict delta) => lookup CONTENT delta
      | _ => None
      end
  | _ => None
  end.

Definition spec_shape_content (chunk : list (pystr * pyval)) : option pyval :=
  match lookup CONTENT chunk with
  | Some (PyStr s) => Some (PyStr s)
  | Some (PyList parts) => Some (PyStr (spec_text_parts parts))
  | _ => None
  end.

Definition spec_shape_text (chunk : list (pystr * pyval)) : option pyval :=
  lookup (u "text") chunk.

Definition spec_shape_output (chunk : list (pystr * pyval)) : option pyval :=
  match lookup (u "output") chunk with
  | Some (PyStr s) => Some (PyStr s)
  | Some (PyDict o) =>
      match lookup (u "text") o with
      | Some t => Some t
      | None => lookup CONTENT o
      end
  | _ => None
  end.

Definition spec_shape_delta (chunk : list (pystr * pyval)) : option pyval :=
  match lookup (u "delta") chunk with
  | Some (PyStr s) => Some (PyStr s)
  | Some (PyDict d) => lookup CONTENT d
  | _ => None
  end.

Definition or_else (a b : option pyval) : option pyval :=
  match a with Some _ => a | None => b end.

Definition spec_first_matching_shape (chunk : pyval) : option pyval :=
  match chunk with
  | PyDict d =>
      or_else (spec_shape_choices d)
     (or_else (spec_shape_content d)
     (or_else (spec_shape_text d)
     (or_else (spec_shape_output d)
              (spec_shape_delta d))))
  | _ => None
  end.

(** [None] of Python for no text. *)
Definition or_none (r : option pyval) : pyval :=
  match r with Some v => v | None => PyNone end.

Definition empty_choices_fragment : pyval :=
  PyDict [(u "choices", PyList []); (CONTENT, PyStr (u "hi"))].

Definition prose_then_untagged_object : pystr :=
  jq "prose {'a': ['query_understanding', 'results'], 'pad': '...............'}".

(** A continuation that returns a part of the text it is given. *)
Definition shrinking (k : pystr -> option pystr) : Prop :=
  forall s r, k s = Some r -> length r <= length s.

(** The values the parser returns: mappings, and what a string under
    'content', 'text' or 'result' decodes to when both names are found in
    it, whatever its type. *)
Definition mapping_or_decoded_content (py : interpreter) (v : pyval) : Prop :=
  (exists d, v = PyDict d) \/
  (exists s, json_loads py s = Decoded v /\ has_both v = Ok true).

(** Where a message of the chat-format path comes from: it is a part of
    the reply, returned as it is, or a new mapping with the two fields
    'role' and 'content'. *)
Definition chat_message_origin (res message : pyval) : Prop :=
  (exists ms, getitem res (u "messages") = Ok ms /\ getitem_last ms = Ok message) \/
  (exists choices first,
      getitem res (u "choices") = Ok choices /\
      getitem_first choices = Ok first /\
      getitem first (u "message") = Ok message) \/
  (exists role content, message = PyDict [(ROLE, role); (CONTENT, PyStr content)]).

(** * Further statements: the rest of the module and its caller *)

(** A value that is itself an envelope with a 'raw_response' field. *)
Definition raw_wrapped (v : pyval) : bool :=
  match v with
  | PyDict d => has_key RAW_RESPONSE d
  | _ => false
  end.

(** An element of the list that the scan looks into. *)
Definition is_assistant_item (item : pyval) : bool :=
  match item with
  | PyDict d => is_assistant_message d
  | _ => false
  end.

(** A continuation that, when it succeeds, has consumed a prefix of the
    text with the property [Q]. *)
Definition consumes (k : pystr -> option pystr) (Q : pystr -> Prop) : Prop :=
  forall s rest, k s = Some rest -> exists p, s = p ++ rest /\ Q p.

(** The fragments of a trace, in the order they were yielded. *)
Definition fragments (trace : list event) : list pyval :=
  flat_map (fun e => match e with Yielded v => [v] | _ => [] end) trace.

(** A line the loop gets past: on the remainder of a [data: ] line that is
    not the sentinel, [json.loads] raises nothing but [JSONDecodeError]. *)
Definition line_passes (py : interpreter) (line : pystr) : Prop :=
  forall json_str e,
    strip_prefix (u "data: ") line = Some json_str ->
    str_strip json_str <> u "[DONE]" ->
    json_loads py json_str <> Raising e.

Definition text_passes (py : interpreter) (s : pystr) : Prop :=
  Forall (line_passes py) (split_on c_newline (str_strip s)).

(** A chunk that is read without an exception: bytes that are UTF-8 for a
    text whose lines pass, a text whose lines pass, or any other value. *)
Definition readable (py : interpreter) (c : chunk) : Prop :=
  match c with
  | ChunkBytes bs => exists s, utf8_decode bs = Some s /\ text_passes py s
  | ChunkValue (PyStr s) => text_passes py s
  | ChunkValue _ => True
  end.

(** The value under the first of [keys] that the mapping has. *)
Fixpoint first_present (keys : list pystr) (d : list (pystr * pyval))
  : option pyval :=
  match keys with
  | [] => None
  | key :: rest =>
      match lookup key d with
      | Some v => Some v
      | None => first_present rest d
      end
  end.

(** ** The caller of the executor and the parser: [query_rag_endpoint]

    The function of [app.py] that sends the query and parses the reply.
    Its trace adds, to that of the executor, its own log records and the
    messages it shows on the progress placeholder, when one is given
    ([progress_placeholder] tells whether one is; a placeholder is true).
    The log records of the parser itself are left out, as above. *)

Inductive progress_msg : Type :=
| Retrieving
| Processing
| Ranking
| ResultsReady (found : nat).

Inductive app_log : Type :=
| RawResponse (response : pyval)
| ParsedResponse
| ParseFailed
| ErrorQuerying (e : exn).

Inductive app_event : Type :=
| Core (e : event)
| AppLogged (l : level) (m : app_log)
| Progress (p : progress_msg).

Section Caller.

Variable py_str : pyval -> pystr.
Variable predict : pystr -> pyval -> attempt pyval.

(** [SERVING_ENDPOINT], read from the environment when the module loads. *)
Variable SERVING_ENDPOINT : pystr.

(** [len(parsed_data.get('results', []))] *)
Definition count_results (parsed_data : pyval) : result nat :=
  results <- py_get parsed_data RESULTS (PyList []) ;;
  py_len results.

(** [query_rag_endpoint]: what is returned ([inr], with [None] for no
    result) or raised again ([inl]), and the trace; [py] is the interpreter
    the parser decodes in. *)
Definition query_rag_endpoint (py : interpreter) (query : pystr)
  (max_tokens : Z) (progress_placeholder : bool)
  : (exn + option pyval) * list app_event :=
  let messages := [PyDict [(ROLE, PyStr (u "user")); (CONTENT, PyStr query)]] in
  let shown p := if progress_placeholder then [Progress p] else [] in
  let (r, core) := query_endpoint py_str predict SERVING_ENDPOINT messages max_tokens in
  let sent := shown Retrieving ++ map Core core in
  match r with
  | inl e => (inl e, sent ++ [AppLogged ERROR (ErrorQuerying e)])
  | inr response =>
      let received :=
        sent ++ [AppLogged INFO (RawResponse response)] ++
        shown Processing ++ shown Ranking in
      match parse_rag_response py response with
      | Some parsed_data =>
          if truthy parsed_data then
            if progress_placeholder then
              match count_results parsed_data with
              | Ok found =>
                  (inr (Some parsed_data),
                   received ++ [AppLogged INFO ParsedResponse;
                                Progress (ResultsReady found)])
              | Raise e =>
                  (inl (Runtime e),
                   received ++ [AppLogged INFO ParsedResponse;
                                AppLogged ERROR (ErrorQuerying (Runtime e))])
              end
            else (inr (Some parsed_data), received ++ [AppLogged INFO ParsedResponse])
          else (inr None, received ++ [AppLogged WARNING ParseFailed])
      | None => (inr None, received ++ [AppLogged WARNING ParseFailed])
      end
  end.

End Caller.

Definition canonical_reply : list (pystr * pyval) :=
  [(QU, PyStr (u "churn data"));
   (RESULTS, PyList [PyDict [(u "rank", PyInt 1)]; PyDict [(u "rank", PyInt 2)]]);
   (u "recommended_action", PyStr (u "ask"))].

(** An endpoint that answers the agent format with the canonical reply. *)
Definition canonical_client (_ : pystr) (_ : pyval) : attempt pyval :=
  Success (PyDict canonical_reply).

(** An endpoint whose decoded reply has a number under 'results'. *)
Definition counting_client (_ : pystr) (_ : pyval) : attempt pyval :=
  Success (PyDict [(QU, PyStr (u "churn data")); (RESULTS, PyInt 2)]).

(** An endpoint that answers the chat format with a list of messages. *)
Definition messages_client (_ : pystr) (inputs : pyval) : attempt pyval :=
  match inputs with
  | PyDict d =>
      if has_key (u "messages") d
      then Success (PyDict [(u "messages", PyList [user_turn; PyDict hello_message]);
                            (u "choices", PyList [])])
      else Failed (Failure (u "400: unknown field input"))
  | _ => Failed (Failure (u "400: bad request"))
  end.

(** An endpoint that answers the chat format with no choice at all. *)
Definition no_choice_client (_ : pystr) (inputs : pyval) : attempt pyval :=
  match inputs with
  | PyDict d =>
      if has_key (u "messages") d
      then Success (PyDict [(u "choices", PyList [])])
      else Failed (Failure (u "agent format rejected"))
  | _ => Failed (Failure (u "400: bad request"))
  end.

(** A stream of two decoded mappings. *)
Definition mapping_stream (_ : pystr) (_ : pyval) : attempt (list chunk) :=
  Success (map ChunkValue [PyDict [(u "text", PyStr (u "a"))];
                           PyDict [(u "text", PyStr (u "b"))]]).

(** A stream whose second chunk is not UTF-8. *)
Definition broken_stream (_ : pystr) (_ : pyval) : attempt (list chunk) :=
  Success [ChunkValue (PyDict [(u "text", PyStr (u "a"))]);
           ChunkBytes [255%N];
           ChunkValue (PyDict [(u "text", PyStr (u "b"))])].

(** A metadata lookup that finds an endpoint without a task. *)
Definition taskless_workspace (_ : pystr) : attempt pyval := Success PyNone.

(** A metadata lookup that finds an agent endpoint. *)
Definition agent_workspace (_ : pystr) : attempt pyval :=
  Success (PyStr (u "agent/v1/responses")).

Definition is_mapping (v : pyval) : bool :=
  match v with PyDict _ => true | _ => false end.

Definition is_text (v : pyval) : bool :=
  match v with PyStr _ => true | _ => false end.

Definition BACKTICK : N := 96.
Definition FENCE : pystr := u "```".

(** A property of the consumed text that holds of every text it ends. *)
Definition suffix_closed (Q : pystr -> Prop) : Prop :=
  forall a q, Q q -> Q (a ++ q).

Definition ends_with_brace (p : pystr) : Prop := exists q, p = q ++ [ch "}"].



(** * Properties *)

Unset Implicit Arguments.

(** ** Text and lookup facts *)

Lemma str_eqb_refl (s : pystr) : str_eqb s s = true.
Proof.
  induction s as [|c s IH]; simpl; [reflexivity|].
  now rewrite N.eqb_refl, IH.
Qed.

Lemma str_eqb_eq (a b : pystr) : str_eqb a b = true <-> a = b.
Proof.
  split.
  - revert b; induction a as [|x a IH]; intros [|y b] H; simpl in H;
      try discriminate; [reflexivity|].
    apply andb_true_iff in H as [Hx Hs].
    apply N.eqb_eq in Hx. f_equal; auto.
  - intros ->. apply str_eqb_refl.
Qed.

Lemma strip_prefix_app (p s : pystr) : strip_prefix p (p ++ s) = Some s.
Proof.
  induction p as [|c p IH]; simpl; [now destruct s|].
  now rewrite N.eqb_refl.
Qed.

Lemma strip_prefix_split (p s r : pystr) : strip_prefix p s = Some r -> s = p ++ r.
Proof.
  revert s; induction p as [|c p IH]; intros s H; simpl in H.
  - now injection H as ->.
  - destruct s as [|y s]; [discriminate|].
    destruct (N.eqb c y) eqn:E; [|discriminate].
    apply N.eqb_eq in E. subst y. simpl. f_equal. now apply IH.
Qed.

Lemma has_key_lookup (k : pystr) (d : list (pystr * pyval)) :
  has_key k d = true <-> exists v, lookup k d = Some v.
Proof.
  unfold has_key. destruct (lookup k d) as [v|]; split.
  - intros _. now exists v.
  - reflexivity.
  - discriminate.
  - intros [v H]. discriminate.
Qed.

(** ** What the parser returns *)

Lemma has_both_dict (d : list (pystr * pyval)) :
  has_both (PyDict d) = Ok true ->
  has_key QU d = true /\ has_key RESULTS d = true.
Proof.
  unfold has_both; simpl.
  destruct (has_key QU d); [|discriminate].
  intros H. split; congruence.
Qed.

Lemma probe_keys_returns (py : interpreter) (keys : list pystr) (response d : list
  (pystr * pyval)) :
  probe_keys py keys response = Return (Some (PyDict d)) -> has_key QU d = true.
Proof.
  induction keys as [|key rest IH]; simpl; [discriminate|].
  destruct (lookup key response) as [content|]; [|exact IH].
  destruct content as [| | | |s|l|c|]; try exact IH.
  - destruct (json_loads py s) as [parsed| |e]; [|exact IH|discriminate].
    destruct (has_both parsed) as [[|]|e] eqn:Hb; try exact IH; [|discriminate].
    intros [= ->]. now apply has_both_dict in Hb.
  - discriminate.
  - destruct (has_key QU c) eqn:Hc; [|exact IH].
    now intros [= ->].
Qed.

Lemma mapping_branch_returns (py : interpreter) (response : pyval) (d : list
  (pystr * pyval)) :
  mapping_branch py response = Return (Some (PyDict d)) -> has_key QU d = true.
Proof.
  unfold mapping_branch.
  destruct response as [| | | | | |r|]; try discriminate.
  destruct (has_key QU r && has_key RESULTS r) eqn:Hq.
  - apply andb_true_iff in Hq as [Hq _]. now intros [= <-].
  - destruct (lookup (u "output") r) as [[| | | | | | |]|];
      solve [apply probe_keys_returns | discriminate].
Qed.

Lemma try_candidate_returns (py : interpreter) (text : pystr) (d : list (pystr * pyval)) :
  50 < length text ->
  try_candidate py text = Return (Some (PyDict d)) -> accepted py d.
Proof.
  intros Hlen. unfold try_candidate.
  destruct (json_loads py (strip_fences text)) as [parsed| |e] eqn:Hj.
  - destruct parsed as [| | | | | |p|]; try discriminate.
    destruct (has_key QU p) eqn:Hq; [|discriminate].
    intros [= ->]. now left.
  - destruct (re_search json_object_pattern (strip_fences text)) as [m|] eqn:Hm;
      [|discriminate].
    destruct (json_loads py m) as [parsed| |e] eqn:Hp; try discriminate.
    intros [= ->]. right. now exists text, m.
  - discriminate.
Qed.

Lemma scan_block_returns (py : interpreter) (content_block : pyval) (d : list
  (pystr * pyval)) :
  scan_block py content_block = Return (Some (PyDict d)) -> accepted py d.
Proof.
  destruct content_block as [| | | | | |b|]; simpl; try discriminate.
  destruct (truthy (candidate_text b)); [|discriminate].
  destruct (candidate_text b) as [| | | |s|l|c|]; simpl; try discriminate.
  - destruct (50 <? length s) eqn:Hlen; [|discriminate].
    apply Nat.ltb_lt in Hlen. now apply try_candidate_returns.
  - destruct (50 <? length l); discriminate.
  - destruct (50 <? length c); discriminate.
Qed.

Lemma scan_blocks_returns (py : interpreter) (content : list pyval) (d : list
  (pystr * pyval)) :
  scan_blocks py content = Return (Some (PyDict d)) -> accepted py d.
Proof.
  induction content as [|b rest IH]; simpl; [discriminate|].
  destruct (scan_block py b) as [v| |e] eqn:Hb; simpl; try discriminate.
  - intros [= ->]. now apply scan_block_returns in Hb.
  - exact IH.
Qed.

Lemma scan_item_returns (py : interpreter) (item : pyval) (d : list (pystr * pyval)) :
  scan_item py item = Return (Some (PyDict d)) -> accepted py d.
Proof.
  destruct item as [| | | | | |i|]; simpl; try discriminate.
  destruct (is_assistant_message i); [|discriminate].
  destruct (lookup (u "content") i) as [[| | | |s|l| |]|]; try discriminate.
  - destruct (json_loads py s) as [[| | | | | |p|]| |e]; try discriminate.
    destruct (has_key QU p) eqn:Hq; [|discriminate].
    intros [= ->]. now left.
  - apply scan_blocks_returns.
Qed.

Lemma scan_items_returns (py : interpreter) (items : list pyval) (d : list
  (pystr * pyval)) :
  scan_items py items = Return (Some (PyDict d)) -> accepted py d.
Proof.
  induction items as [|i rest IH]; simpl; [discriminate|].
  destruct (scan_item py i) as [v| |e] eqn:Hi; simpl; try discriminate.
  - intros [= ->]. now apply scan_item_returns in Hi.
  - exact IH.
Qed.

Lemma report_failure_none (response : pyval) (v : pyval) :
  report_failure response <> Return (Some v).
Proof.
  destruct response; simpl; try discriminate;
    match goal with |- context [if ?b then _ else _] => destruct b end;
    discriminate.
Qed.

Lemma parse_rag_body_returns (py : interpreter) (response : pyval) (d : list
  (pystr * pyval)) :
  parse_rag_body py response = Return (Some (PyDict d)) -> accepted py d.
Proof.
  unfold parse_rag_body.
  destruct (decode_string py (unwrap_raw response)) as [v|w|e] eqn:Hd; simpl;
    try discriminate.
  - unfold decode_string in Hd.
    destruct (unwrap_raw response); try discriminate.
    destruct (json_loads py s); try discriminate.
    injection Hd as <-. discriminate.
  - destruct (mapping_branch py w) as [v|w'|e] eqn:Hm; simpl; try discriminate.
    + intros [= ->]. left. now apply mapping_branch_returns in Hm.
    + destruct (list_branch py w') as [v| |e] eqn:Hl; simpl; try discriminate.
      * intros [= ->]. destruct w'; simpl in Hl; try discriminate.
        now apply scan_items_returns in Hl.
      * intros H. now apply report_failure_none in H.
Qed.

Lemma parse_rag_response_body (py : interpreter) (response v : pyval) :
  parse_rag_response py response = Some v ->
  parse_rag_body py response = Return (Some v).
Proof.
  unfold parse_rag_response.
  destruct (parse_rag_body py response) as [r| |e]; try discriminate.
  now intros ->.
Qed.

(** C1, as stated, fails: an assistant message of the list branch whose
    text decodes to a mapping with 'query_understanding' and no 'results'
    is returned. *)
Lemma parse_accepts_mapping_without_results :
  parse_rag_response default_interpreter
    (PyList [assistant_message (PyList [text_block churn_only_text])])
  = Some (PyDict [(QU, PyStr (u "find customer churn data products"))]) /\
  has_key RESULTS [(QU, PyStr (u "find customer churn data products"))] = false.
Proof. split; vm_compute; reflexivity. Qed.

(** C1 (amended): a mapping returned by [parse_rag_response] contains the
    key 'query_understanding', or it is the decoding of what the pattern
    matched in a candidate text of more than 50 characters that did not
    decode as a whole; and a mapping that has both 'query_understanding'
    and 'results' (and no 'raw_response' envelope) is returned as it is by
    the first check. *)
Theorem parse_returns_accepted_mapping :
  forall py : interpreter,
  (forall (response : pyval) (d : list (pystr * pyval)),
      parse_rag_response py response = Some (PyDict d) ->
      has_key QU d = true \/ regex_recovered py d) /\
  (forall d : list (pystr * pyval),
      has_key RAW_RESPONSE d = false ->
      has_key QU d = true -> has_key RESULTS d = true ->
      parse_rag_response py (PyDict d) = Some (PyDict d)).
Proof.
  intros py. split.
  - intros response d H.
    apply parse_rag_response_body in H.
    now apply parse_rag_body_returns in H.
  - intros d Hraw Hq Hr.
    unfold parse_rag_response, parse_rag_body, unwrap_raw.
    unfold has_key, RAW_RESPONSE in Hraw.
    destruct (lookup (u "raw_response") d); [discriminate|].
    unfold decode_string, and_then at 1, mapping_branch.
    now rewrite Hq, Hr.
Qed.

Lemma parse_returns_accepted_mapping_witness :
  (has_key QU [(QU, PyStr (u "find customer churn data products"))] = true \/
   regex_recovered default_interpreter
     [(QU, PyStr (u "find customer churn data products"))]) /\
  parse_rag_response default_interpreter
    (PyDict [(QU, PyStr (u "x")); (RESULTS, PyList [])])
  = Some (PyDict [(QU, PyStr (u "x")); (RESULTS, PyList [])]).
Proof.
  split.
  - apply (proj1 (parse_returns_accepted_mapping default_interpreter)
             (PyList [assistant_message (PyList [text_block churn_only_text])])).
    vm_compute; reflexivity.
  - apply (proj2 (parse_returns_accepted_mapping default_interpreter)); reflexivity.
Defined.

(** C2, as stated, fails: with the prose that follows the object the
    pattern, which is anchored at the end of the text, finds nothing, and
    the parser returns [None]. *)
Lemma regex_fallback_misses_trailing_prose :
  json_loads default_interpreter (strip_fences prose_around_object)
  = JSONDecodeError /\
  re_search json_object_pattern (strip_fences prose_around_object) = None /\
  parse_rag_response default_interpreter
    (PyList [assistant_message (PyList [text_block prose_around_object])]) = None /\
  parse_rag_response default_interpreter
    (PyList [assistant_message (PyList [text_block prose_around_object])])
  <> Some embedded_object.
Proof.
  repeat split; try (vm_compute; reflexivity).
  vm_compute; discriminate.
Qed.

(** C2 (amended): when the candidate text is the prose followed by the
    object, so that the object ends the text, the text does not decode as a
    whole, the pattern finds the embedded object, and the parser returns
    its decoding, in every interpreter that leaves the decoder the three
    levels of nesting of the object. *)
Theorem regex_fallback_recovers_final_object :
  forall py : interpreter,
    3 <= nesting_room py ->
    json_loads py (strip_fences prose_then_object) = JSONDecodeError /\
    re_search json_object_pattern (strip_fences prose_then_object)
    = Some (jq "{'query_understanding':'x','results':[{'rank':1}]}") /\
    parse_rag_response py
      (PyList [assistant_message (PyList [text_block prose_then_object])])
    = Some embedded_object.
Proof.
  intros py Hroom.
  destruct py as [digits [|[|[|room]]]]; cbn [nesting_room] in Hroom; try lia.
  repeat split; vm_compute; reflexivity.
Qed.

Lemma regex_fallback_recovers_final_object_witness :
  json_loads default_interpreter (strip_fences prose_then_object)
  = JSONDecodeError /\
  re_search json_object_pattern (strip_fences prose_then_object)
  = Some (jq "{'query_understanding':'x','results':[{'rank':1}]}") /\
  parse_rag_response default_interpreter
    (PyList [assistant_message (PyList [text_block prose_then_object])])
  = Some embedded_object.
Proof.
  apply (regex_fallback_recovers_final_object default_interpreter).
  cbn [default_interpreter nesting_room]. lia.
Defined.

(** The fallback checks no key: the two names need only occur in the
    matched text. *)
Example regex_fallback_checks_no_key :
  parse_rag_response default_interpreter
    (PyList [assistant_message (PyList [text_block prose_then_untagged_object])])
  = Some (PyDict [(u "a", PyList [PyStr QU; PyStr RESULTS]);
                  (u "pad", PyStr (u "..............."))]).
Proof. vm_compute; reflexivity. Qed.

(** ** The list branch *)

Lemma scan_block_text_block (py : interpreter) (text : pystr) :
  50 < length text -> scan_block py (text_block text) = try_candidate py text.
Proof.
  intros Hlen.
  destruct text as [|c t]; [simpl in Hlen; lia|].
  assert (Hc : candidate_text
                 [(u "type", PyStr (u "output_text")); (u "text", PyStr (c :: t))]
               = PyStr (c :: t)) by reflexivity.
  unfold scan_block, text_block. rewrite Hc.
  cbn [truthy py_len].
  apply Nat.ltb_lt in Hlen. now rewrite Hlen.
Qed.

Lemma scan_item_assistant_blocks (py : interpreter) (content : list pyval) :
  scan_item py (assistant_message (PyList content)) = scan_blocks py content.
Proof. reflexivity. Qed.

Lemma parse_list (py : interpreter) (items : list pyval) :
  parse_rag_body py (PyList items) =
  and_then (scan_items py (rev items)) (fun _ => report_failure (PyList items)).
Proof. reflexivity. Qed.

(** C4: when the last element of the list is an assistant message whose
    content block holds a text of more than 50 characters that [json.loads]
    decodes, once the code fences are stripped, to a mapping with
    'query_understanding', the parser returns that mapping, whatever the
    earlier elements are. *)
Theorem list_scan_returns_latest_document :
  forall (py : interpreter)
         (earlier : list pyval) (text : pystr) (d : list (pystr * pyval)),
    50 < length text ->
    json_loads py (strip_fences text) = Decoded (PyDict d) ->
    has_key QU d = true ->
    parse_rag_response py
      (PyList (earlier ++ [assistant_message (PyList [text_block text])]))
    = Some (PyDict d).
Proof.
  intros py earlier text d Hlen Hj Hq.
  unfold parse_rag_response. rewrite parse_list, rev_app_distr.
  cbn [rev app scan_items].
  rewrite scan_item_assistant_blocks. cbn [scan_blocks].
  rewrite scan_block_text_block by exact Hlen.
  unfold try_candidate. rewrite Hj, Hq. reflexivity.
Qed.

Lemma list_scan_returns_latest_document_witness :
  parse_rag_response default_interpreter
    (PyList ([assistant_message (PyList [text_block (u "Searching the catalog...")])]
             ++ [assistant_message (PyList [text_block fenced_document])]))
  = Some (PyDict [(QU, PyStr (u "churn data"));
                  (RESULTS, PyList [PyDict [(u "rank", PyInt 1)]]);
                  (u "recommended_action", PyStr (u "ask"))]).
Proof.
  apply (list_scan_returns_latest_document default_interpreter).
  - vm_compute. lia.
  - vm_compute. reflexivity.
  - vm_compute. reflexivity.
Defined.

Lemma scan_block_no_return (py : interpreter) (content_block v : pyval) :
  (forall b t, content_block = PyDict b -> candidate_text b = PyStr t ->
               50 < length t -> ~ qualifies py t) ->
  scan_block py content_block <> Return (Some v).
Proof.
  intros H. destruct content_block as [| | | | | |b|]; simpl; try discriminate.
  destruct (truthy (candidate_text b)); [|discriminate].
  destruct (candidate_text b) as [| | | |s|l|c|] eqn:Hc; simpl; try discriminate.
  - destruct (50 <? length s) eqn:Hlen; [|discriminate].
    apply Nat.ltb_lt in Hlen. intros Hr.
    apply (H b s eq_refl Hc Hlen). now exists v.
  - destruct (50 <? length l); discriminate.
  - destruct (50 <? length c); discriminate.
Qed.

Lemma scan_blocks_no_return (py : interpreter) (content : list pyval) (v : pyval) :
  (forall b t, In (PyDict b) content -> candidate_text b = PyStr t ->
               50 < length t -> ~ qualifies py t) ->
  scan_blocks py content <> Return (Some v).
Proof.
  induction content as [|blk rest IH]; intros H; simpl; [discriminate|].
  destruct (scan_block py blk) as [r| |e] eqn:Hb; simpl; try discriminate.
  - intros [= ->]. revert Hb. apply scan_block_no_return.
    intros b t -> . apply H. now left.
  - apply IH. intros b t Hin. apply H. now right.
Qed.

Lemma scan_item_no_return (py : interpreter) (item v : pyval) :
  has_string_content item = false ->
  (forall t, In (PyStr t) (candidates item) -> 50 < length t -> ~ qualifies py t) ->
  scan_item py item <> Return (Some v).
Proof.
  intros Hs Hc. destruct item as [| | | | | |d|]; simpl; try discriminate.
  simpl in Hs, Hc.
  destruct (is_assistant_message d); [|discriminate].
  destruct (lookup (u "content") d) as [[| | | |s|content| |]|]; try discriminate.
  apply scan_blocks_no_return.
  intros b t Hin Ht. apply Hc.
  apply in_flat_map. exists (PyDict b). split; [exact Hin|].
  rewrite Ht. now left.
Qed.

Lemma scan_items_no_return (py : interpreter) (items : list pyval) (v : pyval) :
  (forall item, In item items -> has_string_content item = false) ->
  (forall item t, In item items -> In (PyStr t) (candidates item) ->
                  50 < length t -> ~ qualifies py t) ->
  scan_items py items <> Return (Some v).
Proof.
  induction items as [|item rest IH]; intros Hs Hc; simpl; [discriminate|].
  destruct (scan_item py item) as [r| |e] eqn:Hi; simpl; try discriminate.
  - intros [= ->]. revert Hi. apply scan_item_no_return.
    + apply Hs. now left.
    + intros t. apply Hc. now left.
  - apply IH.
    + intros i Hin. apply Hs. now right.
    + intros i t Hin. apply Hc. now right.
Qed.

(** C5, as stated, fails: an assistant message whose content is a plain
    string of 40 characters has no content-block candidate at all, so that
    no candidate longer than 50 characters qualifies, and the parser
    returns the decoding of the string. *)
Lemma short_string_content_is_returned :
  length short_valid_text = 40 /\
  candidates (assistant_message (PyStr short_valid_text)) = [] /\
  (forall t, In (PyStr t) (candidates (assistant_message (PyStr short_valid_text))) ->
             50 < length t -> ~ qualifies default_interpreter t) /\
  parse_rag_response default_interpreter
    (PyList [assistant_message (PyStr short_valid_text)])
  = Some (PyDict [(QU, PyStr (u "x")); (RESULTS, PyList [])]) /\
  parse_rag_response default_interpreter
    (PyList [assistant_message (PyStr short_valid_text)]) <> None.
Proof.
  split; [reflexivity|].
  split; [reflexivity|].
  split; [intros t []|].
  split; [vm_compute; reflexivity|].
  vm_compute. discriminate.
Qed.

(** C5 (amended): a content block whose candidate text has at most 50
    characters is passed over, whatever the text is, and the scan goes on
    with the next block; when no assistant message of the list has a plain
    string as its content and no candidate text of more than 50 characters
    qualifies, the parser returns [None]; and a plain string that is the
    content of the last assistant message is decoded whatever its length,
    and returned when it decodes to a mapping with 'query_understanding'. *)
Theorem short_candidates_are_skipped :
  forall py : interpreter,
  (forall (b : list (pystr * pyval)) (t : pystr) (rest : list pyval),
      candidate_text b = PyStr t -> length t <= 50 ->
      scan_block py (PyDict b) = Next tt /\
      scan_blocks py (PyDict b :: rest) = scan_blocks py rest) /\
  (forall items : list pyval,
      (forall item, In item items -> has_string_content item = false) ->
      (forall item t, In item items -> In (PyStr t) (candidates item) ->
                      50 < length t -> ~ qualifies py t) ->
      parse_rag_response py (PyList items) = None) /\
  (forall (earlier : list pyval) (s : pystr) (p : list (pystr * pyval)),
      json_loads py s = Decoded (PyDict p) ->
      has_key QU p = true ->
      parse_rag_response py (PyList (earlier ++ [assistant_message (PyStr s)]))
      = Some (PyDict p)).
Proof.
  intros py. split; [|split].
  - intros b t rest Hc Hlen.
    assert (Hb : scan_block py (PyDict b) = Next tt).
    { unfold scan_block. rewrite Hc.
      destruct (truthy (PyStr t)); [|reflexivity].
      cbn [py_len]. apply Nat.leb_le in Hlen.
      rewrite Nat.ltb_antisym, Hlen. reflexivity. }
    split; [exact Hb|].
    cbn [scan_blocks]. now rewrite Hb.
  - intros items Hs Hc.
    unfold parse_rag_response. rewrite parse_list.
    destruct (scan_items py (rev items)) as [[v|]| |e] eqn:Hscan; simpl;
      try reflexivity.
    + exfalso. revert Hscan. apply scan_items_no_return.
      * intros item Hin. apply Hs. now apply in_rev.
      * intros item t Hin. apply Hc. now apply in_rev.
    + destruct (forallb serializable items); reflexivity.
  - intros earlier s p Hj Hq.
    unfold parse_rag_response. rewrite parse_list, rev_app_distr.
    cbn [rev app scan_items].
    assert (Hi : scan_item py (assistant_message (PyStr s))
                 = Return (Some (PyDict p))).
    { change (scan_item py (assistant_message (PyStr s)))
        with (match json_loads py s with
              | Decoded (PyDict p) =>
                  if has_key QU p then Return (Some (PyDict p)) else Next tt
              | Decoded _ => Next tt
              | JSONDecodeError => Next tt
              | Raising e => Throw e
              end : flow unit).
      now rewrite Hj, Hq. }
    rewrite Hi. reflexivity.
Qed.

Lemma short_candidates_are_skipped_witness :
  (scan_block default_interpreter (text_block short_valid_text) = Next tt /\
   scan_blocks default_interpreter [text_block short_valid_text]
   = scan_blocks default_interpreter []) /\
  parse_rag_response default_interpreter
    (PyList [assistant_message (PyList [text_block short_valid_text])]) = None /\
  parse_rag_response default_interpreter
    (PyList ([user_turn] ++ [assistant_message (PyStr short_valid_text)]))
  = Some (PyDict [(QU, PyStr (u "x")); (RESULTS, PyList [])]).
Proof.
  split; [|split].
  - apply (proj1 (short_candidates_are_skipped default_interpreter)
             [(u "type", PyStr (u "output_text")); (u "text", PyStr short_valid_text)]
             short_valid_text []).
    + reflexivity.
    + vm_compute. lia.
  - apply (proj1 (proj2 (short_candidates_are_skipped default_interpreter))).
    + intros item [<-|[]]. reflexivity.
    + intros item t [<-|[]] [Ht|[]] Hlen.
      injection Ht as <-. vm_compute in Hlen. lia.
  - apply (proj2 (proj2 (short_candidates_are_skipped default_interpreter))).
    + vm_compute. reflexivity.
    + reflexivity.
Defined.

(** ** The type of the result *)

(** C10, at the failing input: a string under 'content' that decodes to a
    list holding the two field names is returned, though it is neither a
    mapping nor [None], in every interpreter that leaves the decoder one
    level of nesting. *)
Theorem parse_returns_a_list :
  forall py : interpreter,
    1 <= nesting_room py ->
    parse_rag_response py string_under_content
    = Some (PyList [PyStr QU; PyStr RESULTS]).
Proof.
  intros py Hroom.
  destruct py as [digits [|room]]; cbn [nesting_room] in Hroom; [lia|].
  vm_compute; reflexivity.
Qed.

Lemma parse_returns_a_list_witness :
  parse_rag_response default_interpreter string_under_content
  = Some (PyList [PyStr QU; PyStr RESULTS]).
Proof.
  apply (parse_returns_a_list default_interpreter).
  cbn [default_interpreter nesting_room]. lia.
Defined.

(** A value that [json.dumps] refuses makes the diagnostics raise; the
    handler of the outer [try] turns that into [None]. *)
Lemma parse_survives_unserializable (py : interpreter) :
  parse_rag_body py (PyList [PyObject 0]) = Throw TypeError /\
  parse_rag_response py (PyList [PyObject 0]) = None.
Proof. split; reflexivity. Qed.

(** So does what the decoder raises besides [JSONDecodeError]: an integer
    literal over the digit limit in a candidate text. *)
Lemma parse_survives_decoder_limits :
  parse_rag_body default_interpreter
    (PyList [assistant_message (PyList [text_block (repeat (ch "1") 4301)])])
  = Throw ValueError /\
  parse_rag_response default_interpreter
    (PyList [assistant_message (PyList [text_block (repeat (ch "1") 4301)])])
  = None.
Proof. split; vm_compute; reflexivity. Qed.

(** ** The shape of what is returned *)

Lemma strip_prefix_length (p s r : pystr) :
  strip_prefix p s = Some r -> length r <= length s.
Proof.
  intros H. apply strip_prefix_split in H. subst s.
  rewrite length_app. lia.
Qed.

Lemma lazy_star_shrinking (cls : N -> bool) (k : pystr -> option pystr) :
  shrinking k -> shrinking (lazy_star cls k).
Proof.
  intros Hk s. induction s as [|c t IH]; intros r; simpl.
  - destruct (k []) eqn:E; [|discriminate].
    intros [= <-]. now apply Hk in E.
  - destruct (k (c :: t)) eqn:E.
    + intros [= <-]. now apply Hk in E.
    + destruct (cls c); [|discriminate].
      intros H. apply IH in H. simpl. lia.
Qed.

Lemma greedy_star_shrinking (cls : N -> bool) (k : pystr -> option pystr) :
  shrinking k -> shrinking (greedy_star cls k).
Proof.
  intros Hk s. induction s as [|c t IH]; intros r; simpl.
  - apply Hk.
  - destruct (cls c); [|apply Hk].
    destruct (greedy_star cls k t) as [p|] eqn:E.
    + intros [= <-]. specialize (IH p eq_refl). simpl. lia.
    + apply Hk.
Qed.

Lemma re_match_shrinking (r : regex) :
  forall k, shrinking k -> shrinking (re_match r k).
Proof.
  induction r as [l|cls|cls|r1 IH1| |r1 IH1 r2 IH2]; intros k Hk s rest; simpl.
  - destruct (strip_prefix l s) as [t|] eqn:E; [|discriminate].
    intros H. apply Hk in H. apply strip_prefix_length in E. lia.
  - now apply lazy_star_shrinking.
  - now apply greedy_star_shrinking.
  - destruct (re_match r1 k s) eqn:E.
    + intros [= <-]. now apply (IH1 k Hk) in E.
    + apply Hk.
  - destruct (at_end s); [apply Hk | discriminate].
  - apply IH1. now apply IH2.
Qed.

Lemma re_search_unfold (r : regex) (s : pystr) :
  re_search r s =
  match re_match r Some s with
  | Some rest => Some (firstn (length s - length rest) s)
  | None => match s with [] => None | _ :: t => re_search r t end
  end.
Proof. destruct s; reflexivity. Qed.

Lemma re_match_lit_head (c : N) (r : regex) (k : pystr -> option pystr)
  (s rest : pystr) :
  re_match (Seq (Lit [c]) r) k s = Some rest ->
  exists t, s = c :: t /\ re_match r k t = Some rest.
Proof.
  cbn [re_match]. destruct s as [|y s']; cbn [strip_prefix]; [discriminate|].
  destruct (N.eqb c y) eqn:E; [|discriminate].
  apply N.eqb_eq in E. subst y. intros H. now exists s'.
Qed.

Lemma firstn_head (c : N) (t rest : pystr) :
  length rest <= length t ->
  exists t0, firstn (length (c :: t) - length rest) (c :: t) = c :: t0.
Proof.
  intros H. change (length (c :: t)) with (S (length t)).
  rewrite Nat.sub_succ_l by exact H. cbn [firstn]. now eexists.
Qed.

(** What the pattern matches begins with an opening brace. *)
Lemma json_object_pattern_brace (s json_match : pystr) :
  re_search json_object_pattern s = Some json_match ->
  exists t, json_match = ch "{" :: t.
Proof.
  revert json_match. induction s as [|c s IH]; intros json_match;
    rewrite re_search_unfold;
    destruct (re_match json_object_pattern Some _) as [rest|] eqn:E;
    try discriminate; try apply IH;
    apply re_match_lit_head in E as [t [Hs E]]; try discriminate.
  injection Hs as -> ->. intros Hm.
  assert (Hlen : length rest <= length t).
  { revert E. apply re_match_shrinking. intros s' r' [= <-]. lia. }
  destruct (firstn_head (ch "{") t rest Hlen) as [t0 Ht0].
  exists t0. rewrite <- Ht0. injection Hm as <-. reflexivity.
Qed.

Lemma parse_members_dict (value : pystr -> decoding (pyval * pystr)) (n : nat) :
  forall s acc v r,
    parse_members value n s acc = Decoded (v, r) -> exists d, v = PyDict d.
Proof.
  induction n as [|n IH]; intros s acc v r; cbn [parse_members]; [discriminate|].
  destruct s as [|q t]; [discriminate|].
  destruct (N.eqb q c_quote); [|discriminate].
  destruct (scan_string t []) as [[key r0]|]; [|discriminate].
  destruct (skip_ws r0) as [|c r1]; [discriminate|].
  destruct (N.eqb c (ch ":")); [|discriminate].
  destruct (value (skip_ws r1)) as [[x r2]| |e]; try discriminate.
  destruct (skip_ws r2) as [|c2 r3]; [discriminate|].
  destruct (N.eqb c2 (ch "}")).
  - intros [= <- _]. now eexists.
  - destruct (N.eqb c2 (ch ",")); [apply IH | discriminate].
Qed.

(** A text that begins with an opening brace decodes to a dict, if at
    all. *)
Lemma json_loads_brace (py : interpreter) (t : pystr) (v : pyval) :
  json_loads py (ch "{" :: t) = Decoded v -> exists d, v = PyDict d.
Proof.
  unfold json_loads.
  change (skip_ws (ch "{" :: t)) with (ch "{" :: t).
  destruct (scan_once py (S (length (ch "{" :: t))) (nesting_room py)
                      (ch "{" :: t)) as [[x r]| |e] eqn:E;
    try discriminate.
  destruct (skip_ws r); [|discriminate].
  intros [= <-].
  cbn [scan_once] in E.
  change (N.eqb (ch "{") c_quote) with false in E.
  change (N.eqb (ch "{") (ch "{")) with true in E.
  cbv iota in E.
  destruct (nesting_room py) as [|room']; [discriminate|].
  destruct (skip_ws t) as [|c' r'] eqn:Et; [discriminate|].
  destruct (N.eqb c' (ch "}")).
  - injection E as <- _. now eexists.
  - now apply parse_members_dict in E.
Qed.

Lemma probe_keys_shape (py : interpreter) (keys : list pystr)
  (response : list (pystr * pyval)) (v : pyval) :
  probe_keys py keys response = Return (Some v) -> mapping_or_decoded_content py v.
Proof.
  induction keys as [|key rest IH]; simpl; [discriminate|].
  destruct (lookup key response) as [content|]; [|exact IH].
  destruct content as [| | | |s|l|c|]; try exact IH.
  - destruct (json_loads py s) as [parsed| |e] eqn:Hj; [|exact IH|discriminate].
    destruct (has_both parsed) as [[|]|e] eqn:Hb; try exact IH; [|discriminate].
    intros [= <-]. right. now exists s.
  - discriminate.
  - destruct (has_key QU c); [|exact IH].
    intros [= <-]. left. now eexists.
Qed.

Lemma scan_items_shape (py : interpreter) (items : list pyval) (v : pyval) :
  scan_items py items = Return (Some v) -> exists d, v = PyDict d.
Proof.
  assert (Hcand : forall text, try_candidate py text = Return (Some v) ->
                               exists d, v = PyDict d).
  { intros text. unfold try_candidate.
    destruct (json_loads py (strip_fences text)) as [[| | | | | |p|]| |e];
      try discriminate.
    - destruct (has_key QU p); [|discriminate]. intros [= <-]. now eexists.
    - destruct (re_search json_object_pattern (strip_fences text)) as [m|] eqn:Hm;
        [|discriminate].
      apply json_object_pattern_brace in Hm as [t ->].
      destruct (json_loads py (ch "{" :: t)) as [parsed| |e] eqn:Hp;
        try discriminate.
      intros [= <-]. now apply json_loads_brace in Hp. }
  assert (Hblock : forall blk, scan_block py blk = Return (Some v) ->
                               exists d, v = PyDict d).
  { intros [| | | | | |b|]; simpl; try discriminate.
    destruct (truthy (candidate_text b)); [|discriminate].
    destruct (candidate_text b) as [| | | |s|l|c|]; simpl; try discriminate.
    - destruct (50 <? length s); [apply Hcand | discriminate].
    - destruct (50 <? length l); discriminate.
    - destruct (50 <? length c); discriminate. }
  assert (Hblocks : forall content, scan_blocks py content = Return (Some v) ->
                                    exists d, v = PyDict d).
  { induction content as [|blk rest IH]; simpl; [discriminate|].
    destruct (scan_block py blk) as [r| |e] eqn:Hb; simpl; try discriminate; [|exact IH].
    intros [= ->]. now apply Hblock in Hb. }
  assert (Hitem : forall item, scan_item py item = Return (Some v) ->
                               exists d, v = PyDict d).
  { intros [| | | | | |i|]; simpl; try discriminate.
    destruct (is_assistant_message i); [|discriminate].
    destruct (lookup (u "content") i) as [[| | | |s|l| |]|]; try discriminate.
    - destruct (json_loads py s) as [[| | | | | |p|]| |e]; try discriminate.
      destruct (has_key QU p); [|discriminate]. intros [= <-]. now eexists.
    - apply Hblocks. }
  induction items as [|i rest IH]; simpl; [discriminate|].
  destruct (scan_item py i) as [r| |e] eqn:Hi; simpl; try discriminate; [|exact IH].
  intros [= ->]. now apply Hitem in Hi.
Qed.

(** Apart from the decoding of a string under 'content', 'text' or
    'result', every value the parser returns is a mapping. *)
Lemma parse_returns_mapping_or_decoded_content (py : interpreter)
  (response v : pyval) :
  parse_rag_response py response = Some v -> mapping_or_decoded_content py v.
Proof.
  intros H. apply parse_rag_response_body in H. revert H.
  unfold parse_rag_body.
  destruct (decode_string py (unwrap_raw response)) as [r|w|e] eqn:Hd; simpl;
    try discriminate.
  - unfold decode_string in Hd.
    destruct (unwrap_raw response); try discriminate.
    destruct (json_loads py s); try discriminate.
    injection Hd as <-. discriminate.
  - destruct (mapping_branch py w) as [r|w'|e] eqn:Hm; simpl; try discriminate.
    + intros [= ->]. unfold mapping_branch in Hm.
      destruct w as [| | | | | |d|]; try discriminate.
      destruct (has_key QU d && has_key RESULTS d).
      * injection Hm as <-. left. now eexists.
      * destruct (lookup (u "output") d) as [[| | | | | | |]|];
          solve [now apply probe_keys_shape in Hm | discriminate].
    + destruct (list_branch py w') as [r| |e] eqn:Hl; simpl; try discriminate.
      * intros [= ->]. destruct w'; simpl in Hl; try discriminate.
        left. now apply scan_items_shape in Hl.
      * intros H. now apply report_failure_none in H.
Qed.

(** ** The endpoint probe *)

(** C9: when the metadata lookup raises, [is_endpoint_supported] returns
    [True] and logs one warning; and it returns a boolean for every lookup
    and every endpoint identifier, so that nothing is raised to the
    caller. *)
Theorem probe_fails_open :
  forall (lookup_task : pystr -> attempt pyval) (endpoint_name : pystr) (e : failure),
    lookup_task endpoint_name = Failed e ->
    is_endpoint_supported lookup_task endpoint_name
    = (true, [Logged WARNING (TaskTypeUnknown endpoint_name (Collaborator e))]) /\
    (forall (other : pystr -> attempt pyval) (name : pystr),
        exists (b : bool) (trace : list event),
          is_endpoint_supported other name = (b, trace)).
Proof.
  intros lookup_task endpoint_name e H. split.
  - unfold is_endpoint_supported. now rewrite H.
  - intros other name.
    destruct (is_endpoint_supported other name) as [b trace].
    now exists b, trace.
Qed.

Lemma probe_fails_open_witness :
  is_endpoint_supported unreachable_workspace (u "rag-agent")
  = (true, [Logged WARNING
              (TaskTypeUnknown (u "rag-agent")
                 (Collaborator (Failure (u "connection refused"))))]).
Proof.
  apply (probe_fails_open unreachable_workspace (u "rag-agent")
           (Failure (u "connection refused"))).
  reflexivity.
Defined.

(** ** The non-streaming executor *)

Lemma from_agent_reply_message (py_str : pyval -> pystr) (res : pyval) :
  exists content,
    fst (from_agent_reply py_str res)
    = PyDict [(ROLE, ASSISTANT); (CONTENT, PyStr content); (RAW_RESPONSE, res)].
Proof.
  unfold from_agent_reply, agent_message.
  destruct res as [| | | | | |d|]; try (eexists; reflexivity).
  destruct (lookup (u "output") d); [eexists; reflexivity|].
  destruct (lookup (u "content") d); [eexists; reflexivity|].
  destruct (lookup (u "text") d); [eexists; reflexivity|].
  destruct (lookup (u "result") d); eexists; reflexivity.
Qed.

Lemma requests_app (a b : list event) : requests (a ++ b) = requests a ++ requests b.
Proof. apply flat_map_app. Qed.

Lemma from_agent_reply_sends_nothing (py_str : pyval -> pystr) (res : pyval) :
  requests (snd (from_agent_reply py_str res)) = [].
Proof.
  unfold from_agent_reply.
  destruct res as [| | | | | |d|]; try reflexivity.
  destruct (lookup (u "output") d); [reflexivity|].
  destruct (lookup (u "content") d); [reflexivity|].
  destruct (lookup (u "text") d); [reflexivity|].
  destruct (lookup (u "result") d); reflexivity.
Qed.

Lemma from_chat_reply_sends_nothing (py_str : pyval -> pystr) (res message : pyval)
  (trace : list event) :
  from_chat_reply py_str res = Ok (message, trace) -> requests trace = [].
Proof.
  unfold from_chat_reply.
  destruct (py_in (u "messages") res) as [[|]|]; simpl; try discriminate.
  - destruct (getitem res (u "messages")) as [ms|]; simpl; try discriminate.
    destruct (truthy ms).
    + destruct (getitem_last ms); simpl; try discriminate. now intros [= _ <-].
    + now intros [= _ <-].
  - destruct (py_in (u "choices") res) as [[|]|]; simpl; try discriminate.
    + destruct (getitem res (u "choices")) as [cs|]; simpl; try discriminate.
      destruct (getitem_first cs) as [f|]; simpl; try discriminate.
      destruct (getitem f (u "message")) as [cm|]; simpl; try discriminate.
      destruct (py_get cm CONTENT PyNone) as [cc|]; simpl; try discriminate.
      destruct cc; try (now intros [= _ <-]).
      destruct (join_text_parts l); simpl; try discriminate.
      destruct (py_get cm ROLE ASSISTANT); simpl; try discriminate.
      now intros [= _ <-].
    + now intros [= _ <-].
Qed.

Lemma from_chat_reply_origin (py_str : pyval -> pystr) (res message : pyval)
  (trace : list event) :
  from_chat_reply py_str res = Ok (message, trace) ->
  chat_message_origin res message.
Proof.
  unfold from_chat_reply, chat_message_origin.
  destruct (py_in (u "messages") res) as [[|]|]; simpl; try discriminate.
  - destruct (getitem res (u "messages")) as [ms|]; simpl; try discriminate.
    destruct (truthy ms).
    + destruct (getitem_last ms) as [last|] eqn:Hl; simpl; try discriminate.
      intros [= <- _]. left. now exists ms.
    + intros [= <- _]. right; right. now eexists _, _.
  - destruct (py_in (u "choices") res) as [[|]|]; simpl; try discriminate.
    + destruct (getitem res (u "choices")) as [cs|]; simpl; try discriminate.
      destruct (getitem_first cs) as [f|] eqn:Hf; simpl; try discriminate.
      destruct (getitem f (u "message")) as [cm|] eqn:Hcm; simpl; try discriminate.
      destruct (py_get cm CONTENT PyNone) as [cc|]; simpl; try discriminate.
      destruct cc;
        try (intros [= <- _]; right; right; now eexists _, _).
      * intros [= <- _]. right; left. now exists cs, f.
      * destruct (join_text_parts l); simpl; try discriminate.
        destruct (py_get cm ROLE ASSISTANT); simpl; try discriminate.
        intros [= <- _]. right; right. now eexists _, _.
    + intros [= <- _]. right; right. now eexists _, _.
Qed.

(** C3, as stated, fails: the message built from a 'choices' reply of the
    chat-format path has no 'raw_response' field. *)
Lemma chat_reply_has_no_raw_response :
  fst (query_endpoint str_of chat_only_client (u "rag-agent") [user_turn] 1000)
  = inr (PyDict hello_message) /\
  has_key RAW_RESPONSE hello_message = false.
Proof. split; vm_compute; reflexivity. Qed.

(** C3 (amended): when the agent-format request succeeds, the message
    returned by [query_endpoint] is a mapping with the role 'assistant', a
    text content and a 'raw_response' field that holds the raw payload;
    when it raises and a message is returned all the same, that message
    is a part of the chat-format reply returned as it is, or a new mapping
    with only 'role' and 'content': no 'raw_response' is added to it. *)
Theorem agent_reply_keeps_raw_response :
  forall (py_str : pyval -> pystr) (predict : pystr -> pyval -> attempt pyval)
         (endpoint_name : pystr) (messages : list pyval) (max_tokens : Z),
    let run := query_endpoint py_str predict endpoint_name messages max_tokens in
    (forall res,
        predict endpoint_name (agent_inputs messages max_tokens) = Success res ->
        exists content,
          fst run = inr (PyDict [(ROLE, ASSISTANT); (CONTENT, PyStr content);
                                 (RAW_RESPONSE, res)]) /\
          lookup RAW_RESPONSE
            [(ROLE, ASSISTANT); (CONTENT, PyStr content); (RAW_RESPONSE, res)]
          = Some res) /\
    (forall custom_error message,
        predict endpoint_name (agent_inputs messages max_tokens) = Failed custom_error ->
        fst run = inr message ->
        exists res,
          predict endpoint_name (chat_inputs messages max_tokens) = Success res /\
          chat_message_origin res message).
Proof.
  intros py_str predict endpoint_name messages max_tokens run. split.
  - intros res H.
    destruct (from_agent_reply_message py_str res) as [content Hc].
    exists content. split; [|reflexivity].
    subst run. unfold query_endpoint. rewrite H.
    destruct (from_agent_reply py_str res) as [message evs].
    simpl in Hc |- *. now rewrite Hc.
  - intros custom_error message H.
    subst run. unfold query_endpoint. rewrite H. unfold chat_fallback.
    destruct (predict endpoint_name (chat_inputs messages max_tokens)) as [res|e];
      [|discriminate].
    destruct (from_chat_reply py_str res) as [[m evs]|e] eqn:Hr; [|discriminate].
    cbn [fst]. intros [= <-]. exists res. split; [reflexivity|].
    now apply from_chat_reply_origin in Hr.
Qed.

Lemma agent_reply_keeps_raw_response_witness :
  (exists content,
      fst (query_endpoint str_of agent_client (u "rag-agent") [user_turn] 1000)
      = inr (PyDict [(ROLE, ASSISTANT); (CONTENT, PyStr content);
                     (RAW_RESPONSE, PyDict [(u "output", PyStr (u "Hello"))])]) /\
      lookup RAW_RESPONSE
        [(ROLE, ASSISTANT); (CONTENT, PyStr content);
         (RAW_RESPONSE, PyDict [(u "output", PyStr (u "Hello"))])]
      = Some (PyDict [(u "output", PyStr (u "Hello"))])) /\
  (exists res,
      chat_only_client (u "rag-agent") (chat_inputs [user_turn] 1000) = Success res /\
      chat_message_origin res (PyDict hello_message)).
Proof.
  split.
  - apply (proj1 (agent_reply_keeps_raw_response str_of agent_client (u "rag-agent")
                    [user_turn] 1000%Z)).
    reflexivity.
  - apply (proj2 (agent_reply_keeps_raw_response str_of chat_only_client
                    (u "rag-agent") [user_turn] 1000%Z)
             (Failure (u "400: unknown field input"))).
    + reflexivity.
    + reflexivity.
Defined.

Lemma from_chat_reply_choices (py_str : pyval -> pystr)
  (d c m : list (pystr * pyval)) (cs : list pyval) :
  lookup (u "messages") d = None ->
  lookup (u "choices") d = Some (PyList (PyDict c :: cs)) ->
  lookup (u "message") c = Some (PyDict m) ->
  joinable_content m ->
  exists message,
    from_chat_reply py_str (PyDict d) = Ok (message, []) /\
    (forall s, lookup CONTENT m = Some (PyStr s) -> message = PyDict m).
Proof.
  intros Hm Hc Hmsg Hjoin.
  unfold from_chat_reply. cbn [py_in bind getitem].
  unfold has_key. rewrite Hm, Hc. cbn [bind getitem_first getitem].
  rewrite Hmsg. cbn [bind py_get].
  destruct (lookup CONTENT m) as [cc|] eqn:Hcc.
  - destruct cc as [| | | |s|parts| |];
      try (eexists; split; [reflexivity | discriminate]).
    + exists (PyDict m). split; [reflexivity | reflexivity].
    + destruct (Hjoin parts Hcc) as [s Hs]. cbn [bind]. rewrite Hs. cbn [bind py_get].
      destruct (lookup ROLE m); eexists; (split; [reflexivity | discriminate]).
  - eexists; split; [reflexivity | discriminate].
Qed.

Section ChatFallback.

Variable py_str : pyval -> pystr.
Variable predict : pystr -> pyval -> attempt pyval.
Variables (endpoint_name : pystr) (messages : list pyval) (max_tokens : Z).
Variable custom_error : failure.

Let fallback := chat_fallback py_str predict endpoint_name messages max_tokens
                  custom_error.
Let chat := chat_inputs messages max_tokens.

Lemma chat_fallback_requests : requests (snd fallback) = [chat].
Proof.
  subst fallback chat. unfold chat_fallback.
  destruct (predict endpoint_name (chat_inputs messages max_tokens)) as [res|e];
    [|reflexivity].
  destruct (from_chat_reply py_str res) as [[message evs]|e] eqn:Hr;
    [|reflexivity].
  cbn [snd requests flat_map app]. fold (requests evs).
  now rewrite (from_chat_reply_sends_nothing _ _ _ _ Hr).
Qed.

Lemma chat_fallback_returns (res message : pyval) (evs : list event) :
  predict endpoint_name chat = Success res ->
  from_chat_reply py_str res = Ok (message, evs) ->
  fst fallback = inr message.
Proof.
  subst fallback chat. unfold chat_fallback. now intros -> ->.
Qed.

Lemma chat_fallback_transport_failure (e : failure) :
  predict endpoint_name chat = Failed e ->
  fst fallback = inl (Exception (failure_message endpoint_name custom_error)).
Proof.
  subst fallback chat. unfold chat_fallback. now intros ->.
Qed.

Lemma chat_fallback_unreadable_reply (res : pyval) (e : pyerr) :
  predict endpoint_name chat = Success res ->
  from_chat_reply py_str res = Raise e ->
  fst fallback = inl (Exception (failure_message endpoint_name custom_error)).
Proof.
  subst fallback chat. unfold chat_fallback. now intros -> ->.
Qed.

End ChatFallback.

Lemma query_endpoint_after_failure (py_str : pyval -> pystr)
  (predict : pystr -> pyval -> attempt pyval) (endpoint_name : pystr)
  (messages : list pyval) (max_tokens : Z) (custom_error : failure) :
  predict endpoint_name (agent_inputs messages max_tokens) = Failed custom_error ->
  let run := query_endpoint py_str predict endpoint_name messages max_tokens in
  let fallback := chat_fallback py_str predict endpoint_name messages max_tokens
                    custom_error in
  fst run = fst fallback /\
  requests (snd run) = agent_inputs messages max_tokens :: requests (snd fallback).
Proof.
  intros H run fallback. subst run fallback. unfold query_endpoint. rewrite H.
  destruct (chat_fallback py_str predict endpoint_name messages max_tokens custom_error)
    as [r evs].
  split; reflexivity.
Qed.

(** C6, as stated, fails: a chat-format success with a 'choices' payload
    that holds no choice is not returned; reading its first choice raises,
    and the caller gets the exception of a double failure. *)
Lemma empty_choices_reply_raises :
  no_choice_client (u "rag-agent") (agent_inputs [user_turn] 1000)
  = Failed (Failure (u "agent format rejected")) /\
  no_choice_client (u "rag-agent") (chat_inputs [user_turn] 1000)
  = Success (PyDict [(u "choices", PyList [])]) /\
  fst (query_endpoint str_of no_choice_client (u "rag-agent") [user_turn] 1000)
  = inl (Exception (u "Failed to query endpoint " ++ u "rag-agent" ++
                    u " with custom format: " ++ u "agent format rejected")) /\
  forall message,
    fst (query_endpoint str_of no_choice_client (u "rag-agent") [user_turn] 1000)
    <> inr message.
Proof.
  split; [reflexivity|].
  split; [reflexivity|].
  split; [vm_compute; reflexivity|].
  intros message. vm_compute. discriminate.
Qed.

(** C6 (amended): [query_endpoint] sends the agent-format request first and
    nothing else when it succeeds; when it raises, the chat-format request
    is sent next.  Then a 'choices' reply that has no 'messages' key and
    whose first choice is a mapping holding a message mapping, with a
    content that can be joined when it is a list of parts, is made into the
    returned message (the message itself when its content is a string) and
    nothing is raised; and when the chat-format request raises as well, or
    its reply cannot be read, the exception raised carries the detail of
    the agent-format failure. *)
Theorem fallback_cascade :
  forall (py_str : pyval -> pystr) (predict : pystr -> pyval -> attempt pyval)
         (endpoint_name : pystr) (messages : list pyval) (max_tokens : Z),
    let run := query_endpoint py_str predict endpoint_name messages max_tokens in
    let agent := agent_inputs messages max_tokens in
    let chat := chat_inputs messages max_tokens in
    (forall res, predict endpoint_name agent = Success res ->
        requests (snd run) = [agent] /\ exists message, fst run = inr message) /\
    (forall custom_error, predict endpoint_name agent = Failed custom_error ->
        requests (snd run) = [agent; chat] /\
        (forall d c cs m,
            predict endpoint_name chat = Success (PyDict d) ->
            lookup (u "messages") d = None ->
            lookup (u "choices") d = Some (PyList (PyDict c :: cs)) ->
            lookup (u "message") c = Some (PyDict m) ->
            joinable_content m ->
            exists message,
              fst run = inr message /\
              (forall s, lookup CONTENT m = Some (PyStr s) -> message = PyDict m)) /\
        (forall e, predict endpoint_name chat = Failed e ->
            fst run = inl (Exception (u "Failed to query endpoint " ++ endpoint_name ++
                                      u " with custom format: " ++ detail custom_error))) /\
        (forall res e, predict endpoint_name chat = Success res ->
            from_chat_reply py_str res = Raise e ->
            fst run = inl (Exception (u "Failed to query endpoint " ++ endpoint_name ++
                                      u " with custom format: " ++ detail custom_error)))).
Proof.
  intros py_str predict endpoint_name messages max_tokens run agent chat.
  split.
  - intros res H. subst run. unfold query_endpoint. fold agent. rewrite H.
    pose proof (from_agent_reply_sends_nothing py_str res) as Hs.
    destruct (from_agent_reply py_str res) as [message evs]. simpl in Hs.
    split; [|now exists message].
    cbn [snd]. rewrite requests_app, Hs. reflexivity.
  - intros custom_error H.
    destruct (query_endpoint_after_failure py_str predict endpoint_name messages
                max_tokens custom_error H) as [Hfst Hsnd].
    fold run in Hfst, Hsnd. rewrite Hfst, Hsnd. clear Hfst Hsnd.
    split; [now rewrite chat_fallback_requests|].
    split; [|split].
    + intros d c cs m Hchat Hm Hc Hmsg Hjoin.
      destruct (from_chat_reply_choices py_str d c m cs Hm Hc Hmsg Hjoin)
        as [message [Hok Hstr]].
      exists message. split; [|exact Hstr].
      exact (chat_fallback_returns _ _ _ _ _ _ _ _ _ Hchat Hok).
    + intros e. apply chat_fallback_transport_failure.
    + intros res e. apply chat_fallback_unreadable_reply.
Qed.

Lemma fallback_cascade_witness :
  (requests (snd (query_endpoint str_of chat_only_client (u "rag-agent") [user_turn] 1000))
   = [agent_inputs [user_turn] 1000; chat_inputs [user_turn] 1000] /\
   exists message,
     fst (query_endpoint str_of chat_only_client (u "rag-agent") [user_turn] 1000)
     = inr message /\
     (forall s, lookup CONTENT hello_message = Some (PyStr s) ->
                message = PyDict hello_message)) /\
  fst (query_endpoint str_of rejecting_client (u "rag-agent") [user_turn] 1000)
  = inl (Exception (u "Failed to query endpoint " ++ u "rag-agent" ++
                    u " with custom format: " ++ u "agent format rejected")).
Proof.
  split.
  - destruct (proj2 (fallback_cascade str_of chat_only_client (u "rag-agent")
                       [user_turn] 1000)
                (Failure (u "400: unknown field input")) eq_refl)
      as [Hreq [Hchoices _]].
    split; [exact Hreq|].
    apply (Hchoices choices_reply [(u "message", PyDict hello_message)] []
             hello_message); try reflexivity.
    intros parts Hparts. vm_compute in Hparts. discriminate.
  - destruct (proj2 (fallback_cascade str_of rejecting_client (u "rag-agent")
                       [user_turn] 1000)
                (Failure (u "agent format rejected")) eq_refl)
      as [_ [_ [Hboth _]]].
    apply (Hboth (Failure (u "chat format rejected"))). reflexivity.
Defined.

(** ** The streaming executor *)











(** ** The chunk content extractor *)

Lemma join_text_parts_spec (parts : list pyval) (s : pystr) :
  join_text_parts parts = Ok s -> s = spec_text_parts parts.
Proof.
  revert s; induction parts as [|part rest IH]; intros s; simpl.
  - now intros [= <-].
  - destruct part as [| | | | | |p|]; simpl; try discriminate.
    destruct (lookup (u "type") p) as [ty|]; simpl.
    + destruct (eq_str ty (u "text")) eqn:Hty.
      * destruct (lookup (u "text") p) as [t|]; simpl.
        -- destruct (join_text_parts rest) as [tl|]; simpl; [|discriminate].
           destruct t; try discriminate.
           intros [= <-]. now rewrite (IH tl eq_refl).
        -- destruct (join_text_parts rest) as [tl|]; simpl; [|discriminate].
           intros [= <-]. now rewrite (IH tl eq_refl).
      * destruct (lookup (u "text") p) as [[| | | |t| | |]|]; simpl; apply IH.
    + destruct (lookup (u "text") p) as [[| | | |t| | |]|]; simpl; apply IH.
Qed.

Lemma format_choices_spec (d : list (pystr * pyval)) (r : option pyval) :
  format_choices (PyDict d) = Ok r -> r = spec_shape_choices d.
Proof.
  unfold format_choices, spec_shape_choices. cbn [py_in bind getitem].
  unfold has_key.
  destruct (lookup (u "choices") d) as [choices|]; cbn [bind];
    [|now intros [= <-]].
  destruct choices as [| | | |s|l| |]; cbn [getitem_first bind]; try discriminate.
  - destruct s; discriminate.
  - destruct l as [|first l]; cbn [bind]; [discriminate|].
    destruct first as [| | | | | |f|]; cbn [py_get bind]; try discriminate.
    destruct (lookup (u "delta") f) as [delta|]; cbn [bind].
    + destruct delta as [| | | |s|ps|dl|]; cbn [py_in bind]; try discriminate.
      * destruct (str_contains CONTENT s); cbn [getitem bind];
          [discriminate | now intros [= <-]].
      * destruct (existsb (fun x => eq_str x CONTENT) ps); cbn [getitem bind];
          [discriminate | now intros [= <-]].
      * unfold has_key, getitem. destruct (lookup CONTENT dl); cbn [bind];
          now intros [= <-].
    + cbn [py_in bind has_key lookup]. now intros [= <-].
Qed.

Lemma format_content_spec (d : list (pystr * pyval)) (r : option pyval) :
  format_content (PyDict d) = Ok r -> r = spec_shape_content d.
Proof.
  unfold format_content, spec_shape_content. cbn [py_in bind getitem].
  unfold has_key.
  destruct (lookup CONTENT d) as [content|]; cbn [bind]; [|now intros [= <-]].
  destruct content as [| | | |s|parts| |]; try (now intros [= <-]).
  destruct (join_text_parts parts) as [s|] eqn:Hj; cbn [bind]; [|discriminate].
  intros [= <-]. now rewrite (join_text_parts_spec parts s Hj).
Qed.

Lemma format_text_spec (d : list (pystr * pyval)) (r : option pyval) :
  format_text (PyDict d) = Ok r -> r = spec_shape_text d.
Proof.
  unfold format_text, spec_shape_text. cbn [py_in bind getitem].
  unfold has_key.
  destruct (lookup (u "text") d); cbn [bind]; now intros [= <-].
Qed.

Lemma format_output_spec (d : list (pystr * pyval)) (r : option pyval) :
  format_output (PyDict d) = Ok r -> r = spec_shape_output d.
Proof.
  unfold format_output, spec_shape_output. cbn [py_in bind getitem].
  unfold has_key.
  destruct (lookup (u "output") d) as [output|]; cbn [bind]; [|now intros [= <-]].
  destruct output as [| | | |s| |o|]; try (now intros [= <-]).
  destruct (lookup (u "text") o); [now intros [= <-]|].
  destruct (lookup CONTENT o); now intros [= <-].
Qed.

Lemma format_delta_spec (d : list (pystr * pyval)) (r : option pyval) :
  format_delta (PyDict d) = Ok r -> r = spec_shape_delta d.
Proof.
  unfold format_delta, spec_shape_delta. cbn [py_in bind getitem].
  unfold has_key.
  destruct (lookup (u "delta") d) as [delta|]; cbn [bind]; [|now intros [= <-]].
  destruct delta as [| | | |s| |dl|]; try (now intros [= <-]).
  destruct (lookup CONTENT dl); now intros [= <-].
Qed.

(** On a chunk that is not a dict a format either raises or falls through. *)
Lemma format_on_other (k : pystr) (chunk : pyval)
  (body : pyval -> result (option pyval)) (r : option pyval) :
  (forall d, chunk <> PyDict d) ->
  (present <- py_in k chunk ;;
   if present then (x <- getitem chunk k ;; body x) else Ok None) = Ok r ->
  r = None.
Proof.
  intros Hd.
  destruct chunk as [| | | |s|l|d|]; cbn [py_in bind]; try discriminate.
  - destruct (str_contains k s); cbn [getitem bind]; [discriminate | now intros [= <-]].
  - destruct (existsb (fun x => eq_str x k) l); cbn [getitem bind];
      [discriminate | now intros [= <-]].
  - now destruct (Hd d).
Qed.

Lemma or_next_ok (m k : result (option pyval)) (r : option pyval) :
  or_next m k = Ok r ->
  (exists v, m = Ok (Some v) /\ r = Some v) \/ (m = Ok None /\ k = Ok r).
Proof.
  destruct m as [[v|]|e]; simpl.
  - intros [= <-]. left. now exists v.
  - intros H. now right.
  - discriminate.
Qed.

Lemma extract_body_spec (chunk : pyval) (r : option pyval) :
  extract_body chunk = Ok r -> r = spec_first_matching_shape chunk.
Proof.
  unfold extract_body. intros H.
  destruct chunk as [| | | |s|l|d|];
    try (apply or_next_ok in H as [[v [H _]]|[H _]]; discriminate).
  - (* a string *)
    repeat (apply or_next_ok in H as [[v [H ->]]|[_ H]];
            [apply (format_on_other CONTENT (PyStr s)) in H
             || apply (format_on_other (u "choices") (PyStr s)) in H
             || apply (format_on_other (u "text") (PyStr s)) in H
             || apply (format_on_other (u "output") (PyStr s)) in H;
             discriminate|]).
    now apply (format_on_other (u "delta") (PyStr s)) in H.
  - (* a list *)
    repeat (apply or_next_ok in H as [[v [H ->]]|[_ H]];
            [apply (format_on_other CONTENT (PyList l)) in H
             || apply (format_on_other (u "choices") (PyList l)) in H
             || apply (format_on_other (u "text") (PyList l)) in H
             || apply (format_on_other (u "output") (PyList l)) in H;
             discriminate|]).
    now apply (format_on_other (u "delta") (PyList l)) in H.
  - (* a dict *)
    cbn [spec_first_matching_shape].
    apply or_next_ok in H as [[v [H ->]]|[H1 H]].
    { apply format_choices_spec in H. now rewrite <- H. }
    apply format_choices_spec in H1. rewrite <- H1. cbn [or_else].
    apply or_next_ok in H as [[v [H ->]]|[H2 H]].
    { apply format_content_spec in H. now rewrite <- H. }
    apply format_content_spec in H2. rewrite <- H2. cbn [or_else].
    apply or_next_ok in H as [[v [H ->]]|[H3 H]].
    { apply format_text_spec in H. now rewrite <- H. }
    apply format_text_spec in H3. rewrite <- H3. cbn [or_else].
    apply or_next_ok in H as [[v [H ->]]|[H4 H]].
    { apply format_output_spec in H. now rewrite <- H. }
    apply format_output_spec in H4. rewrite <- H4. cbn [or_else].
    now apply format_delta_spec in H.
Qed.

(** C8, as stated, fails: a fragment with an empty 'choices' list and a
    top-level 'content' has the second shape, yet the extractor returns
    [None], because reading the first choice raises. *)
Lemma extractor_stops_at_empty_choices :
  spec_first_matching_shape empty_choices_fragment = Some (PyStr (u "hi")) /\
  extract_content_from_stream empty_choices_fragment
  = (PyNone, [Logged WARNING (CouldNotExtract IndexError)]).
Proof. split; vm_compute; reflexivity. Qed.

(** C8 (amended): when reading the fragment does not raise, the extractor
    returns the text of the first of the five shapes, in their priority
    order, that the fragment has, and [None] when it has none; when reading
    it raises, the extractor logs a warning and returns [None] without
    trying the shapes that follow; it returns [None] for every fragment in
    which no shape matches. *)
Theorem extractor_follows_priority_unless_raising :
  forall chunk : pyval,
    (forall r, extract_body chunk = Ok r ->
       extract_content_from_stream chunk
       = (or_none (spec_first_matching_shape chunk), [])) /\
    (forall e, extract_body chunk = Raise e ->
       extract_content_from_stream chunk
       = (PyNone, [Logged WARNING (CouldNotExtract e)])) /\
    (spec_first_matching_shape chunk = None ->
       fst (extract_content_from_stream chunk) = PyNone).
Proof.
  intros chunk. unfold extract_content_from_stream.
  destruct (extract_body chunk) as [r|e] eqn:Hb.
  - apply extract_body_spec in Hb. subst r.
    split; [|split].
    + intros r [= <-]. now destruct (spec_first_matching_shape chunk).
    + discriminate.
    + now intros ->.
  - split; [|split].
    + discriminate.
    + now intros e' [= <-].
    + reflexivity.
Qed.

Lemma extractor_follows_priority_unless_raising_witness :
  extract_content_from_stream
    (PyDict [(CONTENT, PyStr (u "hi")); (u "text", PyStr (u "other"))])
  = (PyStr (u "hi"), []) /\
  extract_content_from_stream empty_choices_fragment
  = (PyNone, [Logged WARNING (CouldNotExtract IndexError)]).
Proof.
  split.
  - apply (proj1 (extractor_follows_priority_unless_raising
                    (PyDict [(CONTENT, PyStr (u "hi")); (u "text", PyStr (u "other"))]))
             (Some (PyStr (u "hi")))).
    reflexivity.
  - apply (proj1 (proj2 (extractor_follows_priority_unless_raising
                           empty_choices_fragment))).
    reflexivity.
Defined.

(** * Further properties *)

(** ** The parser: envelopes and hand-offs *)

Lemma parse_rag_response_of_body (py : interpreter) (response : pyval) :
  parse_rag_response py response =
  match parse_rag_body py response with
  | Return v => v
  | _ => None
  end.
Proof.
  unfold parse_rag_response. now destruct (parse_rag_body py response).
Qed.

Lemma unwrap_raw_id (v : pyval) : raw_wrapped v = false -> unwrap_raw v = v.
Proof.
  destruct v as [| | | | | |d|]; try reflexivity.
  unfold raw_wrapped, has_key, RAW_RESPONSE, unwrap_raw.
  now destruct (lookup (u "raw_response") d).
Qed.

Lemma parse_rag_body_unwrap (py : interpreter) (d : list (pystr * pyval)) (r : pyval) :
  lookup RAW_RESPONSE d = Some r -> raw_wrapped r = false ->
  parse_rag_body py (PyDict d) = parse_rag_body py r.
Proof.
  intros Hd Hr. unfold parse_rag_body.
  rewrite (unwrap_raw_id r Hr).
  unfold unwrap_raw at 1. unfold RAW_RESPONSE in Hd. now rewrite Hd.
Qed.

(** X1: an envelope with a 'raw_response' field is parsed as the value of
    that field, whatever else the envelope holds, provided that value is
    not an envelope again (only one level is unwrapped). *)
Theorem parse_unwraps_raw_response :
  forall py : interpreter,
  forall (d : list (pystr * pyval)) (r : pyval),
    lookup RAW_RESPONSE d = Some r ->
    raw_wrapped r = false ->
    parse_rag_response py (PyDict d) = parse_rag_response py r.
Proof.
  intros py d r Hd Hr.
  now rewrite !parse_rag_response_of_body, (parse_rag_body_unwrap py d r Hd Hr).
Qed.

Lemma parse_unwraps_raw_response_witness :
  parse_rag_response default_interpreter
    (PyDict [(ROLE, ASSISTANT); (CONTENT, PyStr (u "flattened"));
             (RAW_RESPONSE, PyDict [(QU, PyStr (u "x")); (RESULTS, PyList [])])])
  = parse_rag_response default_interpreter
      (PyDict [(QU, PyStr (u "x")); (RESULTS, PyList [])]).
Proof.
  apply (parse_unwraps_raw_response default_interpreter); reflexivity.
Defined.

(** X2: the message that [query_endpoint] builds from an agent-format
    reply is parsed exactly as the raw reply is: the flattened 'content'
    plays no part (the reply not being an envelope itself). *)
Theorem agent_message_parses_as_raw_reply :
  forall (py : interpreter) (py_str : pyval -> pystr)
         (predict : pystr -> pyval -> attempt pyval)
         (endpoint_name : pystr) (messages : list pyval) (max_tokens : Z)
         (res : pyval),
    predict endpoint_name (agent_inputs messages max_tokens) = Success res ->
    raw_wrapped res = false ->
    exists message,
      fst (query_endpoint py_str predict endpoint_name messages max_tokens)
      = inr message /\
      parse_rag_response py message = parse_rag_response py res.
Proof.
  intros py py_str predict endpoint_name messages max_tokens res H Hres.
  destruct (from_agent_reply_message py_str res) as [content Hc].
  exists (PyDict [(ROLE, ASSISTANT); (CONTENT, PyStr content); (RAW_RESPONSE, res)]).
  split.
  - unfold query_endpoint. rewrite H.
    destruct (from_agent_reply py_str res) as [message evs].
    simpl in Hc |- *. now rewrite Hc.
  - rewrite !parse_rag_response_of_body.
    now rewrite (parse_rag_body_unwrap py
                   [(ROLE, ASSISTANT); (CONTENT, PyStr content); (RAW_RESPONSE, res)]
                   res eq_refl Hres).
Qed.

Lemma agent_message_parses_as_raw_reply_witness :
  exists message,
    fst (query_endpoint str_of agent_client (u "rag-agent") [user_turn] 1000)
    = inr message /\
    parse_rag_response default_interpreter message
    = parse_rag_response default_interpreter
        (PyDict [(u "output", PyStr (u "Hello"))]).
Proof.
  apply (agent_message_parses_as_raw_reply default_interpreter str_of agent_client
           (u "rag-agent") [user_turn] 1000%Z);
    reflexivity.
Defined.

(** X3: a string on which [json.loads] raises gives [None], whether the
    string is not JSON or a limit of the interpreter is reached; a string
    that decodes to a value other than a string is parsed as that value,
    provided the value is not an envelope with a 'raw_response' field; and
    a string that decodes to a string, a document encoded twice, gives
    [None]: it is decoded only once. *)
Theorem parse_decodes_string_once :
  forall (py : interpreter) (s : pystr),
    (json_loads py s = JSONDecodeError -> parse_rag_response py (PyStr s) = None) /\
    (forall e, json_loads py s = Raising e ->
               parse_rag_response py (PyStr s) = None) /\
    (forall v, json_loads py s = Decoded v -> raw_wrapped v = false ->
               (forall s', v <> PyStr s') ->
               parse_rag_response py (PyStr s) = parse_rag_response py v) /\
    (forall s', json_loads py s = Decoded (PyStr s') ->
                parse_rag_response py (PyStr s) = None).
Proof.
  intros py s. split; [|split; [|split]].
  - intros H. unfold parse_rag_response, parse_rag_body.
    cbn [unwrap_raw decode_string]. now rewrite H.
  - intros e H. unfold parse_rag_response, parse_rag_body.
    cbn [unwrap_raw decode_string]. now rewrite H.
  - intros v Hj Hw Hs.
    rewrite !parse_rag_response_of_body. unfold parse_rag_body.
    rewrite (unwrap_raw_id v Hw).
    cbn [unwrap_raw decode_string]. rewrite Hj. cbn [and_then].
    destruct v; try reflexivity. now destruct (Hs s0).
  - intros s' Hj. unfold parse_rag_response, parse_rag_body.
    cbn [unwrap_raw decode_string]. rewrite Hj. reflexivity.
Qed.

Lemma parse_decodes_string_once_witness :
  parse_rag_response default_interpreter (PyStr (u "not json")) = None /\
  parse_rag_response default_interpreter (PyStr (repeat (ch "1") 4301)) = None /\
  parse_rag_response default_interpreter
    (PyStr (jq "{'query_understanding':'x','results':[]}"))
  = parse_rag_response default_interpreter
      (PyDict [(QU, PyStr (u "x")); (RESULTS, PyList [])]) /\
  parse_rag_response default_interpreter (PyStr (jq "'{}'")) = None.
Proof.
  split; [|split; [|split]].
  - apply (proj1 (parse_decodes_string_once default_interpreter (u "not json"))).
    reflexivity.
  - apply (proj1 (proj2 (parse_decodes_string_once default_interpreter
                           (repeat (ch "1") 4301))) ValueError).
    vm_compute. reflexivity.
  - apply (proj1 (proj2 (proj2 (parse_decodes_string_once default_interpreter
                           (jq "{'query_understanding':'x','results':[]}"))))).
    + vm_compute. reflexivity.
    + reflexivity.
    + discriminate.
  - apply (proj2 (proj2 (proj2 (parse_decodes_string_once default_interpreter
                                  (jq "'{}'")))) (u "{}")).
    vm_compute. reflexivity.
Defined.

(** X4: a mapping that is not the result itself and has a list under
    'output' is parsed as that list; failing a list under 'output', a
    list under 'content' is parsed in its place. *)
Theorem parse_hands_list_field_over :
  forall py : interpreter,
  forall (d : list (pystr * pyval)) (l : list pyval),
    has_key RAW_RESPONSE d = false ->
    has_key QU d && has_key RESULTS d = false ->
    (lookup (u "output") d = Some (PyList l) ->
     parse_rag_response py (PyDict d) = parse_rag_response py (PyList l)) /\
    (lookup (u "output") d = None -> lookup CONTENT d = Some (PyList l) ->
     parse_rag_response py (PyDict d) = parse_rag_response py (PyList l)).
Proof.
  intros py d l Hraw Hboth.
  assert (Hu : unwrap_raw (PyDict d) = PyDict d) by now apply unwrap_raw_id.
  split.
  - intros Ho. rewrite !parse_rag_response_of_body. unfold parse_rag_body.
    rewrite Hu. cbn [unwrap_raw decode_string and_then mapping_branch].
    now rewrite Hboth, Ho.
  - intros Ho Hc. rewrite !parse_rag_response_of_body. unfold parse_rag_body.
    rewrite Hu. cbn [unwrap_raw decode_string and_then mapping_branch].
    rewrite Hboth, Ho. cbn [probe_keys]. fold CONTENT. now rewrite Hc.
Qed.

Lemma parse_hands_list_field_over_witness :
  parse_rag_response default_interpreter
    (PyDict [(u "id", PyStr (u "resp_1"));
             (u "output", PyList [assistant_message (PyList [text_block fenced_document])])])
  = parse_rag_response default_interpreter
      (PyList [assistant_message (PyList [text_block fenced_document])]).
Proof.
  apply (proj1 (parse_hands_list_field_over default_interpreter
                  [(u "id", PyStr (u "resp_1"));
                   (u "output",
                    PyList [assistant_message (PyList [text_block fenced_document])])]
                  [assistant_message (PyList [text_block fenced_document])]
                  eq_refl eq_refl)).
  reflexivity.
Defined.

(** ** The parser: the scan of the list *)

Lemma parse_list_result (py : interpreter) (items : list pyval) :
  parse_rag_response py (PyList items) =
  match scan_items py (rev items) with
  | Return v => v
  | _ => None
  end.
Proof.
  unfold parse_rag_response. rewrite parse_list.
  destruct (scan_items py (rev items)) as [v| |e]; try reflexivity.
  cbn [and_then report_failure].
  destruct (serializable (PyList items)); reflexivity.
Qed.

Lemma scan_item_other (py : interpreter) (item : pyval) :
  is_assistant_item item = false -> scan_item py item = Next tt.
Proof.
  destruct item as [| | | | | |d|]; try reflexivity.
  unfold is_assistant_item, scan_item. now intros ->.
Qed.

Lemma scan_items_filter (py : interpreter) (items : list pyval) :
  scan_items py (filter is_assistant_item items) = scan_items py items.
Proof.
  induction items as [|item rest IH]; [reflexivity|].
  cbn [filter scan_items].
  destruct (is_assistant_item item) eqn:Ha.
  - cbn [scan_items]. now rewrite IH.
  - rewrite (scan_item_other py item Ha). cbn [and_then]. exact IH.
Qed.

Lemma filter_rev_commute (f : pyval -> bool) (l : list pyval) :
  filter f (rev l) = rev (filter f l).
Proof.
  induction l as [|x l IH]; [reflexivity|].
  cbn [rev filter]. rewrite filter_app, IH. cbn [filter].
  destruct (f x); cbn [rev]; [reflexivity | now rewrite app_nil_r].
Qed.

(** X5: in a list, only the mappings tagged as assistant messages count:
    leaving all the other elements out changes nothing of the result. *)
Theorem parse_ignores_other_items :
  forall (py : interpreter) (items : list pyval),
    parse_rag_response py (PyList items)
    = parse_rag_response py (PyList (filter is_assistant_item items)).
Proof.
  intros py items. rewrite !parse_list_result.
  now rewrite <- filter_rev_commute, scan_items_filter.
Qed.

Lemma scan_block_short (py : interpreter) (t : pystr) :
  length t <= 50 -> scan_block py (text_block t) = Next tt.
Proof.
  intros Hlen. destruct t as [|c t]; [reflexivity|].
  assert (Hc : candidate_text
                 [(u "type", PyStr (u "output_text")); (u "text", PyStr (c :: t))]
               = PyStr (c :: t)) by reflexivity.
  unfold scan_block, text_block. rewrite Hc. cbn [truthy py_len].
  apply Nat.leb_le in Hlen. now rewrite Nat.ltb_antisym, Hlen.
Qed.

Lemma scan_blocks_short (py : interpreter) (texts : list pystr) :
  Forall (fun t => length t <= 50) texts ->
  scan_blocks py (map text_block texts) = Next tt.
Proof.
  induction 1 as [|t texts Ht _ IH]; [reflexivity|].
  cbn [map scan_blocks]. now rewrite (scan_block_short py t Ht).
Qed.

(** X6: a closing assistant message whose texts all have at most 50
    characters does not hide what comes before it: the result is that of
    the list without it. *)
Theorem short_closing_message_is_transparent :
  forall (py : interpreter) (items : list pyval) (texts : list pystr),
    Forall (fun t => length t <= 50) texts ->
    parse_rag_response py
      (PyList (items ++ [assistant_message (PyList (map text_block texts))]))
    = parse_rag_response py (PyList items).
Proof.
  intros py items texts H. rewrite !parse_list_result, rev_app_distr.
  cbn [rev app scan_items].
  rewrite scan_item_assistant_blocks, (scan_blocks_short py texts H).
  reflexivity.
Qed.

Lemma short_closing_message_is_transparent_witness :
  parse_rag_response default_interpreter
    (PyList ([assistant_message (PyList [text_block fenced_document])] ++
             [assistant_message (PyList (map text_block [u "Done."; u "Anything else?"]))]))
  = parse_rag_response default_interpreter
      (PyList [assistant_message (PyList [text_block fenced_document])]).
Proof.
  apply (short_closing_message_is_transparent default_interpreter).
  repeat constructor; vm_compute; discriminate.
Defined.



(** A float that underflows to zero is false, as one written with zeros
    is: the candidate of the block is then its 'output_text'. *)
Lemma underflowing_text_is_false :
  truthy (PyFloat (u "1e-999")) = false /\
  truthy (PyFloat (u "0.0")) = false /\
  truthy (PyFloat (u "5e-324")) = true /\
  candidate_text [(u "text", PyFloat (u "1e-999"));
                  (u "output_text", PyStr fenced_document)]
  = PyStr fenced_document.
Proof. repeat split; vm_compute; reflexivity. Qed.

(** ** The parser: what a result can be *)

Lemma consumes_weaken (k : pystr -> option pystr) (Q Q' : pystr -> Prop) :
  (forall p, Q p -> Q' p) -> consumes k Q -> consumes k Q'.
Proof.
  intros HQ Hk s rest H. destruct (Hk s rest H) as [p [Hs Hp]].
  exists p. auto.
Qed.

Lemma lit_consumes (l : pystr) (k : pystr -> option pystr) (Q : pystr -> Prop) :
  consumes k Q ->
  consumes (re_match (Lit l) k) (fun p => exists q, p = l ++ q /\ Q q).
Proof.
  intros Hk s rest. cbn [re_match].
  destruct (strip_prefix l s) as [t|] eqn:E; [|discriminate].
  apply strip_prefix_split in E. intros H.
  destruct (Hk t rest H) as [q [Ht Hq]].
  exists (l ++ q). split; [|now exists q].
  now rewrite <- app_assoc, <- Ht.
Qed.

Lemma lazy_star_consumes (cls : N -> bool) (k : pystr -> option pystr)
  (Q : pystr -> Prop) :
  consumes k Q ->
  consumes (lazy_star cls k) (fun p => exists a q, p = a ++ q /\ Q q).
Proof.
  intros Hk s. induction s as [|c t IH]; intros rest; simpl.
  - destruct (k []) eqn:E; [|discriminate].
    intros [= <-]. destruct (Hk _ _ E) as [q [Hs Hq]].
    exists q. split; [exact Hs|]. now exists [], q.
  - destruct (k (c :: t)) eqn:E.
    + intros [= <-]. destruct (Hk _ _ E) as [q [Hs Hq]].
      exists q. split; [exact Hs|]. now exists [], q.
    + destruct (cls c); [|discriminate].
      intros H. destruct (IH rest H) as [p [Hs [a [q [Hp Hq]]]]].
      exists (c :: p). split; [now rewrite Hs|].
      exists (c :: a), q. now rewrite Hp.
Qed.

Lemma greedy_star_consumes (cls : N -> bool) (k : pystr -> option pystr) :
  consumes k (fun _ => True) -> consumes (greedy_star cls k) (fun _ => True).
Proof.
  intros Hk s. induction s as [|c t IH]; intros rest; simpl.
  - apply Hk.
  - destruct (cls c); [|apply Hk].
    destruct (greedy_star cls k t) as [r|]; [|apply Hk].
    intros [= <-]. destruct (IH r eq_refl) as [p [Hs _]].
    exists (c :: p). now rewrite Hs.
Qed.

Lemma re_match_consumes (r : regex) :
  forall k, consumes k (fun _ => True) -> consumes (re_match r k) (fun _ => True).
Proof.
  induction r as [l|cls|cls|r1 IH1| |r1 IH1 r2 IH2]; intros k Hk.
  - apply (consumes_weaken _ (fun p => exists q, p = l ++ q /\ True));
      [trivial | now apply lit_consumes].
  - apply (consumes_weaken _ (fun p => exists a q, p = a ++ q /\ True));
      [trivial | now apply lazy_star_consumes].
  - now apply greedy_star_consumes.
  - intros s rest. cbn [re_match].
    destruct (re_match r1 k s) as [t|] eqn:E.
    + intros [= <-]. now apply (IH1 k Hk) in E.
    + apply Hk.
  - intros s rest. cbn [re_match]. destruct (at_end s); [apply Hk | discriminate].
  - intros s rest. cbn [re_match]. apply IH1. now apply IH2.
Qed.

Lemma firstn_consumed (p rest : pystr) :
  firstn (length (p ++ rest) - length rest) (p ++ rest) = p.
Proof.
  rewrite length_app, Nat.add_sub.
  induction p as [|c p IH]; [now destruct rest|].
  cbn [length app firstn]. now rewrite IH.
Qed.

(** What the pattern matches holds a quotation mark. *)
Lemma json_object_pattern_quote (s json_match : pystr) :
  re_search json_object_pattern s = Some json_match -> In c_quote json_match.
Proof.
  assert (Hm : consumes (re_match json_object_pattern Some) (In c_quote)).
  { unfold json_object_pattern. cbn [re_match].
    eapply consumes_weaken;
      [| apply lit_consumes, lazy_star_consumes, lit_consumes,
         (re_match_consumes
            (Seq (LazyStar any_char)
              (Seq (Lit (c_quote :: RESULTS ++ [c_quote]))
                (Seq (LazyStar any_char)
                  (Seq (Lit (u "}"))
                    (Seq (Opt (Seq (GreedyStar py_isspace) (Lit (u "}"))))
                         EndAnchor))))) Some)].
    - intros p [q [-> [a [q' [-> [q'' [-> _]]]]]]].
      apply in_or_app. right. apply in_or_app. right. now left.
    - intros s' rest' [= <-]. now exists []. }
  revert json_match. induction s as [|c s IH]; intros json_match;
    rewrite re_search_unfold;
    (destruct (re_match json_object_pattern Some _) as [rest|] eqn:E;
     [|solve [discriminate | apply IH]]);
    destruct (Hm _ _ E) as [p [Hs Hp]]; intros Heq;
    rewrite Hs, firstn_consumed in Heq; injection Heq as <-; exact Hp.
Qed.

Lemma skip_ws_keeps_quote (s : pystr) : In c_quote s -> In c_quote (skip_ws s).
Proof.
  induction s as [|c s IH]; [trivial|].
  cbn [skip_ws]. destruct (is_json_ws c) eqn:Hw; [|trivial].
  intros [->|H]; [vm_compute in Hw; discriminate | auto].
Qed.

Lemma dict_set_nonempty (k : pystr) (v : pyval) (d : list (pystr * pyval)) :
  dict_set k v d <> [].
Proof.
  destruct d as [|[k' v'] d]; simpl; [discriminate|].
  destruct (str_eqb k' k); discriminate.
Qed.

Lemma parse_members_nonempty (value : pystr -> decoding (pyval * pystr))
  (n : nat) :
  forall s acc r, parse_members value n s acc <> Decoded (PyDict [], r).
Proof.
  induction n as [|n IH]; intros s acc r; cbn [parse_members]; [discriminate|].
  destruct s as [|q t]; [discriminate|].
  destruct (N.eqb q c_quote); [|discriminate].
  destruct (scan_string t []) as [[key r0]|]; [|discriminate].
  destruct (skip_ws r0) as [|c r1]; [discriminate|].
  destruct (N.eqb c (ch ":")); [|discriminate].
  destruct (value (skip_ws r1)) as [[x r2]| |e]; try discriminate.
  destruct (skip_ws r2) as [|c2 r3]; [discriminate|].
  destruct (N.eqb c2 (ch "}")).
  - intros [= H _]. now apply dict_set_nonempty in H.
  - destruct (N.eqb c2 (ch ",")); [apply IH | discriminate].
Qed.

(** A text with a quotation mark after its opening brace does not decode
    to the empty dict. *)
Lemma json_loads_brace_nonempty (py : interpreter) (t : pystr) :
  In c_quote t -> json_loads py (ch "{" :: t) <> Decoded (PyDict []).
Proof.
  intros Hq. unfold json_loads.
  change (skip_ws (ch "{" :: t)) with (ch "{" :: t).
  destruct (scan_once py (S (length (ch "{" :: t))) (nesting_room py)
                      (ch "{" :: t)) as [[x r]| |e] eqn:E;
    try discriminate.
  destruct (skip_ws r) eqn:Hr; [|discriminate].
  intros [= ->].
  cbn [scan_once] in E.
  change (N.eqb (ch "{") c_quote) with false in E.
  change (N.eqb (ch "{") (ch "{")) with true in E.
  cbv iota in E.
  destruct (nesting_room py) as [|room']; [discriminate|].
  apply skip_ws_keeps_quote in Hq.
  destruct (skip_ws t) as [|c' r'] eqn:Et; [discriminate|].
  destruct (N.eqb c' (ch "}")) eqn:Ec.
  - injection E as <-. apply N.eqb_eq in Ec. subst c'.
    destruct Hq as [Hq|Hq]; [vm_compute in Hq; discriminate|].
    apply skip_ws_keeps_quote in Hq. rewrite Hr in Hq. destruct Hq.
  - now apply parse_members_nonempty in E.
Qed.

(** The places a result comes from: a mapping with 'query_understanding',
    the decoding of a string in which both names are found, or the
    decoding of what the pattern matched. *)
Lemma parse_return_sites (py : interpreter) (P : pyval -> Prop) :
  (forall d, has_key QU d = true -> P (PyDict d)) ->
  (forall s v, json_loads py s = Decoded v -> has_both v = Ok true -> P v) ->
  (forall text m v, re_search json_object_pattern text = Some m ->
                    json_loads py m = Decoded v -> P v) ->
  forall response v, parse_rag_response py response = Some v -> P v.
Proof.
  intros Hkey Hboth Hre.
  assert (Hitems : forall items v, scan_items py items = Return (Some v) -> P v).
  { assert (Hcand : forall text v, try_candidate py text = Return (Some v) -> P v).
    { intros text v. unfold try_candidate.
      destruct (json_loads py (strip_fences text)) as [[| | | | | |p|]| |e];
        try discriminate.
      - destruct (has_key QU p) eqn:Hq; [|discriminate].
        intros [= <-]. now apply Hkey.
      - destruct (re_search json_object_pattern (strip_fences text)) as [m|] eqn:Hm;
          [|discriminate].
        destruct (json_loads py m) as [parsed| |e] eqn:Hp; try discriminate.
        intros [= <-]. now apply (Hre _ _ _ Hm Hp). }
    assert (Hblock : forall blk v, scan_block py blk = Return (Some v) -> P v).
    { intros [| | | | | |b|] v; simpl; try discriminate.
      destruct (truthy (candidate_text b)); [|discriminate].
      destruct (candidate_text b) as [| | | |s|l|c|]; simpl; try discriminate.
      - destruct (50 <? length s); [apply Hcand | discriminate].
      - destruct (50 <? length l); discriminate.
      - destruct (50 <? length c); discriminate. }
    assert (Hblocks : forall content v, scan_blocks py content = Return (Some v) -> P v).
    { induction content as [|blk rest IH]; intros v; simpl; [discriminate|].
      destruct (scan_block py blk) as [r| |e] eqn:Hb; simpl; try discriminate;
        [|apply IH].
      intros [= ->]. now apply Hblock in Hb. }
    assert (Hitem : forall item v, scan_item py item = Return (Some v) -> P v).
    { intros [| | | | | |i|] v; simpl; try discriminate.
      destruct (is_assistant_message i); [|discriminate].
      destruct (lookup (u "content") i) as [[| | | |s|l| |]|]; try discriminate.
      - destruct (json_loads py s) as [[| | | | | |p|]| |e]; try discriminate.
        destruct (has_key QU p) eqn:Hq; [|discriminate].
        intros [= <-]. now apply Hkey.
      - apply Hblocks. }
    induction items as [|i rest IH]; intros v; simpl; [discriminate|].
    destruct (scan_item py i) as [r| |e] eqn:Hi; simpl; try discriminate; [|apply IH].
    intros [= ->]. now apply Hitem in Hi. }
  assert (Hkeys : forall keys d v, probe_keys py keys d = Return (Some v) -> P v).
  { induction keys as [|key rest IH]; intros d v; simpl; [discriminate|].
    destruct (lookup key d) as [content|]; [|apply IH].
    destruct content as [| | | |s|l|c|]; try apply IH.
    - destruct (json_loads py s) as [parsed| |e] eqn:Hj; [|apply IH|discriminate].
      destruct (has_both parsed) as [[|]|e] eqn:Hb; try apply IH; [|discriminate].
      intros [= <-]. now apply (Hboth s).
    - discriminate.
    - destruct (has_key QU c) eqn:Hq; [|apply IH].
      intros [= <-]. now apply Hkey. }
  intros response v H. apply parse_rag_response_body in H. revert H.
  unfold parse_rag_body.
  destruct (decode_string py (unwrap_raw response)) as [r|w|e] eqn:Hd; simpl;
    try discriminate.
  - unfold decode_string in Hd.
    destruct (unwrap_raw response); try discriminate.
    destruct (json_loads py s); try discriminate.
    injection Hd as <-. discriminate.
  - destruct (mapping_branch py w) as [r|w'|e] eqn:Hm; simpl; try discriminate.
    + intros [= ->]. unfold mapping_branch in Hm.
      destruct w as [| | | | | |d|]; try discriminate.
      destruct (has_key QU d && has_key RESULTS d) eqn:Hq.
      * injection Hm as <-. apply andb_true_iff in Hq as [Hq _]. now apply Hkey.
      * destruct (lookup (u "output") d) as [[| | | | | | |]|];
          solve [now apply Hkeys in Hm | discriminate].
    + destruct (list_branch py w') as [r| |e] eqn:Hl; simpl; try discriminate.
      * intros [= ->]. destruct w'; simpl in Hl; try discriminate.
        now apply Hitems in Hl.
      * intros H. now apply report_failure_none in H.
Qed.

Lemma parsed_value_is_true (py : interpreter) (response v : pyval) :
  parse_rag_response py response = Some v -> truthy v = true.
Proof.
  revert response v. apply (parse_return_sites py).
  - intros [|kv d] H; [discriminate | reflexivity].
  - intros s v _. unfold has_both.
    destruct v as [| | | |t|l|d|]; cbn [py_in bind]; try discriminate.
    + destruct t; [discriminate | reflexivity].
    + destruct l; [discriminate | reflexivity].
    + destruct d; [discriminate | reflexivity].
  - intros text m v Hm Hj.
    pose proof (json_object_pattern_quote _ _ Hm) as Hq.
    apply json_object_pattern_brace in Hm as [t ->].
    destruct Hq as [Hq|Hq]; [vm_compute in Hq; discriminate|].
    destruct (json_loads_brace _ _ _ Hj) as [d ->].
    destruct d; [|reflexivity].
    now apply json_loads_brace_nonempty in Hj.
Qed.

(** X8: whatever the parser returns is true in the sense of [bool]: never
    an empty mapping, list or string, and never [None], [False] or zero.
    The test [if parsed_data:] of the caller therefore discards no
    result. *)
Theorem parse_result_is_never_empty :
  forall (py : interpreter) (response v : pyval),
    parse_rag_response py response = Some v ->
    truthy v = true /\
    v <> PyDict [] /\ v <> PyList [] /\ v <> PyStr [] /\ v <> PyNone.
Proof.
  intros py response v H. apply parsed_value_is_true in H.
  split; [exact H|]. repeat split; intros ->; discriminate.
Qed.

Lemma parse_result_is_never_empty_witness :
  truthy (PyDict [(QU, PyStr (u "x")); (RESULTS, PyList [])]) = true.
Proof.
  apply (parse_result_is_never_empty default_interpreter
           (PyDict [(QU, PyStr (u "x")); (RESULTS, PyList [])])).
  reflexivity.
Defined.

(** X9: from a list, the form of the agent replies, the parser returns
    nothing but mappings. *)
Theorem list_reply_returns_a_mapping :
  forall (py : interpreter) (items : list pyval) (v : pyval),
    parse_rag_response py (PyList items) = Some v -> exists d, v = PyDict d.
Proof.
  intros py items v. rewrite parse_list_result.
  destruct (scan_items py (rev items)) as [r| |e] eqn:Hs; try discriminate.
  intros ->. now apply scan_items_shape in Hs.
Qed.

Lemma list_reply_returns_a_mapping_witness :
  exists d,
    PyDict [(u "a", PyList [PyStr QU; PyStr RESULTS]);
            (u "pad", PyStr (u "..............."))] = PyDict d.
Proof.
  apply (list_reply_returns_a_mapping default_interpreter
           [assistant_message (PyList [text_block prose_then_untagged_object])]).
  vm_compute. reflexivity.
Defined.

(** ** The message encoder *)

(** X10: the input of an agent request is never empty: an empty
    conversation is replaced by one user turn, a conversation with turns
    is passed as it is, and encoding twice is encoding once. *)
Theorem converted_input_is_never_empty :
  forall messages : list pyval,
    _convert_messages_to_input messages <> [] /\
    (messages <> [] -> _convert_messages_to_input messages = messages) /\
    _convert_messages_to_input (_convert_messages_to_input messages)
    = _convert_messages_to_input messages /\
    (forall max_tokens,
        exists turn turns,
          lookup (u "input") (match agent_inputs messages max_tokens with
                              | PyDict d => d
                              | _ => []
                              end)
          = Some (PyList (turn :: turns))).
Proof.
  intros messages. split; [|split; [|split]].
  - destruct messages; discriminate.
  - destruct messages; [intros H; now destruct H | reflexivity].
  - destruct messages; reflexivity.
  - intros max_tokens. destruct messages; now eexists _, _.
Qed.

Lemma converted_input_is_never_empty_witness :
  _convert_messages_to_input [user_turn] = [user_turn].
Proof.
  apply (proj1 (proj2 (converted_input_is_never_empty [user_turn]))).
  discriminate.
Defined.

(** ** The endpoint probe: the classification *)

Lemma startswith_iff (s p : pystr) :
  startswith s p = true <-> exists t, s = p ++ t.
Proof.
  unfold startswith. split.
  - destruct (strip_prefix p s) as [t|] eqn:E; [|discriminate].
    intros _. exists t. now apply strip_prefix_split.
  - intros [t ->]. now rewrite strip_prefix_app.
Qed.

(** X11: when the lookup gives a task type, the endpoint is reported
    supported exactly when the task type begins with one of the three
    prefixes, and one record is logged at level INFO. *)
Theorem probe_classifies_by_prefix :
  forall (lookup_task : pystr -> attempt pyval) (endpoint_name task_type : pystr),
    lookup_task endpoint_name = Success (PyStr task_type) ->
    (fst (is_endpoint_supported lookup_task endpoint_name) = true <->
     exists p t, In p supported_prefixes /\ task_type = p ++ t) /\
    snd (is_endpoint_supported lookup_task endpoint_name)
    = [Logged INFO (TaskTypeOf endpoint_name task_type
                      (fst (is_endpoint_supported lookup_task endpoint_name)))].
Proof.
  intros lookup_task endpoint_name task_type H.
  unfold is_endpoint_supported. rewrite H. cbn [fst snd].
  split; [|reflexivity].
  rewrite existsb_exists. split.
  - intros [p [Hin Hs]]. apply startswith_iff in Hs as [t Ht]. now exists p, t.
  - intros [p [t [Hin Ht]]]. exists p. split; [exact Hin|].
    apply startswith_iff. now exists t.
Qed.

Lemma probe_classifies_by_prefix_witness :
  fst (is_endpoint_supported agent_workspace (u "rag-agent")) = true <->
  exists p t, In p supported_prefixes /\ u "agent/v1/responses" = p ++ t.
Proof.
  apply (proj1 (probe_classifies_by_prefix agent_workspace (u "rag-agent")
                  (u "agent/v1/responses") eq_refl)).
Defined.

(** X12: an endpoint whose task is not a string (an endpoint without a
    task, for one) is reported supported, with a warning: reading the
    prefix of the task raises, and the handler fails open. *)
Theorem probe_fails_open_on_missing_task :
  forall (lookup_task : pystr -> attempt pyval) (endpoint_name : pystr)
         (task : pyval),
    lookup_task endpoint_name = Success task ->
    (forall t, task <> PyStr t) ->
    is_endpoint_supported lookup_task endpoint_name
    = (true, [Logged WARNING (TaskTypeUnknown endpoint_name (Runtime AttributeError))]).
Proof.
  intros lookup_task endpoint_name task H Hs.
  unfold is_endpoint_supported. rewrite H.
  destruct task; try reflexivity. now destruct (Hs s).
Qed.

Lemma probe_fails_open_on_missing_task_witness :
  is_endpoint_supported taskless_workspace (u "rag-agent")
  = (true, [Logged WARNING (TaskTypeUnknown (u "rag-agent") (Runtime AttributeError))]).
Proof.
  apply (probe_fails_open_on_missing_task taskless_workspace (u "rag-agent") PyNone).
  - reflexivity.
  - discriminate.
Defined.

(** ** The non-streaming executor: the shapes of the replies *)

(** X13: the content of the message built from an agent-format reply is
    the text of the value under the first of 'output', 'content', 'text'
    and 'result' that the reply has, and the text of the whole reply when
    it has none of them or is no mapping. *)
Theorem agent_reply_content_priority :
  forall (py_str : pyval -> pystr) (predict : pystr -> pyval -> attempt pyval)
         (endpoint_name : pystr) (messages : list pyval) (max_tokens : Z)
         (res : pyval),
    predict endpoint_name (agent_inputs messages max_tokens) = Success res ->
    let chosen :=
      match res with
      | PyDict d =>
          match first_present [u "output"; u "content"; u "text"; u "result"] d with
          | Some v => v
          | None => res
          end
      | _ => res
      end in
    fst (query_endpoint py_str predict endpoint_name messages max_tokens)
    = inr (PyDict [(ROLE, ASSISTANT); (CONTENT, PyStr (py_str chosen));
                   (RAW_RESPONSE, res)]).
Proof.
  intros py_str predict endpoint_name messages max_tokens res H chosen.
  subst chosen. unfold query_endpoint. rewrite H.
  unfold from_agent_reply, agent_message.
  destruct res as [| | | | | |d|]; try reflexivity.
  cbn [first_present].
  destruct (lookup (u "output") d); [reflexivity|].
  destruct (lookup (u "content") d); [reflexivity|].
  destruct (lookup (u "text") d); [reflexivity|].
  destruct (lookup (u "result") d); reflexivity.
Qed.

Lemma agent_reply_content_priority_witness :
  fst (query_endpoint str_of agent_client (u "rag-agent") [user_turn] 1000)
  = inr (PyDict [(ROLE, ASSISTANT); (CONTENT, PyStr (str_of (PyStr (u "Hello"))));
                 (RAW_RESPONSE, PyDict [(u "output", PyStr (u "Hello"))])]).
Proof.
  apply (agent_reply_content_priority str_of agent_client (u "rag-agent")
           [user_turn] 1000%Z (PyDict [(u "output", PyStr (u "Hello"))])).
  reflexivity.
Defined.

Lemma query_endpoint_fallback_result (py_str : pyval -> pystr)
  (predict : pystr -> pyval -> attempt pyval) (endpoint_name : pystr)
  (messages : list pyval) (max_tokens : Z) (custom_error : failure) (res : pyval) :
  predict endpoint_name (agent_inputs messages max_tokens) = Failed custom_error ->
  predict endpoint_name (chat_inputs messages max_tokens) = Success res ->
  fst (query_endpoint py_str predict endpoint_name messages max_tokens)
  = match from_chat_reply py_str res with
    | Ok (message, _) => inr message
    | Raise _ => inl (Exception (failure_message endpoint_name custom_error))
    end.
Proof.
  intros Ha Hc. unfold query_endpoint. rewrite Ha.
  unfold chat_fallback. rewrite Hc.
  now destruct (from_chat_reply py_str res) as [[message evs]|e].
Qed.

Lemma rev_last (A : Type) (l : list A) (x : A) : rev (l ++ [x]) = x :: rev l.
Proof. now rewrite rev_app_distr. Qed.

(** X14: after the agent format has failed, a chat-format reply with a
    list under 'messages' gives the last element of that list, whether or
    not the reply also has 'choices', and the message 'No response' when
    the list is empty. *)
Theorem chat_reply_messages_take_the_last :
  forall (py_str : pyval -> pystr) (predict : pystr -> pyval -> attempt pyval)
         (endpoint_name : pystr) (messages : list pyval) (max_tokens : Z)
         (custom_error : failure) (d : list (pystr * pyval)),
    predict endpoint_name (agent_inputs messages max_tokens) = Failed custom_error ->
    predict endpoint_name (chat_inputs messages max_tokens) = Success (PyDict d) ->
    (forall earlier last,
        lookup (u "messages") d = Some (PyList (earlier ++ [last])) ->
        fst (query_endpoint py_str predict endpoint_name messages max_tokens)
        = inr last) /\
    (lookup (u "messages") d = Some (PyList []) ->
     fst (query_endpoint py_str predict endpoint_name messages max_tokens)
     = inr (PyDict [(ROLE, ASSISTANT); (CONTENT, PyStr (u "No response"))])).
Proof.
  intros py_str predict endpoint_name messages max_tokens custom_error d Ha Hc.
  rewrite (query_endpoint_fallback_result py_str predict endpoint_name messages
             max_tokens custom_error (PyDict d) Ha Hc).
  unfold from_chat_reply. cbn [py_in bind getitem]. unfold has_key.
  split.
  - intros earlier last Hm. rewrite Hm. cbn [bind].
    assert (Ht : truthy (PyList (earlier ++ [last])) = true)
      by now destruct earlier.
    rewrite Ht. cbn [getitem_last]. now rewrite rev_last.
  - intros Hm. now rewrite Hm.
Qed.

Lemma chat_reply_messages_take_the_last_witness :
  fst (query_endpoint str_of messages_client (u "rag-agent") [user_turn] 1000)
  = inr (PyDict hello_message).
Proof.
  apply (proj1 (chat_reply_messages_take_the_last str_of messages_client
                  (u "rag-agent") [user_turn] 1000%Z
                  (Failure (u "400: unknown field input"))
                  [(u "messages", PyList [user_turn; PyDict hello_message]);
                   (u "choices", PyList [])]
                  eq_refl eq_refl)
           [user_turn] (PyDict hello_message)).
  reflexivity.
Defined.

(** X15: after the agent format has failed, a chat-format reply that
    cannot be read (no choice in 'choices', or a reply that is [None], a
    boolean or a number) makes [query_endpoint] raise, and what it
    raises reports the failure of the agent format. *)
Theorem unreadable_chat_reply_raises_agent_failure :
  forall (py_str : pyval -> pystr) (predict : pystr -> pyval -> attempt pyval)
         (endpoint_name : pystr) (messages : list pyval) (max_tokens : Z)
         (custom_error : failure) (res : pyval),
    predict endpoint_name (agent_inputs messages max_tokens) = Failed custom_error ->
    predict endpoint_name (chat_inputs messages max_tokens) = Success res ->
    (exists d, res = PyDict d /\ lookup (u "messages") d = None /\
               lookup (u "choices") d = Some (PyList [])) \/
    res = PyNone \/ (exists b, res = PyBool b) \/ (exists z, res = PyInt z) ->
    fst (query_endpoint py_str predict endpoint_name messages max_tokens)
    = inl (Exception (u "Failed to query endpoint " ++ endpoint_name ++
                      u " with custom format: " ++ detail custom_error)).
Proof.
  intros py_str predict endpoint_name messages max_tokens custom_error res Ha Hc Hres.
  rewrite (query_endpoint_fallback_result py_str predict endpoint_name messages
             max_tokens custom_error res Ha Hc).
  destruct Hres as [[d [-> [Hm Hch]]]|[->|[[b ->]|[z ->]]]]; try reflexivity.
  unfold from_chat_reply. cbn [py_in bind getitem]. unfold has_key.
  now rewrite Hm, Hch.
Qed.

Lemma unreadable_chat_reply_raises_agent_failure_witness :
  fst (query_endpoint str_of no_choice_client (u "rag-agent") [user_turn] 1000)
  = inl (Exception (u "Failed to query endpoint " ++ u "rag-agent" ++
                    u " with custom format: " ++ u "agent format rejected")).
Proof.
  apply (unreadable_chat_reply_raises_agent_failure str_of no_choice_client
           (u "rag-agent") [user_turn] 1000%Z (Failure (u "agent format rejected"))
           (PyDict [(u "choices", PyList [])])).
  - reflexivity.
  - reflexivity.
  - left. now exists [(u "choices", PyList [])].
Defined.


(** ** The streaming executor: chunks of every kind *)

Lemma fragments_app (a b : list event) : fragments (a ++ b) = fragments a ++ fragments b.
Proof. apply flat_map_app. Qed.

Lemma process_chunks_app (py : interpreter) (a b : list chunk) :
  process_chunks py (a ++ b) =
  match process_chunks py a with
  | (evs, None) => let (evs', r) := process_chunks py b in (evs ++ evs', r)
  | (evs, Some e) => (evs, Some e)
  end.
Proof.
  induction a as [|c a IH]; cbn [app process_chunks].
  - now destruct (process_chunks py b).
  - destruct (process_chunk py c) as [evs [e|]]; [reflexivity|].
    rewrite IH. destruct (process_chunks py a) as [evs1 [e|]]; [reflexivity|].
    destruct (process_chunks py b) as [evs2 r]. now rewrite app_assoc.
Qed.

Lemma process_line_passes (py : interpreter) (line : pystr) :
  line_passes py line <-> exists evs, process_line py line = Ok evs.
Proof.
  unfold line_passes, process_line.
  destruct (strip_prefix (u "data: ") line) as [json_str|].
  - destruct (str_eqb (str_strip json_str) (u "[DONE]")) eqn:Hs.
    + apply str_eqb_eq in Hs. split; [intros _; now eexists|].
      intros _ j e [= <-] Hn. contradiction.
    + assert (Hn : str_strip json_str <> u "[DONE]").
      { intros H. rewrite H, str_eqb_refl in Hs. discriminate. }
      destruct (json_loads py json_str) as [data| |e] eqn:Hj.
      * split; [intros _; now eexists|]. intros _ j e [= <-] _. congruence.
      * split; [intros _; now eexists|]. intros _ j e [= <-] _. congruence.
      * split; [|intros [evs H]; discriminate].
        intros H. exfalso. apply (H json_str e eq_refl Hn). exact Hj.
  - split; [intros _; now eexists|]. intros _ j e H. discriminate.
Qed.

Lemma process_lines_complete (py : interpreter) (lines : list pystr) :
  snd (process_lines py lines) = None <-> Forall (line_passes py) lines.
Proof.
  induction lines as [|line rest IH]; cbn [process_lines].
  - split; [constructor | reflexivity].
  - destruct (process_line py line) as [evs|e] eqn:Hl.
    + destruct (process_lines py rest) as [evs' r]. cbn [snd] in *.
      split.
      * intros H. constructor; [|now apply IH].
        apply process_line_passes. now exists evs.
      * intros H. inversion H. now apply IH.
    + split; [discriminate|].
      intros H. inversion H as [|? ? Hp _].
      apply process_line_passes in Hp as [evs Hp]. congruence.
Qed.

Lemma process_chunk_readable (py : interpreter) (c : chunk) :
  snd (process_chunk py c) = None <-> readable py c.
Proof.
  destruct c as [bs|v]; unfold readable, process_chunk.
  - destruct (utf8_decode bs) as [s|].
    + unfold process_text. rewrite process_lines_complete. split.
      * intros H. now exists s.
      * now intros [s' [[= <-] H]].
    + split; [discriminate|]. intros [s [H _]]. discriminate.
  - destruct v; try (split; [trivial | reflexivity]).
    unfold process_text. apply process_lines_complete.
Qed.

Lemma process_chunks_complete (py : interpreter) (response : list chunk) :
  snd (process_chunks py response) = None <-> Forall (readable py) response.
Proof.
  induction response as [|c rest IH]; cbn [process_chunks].
  - split; [constructor | reflexivity].
  - pose proof (process_chunk_readable py c) as Hc.
    destruct (process_chunk py c) as [evs [e|]]; cbn [snd] in Hc.
    + split; [discriminate|].
      intros H. inversion H as [|? ? Hr _]. apply Hc in Hr. discriminate.
    + destruct (process_chunks py rest) as [evs' r]. cbn [snd] in *.
      split.
      * intros H. constructor; [now apply Hc | now apply IH].
      * intros H. inversion H. now apply IH.
Qed.

Lemma process_value_chunks (py : interpreter) (values : list pyval) :
  forallb (fun v => negb (is_text v)) values = true ->
  process_chunks py (map ChunkValue values)
  = (map Yielded (filter is_mapping values), None).
Proof.
  induction values as [|v rest IH]; [reflexivity|].
  cbn [forallb]. intros Hv. apply andb_true_iff in Hv as [Hv Hrest].
  cbn [map process_chunks]. rewrite (IH Hrest).
  destruct v; try reflexivity. discriminate.
Qed.

(** X16: chunks that are already decoded values never stop the stream:
    the mappings among them are yielded as they are and in their order,
    and a value that is neither text nor a mapping is passed over. *)
Theorem decoded_chunks_are_yielded_in_order :
  forall (py : interpreter)
         (predict_stream : pystr -> pyval -> attempt (list chunk))
         (endpoint_name : pystr) (messages : list pyval) (max_tokens : Z)
         (values : list pyval),
    predict_stream endpoint_name (stream_inputs messages max_tokens)
    = Success (map ChunkValue values) ->
    forallb (fun v => negb (is_text v)) values = true ->
    fragments (fst (query_endpoint_stream predict_stream py endpoint_name
                      messages max_tokens))
    = filter is_mapping values /\
    snd (query_endpoint_stream predict_stream py endpoint_name messages max_tokens)
    = None.
Proof.
  intros py predict_stream endpoint_name messages max_tokens values H Hv.
  unfold query_endpoint_stream. rewrite H.
  rewrite (process_value_chunks py values Hv). split; [|reflexivity].
  cbn [fst fragments flat_map app].
  induction (filter is_mapping values) as [|v l IH]; [reflexivity|].
  cbn [map flat_map app]. now f_equal.
Qed.

Lemma decoded_chunks_are_yielded_in_order_witness :
  fragments (fst (query_endpoint_stream mapping_stream default_interpreter
                    (u "rag-agent") [user_turn] 1000))
  = filter is_mapping [PyDict [(u "text", PyStr (u "a"))];
                       PyDict [(u "text", PyStr (u "b"))]] /\
  snd (query_endpoint_stream mapping_stream default_interpreter (u "rag-agent")
         [user_turn] 1000) = None.
Proof.
  apply (decoded_chunks_are_yielded_in_order default_interpreter mapping_stream
           (u "rag-agent") [user_turn] 1000%Z);
    reflexivity.
Defined.

(** X17: a chunk of bytes that is not UTF-8 stops the stream: what the
    chunks before it gave, when they were read without an exception, is
    kept, the failure is logged at level ERROR and raised again, and the
    chunks after it are never looked at. *)
Theorem undecodable_bytes_stop_the_stream :
  forall (py : interpreter)
         (predict_stream : pystr -> pyval -> attempt (list chunk))
         (endpoint_name : pystr) (messages : list pyval) (max_tokens : Z)
         (before after : list chunk) (bs : list N),
    predict_stream endpoint_name (stream_inputs messages max_tokens)
    = Success (before ++ ChunkBytes bs :: after) ->
    Forall (readable py) before ->
    utf8_decode bs = None ->
    query_endpoint_stream predict_stream py endpoint_name messages max_tokens
    = (Sent endpoint_name (stream_inputs messages max_tokens)
         :: fst (process_chunks py before)
         ++ [Logged ERROR (StreamingFailed (Runtime UnicodeDecodeError))],
       Some (Runtime UnicodeDecodeError)).
Proof.
  intros py predict_stream endpoint_name messages max_tokens before after bs
         H Hb Hbs.
  unfold query_endpoint_stream. rewrite H, process_chunks_app.
  apply process_chunks_complete in Hb.
  destruct (process_chunks py before) as [evs r]. cbn [snd] in Hb. subst r.
  cbn [process_chunks fst]. unfold process_chunk at 1. rewrite Hbs.
  now rewrite app_nil_r.
Qed.

Lemma undecodable_bytes_stop_the_stream_witness :
  query_endpoint_stream broken_stream default_interpreter (u "rag-agent")
    [user_turn] 1000
  = (Sent (u "rag-agent") (stream_inputs [user_turn] 1000)
       :: fst (process_chunks default_interpreter
                 [ChunkValue (PyDict [(u "text", PyStr (u "a"))])])
       ++ [Logged ERROR (StreamingFailed (Runtime UnicodeDecodeError))],
     Some (Runtime UnicodeDecodeError)).
Proof.
  apply (undecodable_bytes_stop_the_stream default_interpreter broken_stream
           (u "rag-agent") [user_turn] 1000%Z
           [ChunkValue (PyDict [(u "text", PyStr (u "a"))])]
           [ChunkValue (PyDict [(u "text", PyStr (u "b"))])] [255%N]).
  - reflexivity.
  - repeat constructor.
  - reflexivity.
Defined.

(** X18: once the request has succeeded, the stream ends without an
    exception exactly when every chunk of the response is read without
    one: its bytes are UTF-8, and on no [data: ] line of its text, the
    sentinel apart, does [json.loads] raise anything but [JSONDecodeError].
    When an exception ends the stream, the last thing done is to log it at
    level ERROR; and the first chunk that cannot be read ends the stream,
    the chunks after it being never looked at. *)
Theorem stream_ends_normally_iff_readable :
  forall (py : interpreter)
         (predict_stream : pystr -> pyval -> attempt (list chunk))
         (endpoint_name : pystr) (messages : list pyval) (max_tokens : Z)
         (response : list chunk),
    predict_stream endpoint_name (stream_inputs messages max_tokens)
    = Success response ->
    let run := query_endpoint_stream predict_stream py endpoint_name messages
                 max_tokens in
    (snd run = None <-> Forall (readable py) response) /\
    (forall e, snd run = Some e ->
       exists trace, fst run = trace ++ [Logged ERROR (StreamingFailed e)]) /\
    (forall before c after,
       response = before ++ c :: after ->
       Forall (readable py) before -> ~ readable py c ->
       exists e,
         process_chunk py c = (fst (process_chunk py c), Some e) /\
         run = (Sent endpoint_name (stream_inputs messages max_tokens)
                  :: fst (process_chunks py before) ++ fst (process_chunk py c)
                  ++ [Logged ERROR (StreamingFailed (Runtime e))],
                Some (Runtime e))).
Proof.
  intros py predict_stream endpoint_name messages max_tokens response Hp run.
  subst run. unfold query_endpoint_stream. rewrite Hp.
  split; [|split].
  - rewrite <- process_chunks_complete.
    destruct (process_chunks py response) as [evs [e|]]; cbn [snd];
      split; (discriminate || reflexivity).
  - intros e.
    destruct (process_chunks py response) as [evs [e'|]]; cbn [fst snd];
      [|discriminate].
    intros [= <-].
    now exists (Sent endpoint_name (stream_inputs messages max_tokens) :: evs).
  - intros before c after -> Hb Hc.
    rewrite process_chunks_app.
    apply process_chunks_complete in Hb.
    destruct (process_chunks py before) as [evs r]. cbn [fst snd] in *. subst r.
    cbn [process_chunks].
    pose proof (process_chunk_readable py c) as Hr.
    destruct (process_chunk py c) as [evs' [e|]]; cbn [fst snd] in *.
    + exists e. split; [reflexivity|]. now rewrite <- app_assoc.
    + exfalso. apply Hc. now apply Hr.
Qed.

Lemma stream_ends_normally_iff_readable_witness :
  (exists trace,
     fst (query_endpoint_stream broken_stream default_interpreter (u "rag-agent")
            [user_turn] 1000)
     = trace ++ [Logged ERROR (StreamingFailed (Runtime UnicodeDecodeError))]) /\
  ~ Forall (readable default_interpreter)
      [ChunkValue (PyStr (DATA ++ long_integer_text))].
Proof.
  split.
  - refine (proj1 (proj2 (stream_ends_normally_iff_readable default_interpreter
                            broken_stream (u "rag-agent") [user_turn] 1000%Z
                            _ eq_refl)) _ _).
    reflexivity.
  - intros H.
    apply (proj1 (stream_ends_normally_iff_readable default_interpreter
                    (fun _ _ => Success [ChunkValue (PyStr (DATA ++ long_integer_text))])
                    (u "rag-agent") [user_turn] 1000%Z _ eq_refl)) in H.
    vm_compute in H. discriminate H.
Defined.

Lemma utf8_decode_ascii (bs : list N) :
  Forall (fun b => (b < 128)%N) bs -> utf8_decode bs = Some bs.
Proof.
  induction 1 as [|b bs Hb _ IH]; [reflexivity|].
  cbn [utf8_decode]. apply N.ltb_lt in Hb. now rewrite Hb, IH.
Qed.

(** X19: a chunk of ASCII bytes is handled exactly as the text with the
    same characters. *)
Theorem ascii_bytes_are_handled_as_text :
  forall (py : interpreter) (bs : list N),
    Forall (fun b => (b < 128)%N) bs ->
    process_chunk py (ChunkBytes bs) = process_chunk py (ChunkValue (PyStr bs)) /\
    process_chunk py (ChunkBytes bs) = process_text py bs.
Proof.
  intros py bs H. unfold process_chunk.
  now rewrite (utf8_decode_ascii bs H).
Qed.

Lemma ascii_bytes_are_handled_as_text_witness :
  process_chunk default_interpreter (ChunkBytes sse_buffer)
  = process_text default_interpreter sse_buffer.
Proof.
  refine (proj2 (ascii_bytes_are_handled_as_text default_interpreter sse_buffer _)).
  repeat constructor.
Defined.

(** ** The chunk content extractor: when it answers *)

(** X20: the content of the delta of the first choice is returned
    whatever else the fragment holds, and nothing is logged. *)
Theorem first_choice_delta_wins :
  forall (d first delta : list (pystr * pyval)) (others : list pyval) (c : pyval),
    lookup (u "choices") d = Some (PyList (PyDict first :: others)) ->
    lookup (u "delta") first = Some (PyDict delta) ->
    lookup CONTENT delta = Some c ->
    extract_content_from_stream (PyDict d) = (c, []).
Proof.
  intros d first delta others c Hc Hd Hcontent.
  unfold extract_content_from_stream, extract_body, format_choices.
  cbn [py_in bind getitem]. unfold has_key. rewrite Hc.
  cbn [bind getitem_first py_get]. rewrite Hd.
  cbn [bind py_in getitem]. unfold has_key. rewrite Hcontent.
  reflexivity.
Qed.

Lemma first_choice_delta_wins_witness :
  extract_content_from_stream
    (PyDict [(CONTENT, PyStr (u "top"));
             (u "choices",
              PyList [PyDict [(u "delta", PyDict [(CONTENT, PyStr (u "Hel"))])]])])
  = (PyStr (u "Hel"), []).
Proof.
  apply (first_choice_delta_wins
           [(CONTENT, PyStr (u "top"));
            (u "choices",
             PyList [PyDict [(u "delta", PyDict [(CONTENT, PyStr (u "Hel"))])]])]
           [(u "delta", PyDict [(CONTENT, PyStr (u "Hel"))])]
           [(CONTENT, PyStr (u "Hel"))] []);
    reflexivity.
Defined.

Lemma format_text_total (d : list (pystr * pyval)) :
  exists r, format_text (PyDict d) = Ok r.
Proof.
  unfold format_text. cbn [py_in bind getitem]. unfold has_key.
  destruct (lookup (u "text") d); now eexists.
Qed.

Lemma format_output_total (d : list (pystr * pyval)) :
  exists r, format_output (PyDict d) = Ok r.
Proof.
  unfold format_output. cbn [py_in bind getitem]. unfold has_key.
  destruct (lookup (u "output") d) as [[| | | | | |o|]|]; cbn [bind];
    try (now eexists).
  destruct (lookup (u "text") o); [now eexists|].
  destruct (lookup CONTENT o); now eexists.
Qed.

Lemma format_delta_total (d : list (pystr * pyval)) :
  exists r, format_delta (PyDict d) = Ok r.
Proof.
  unfold format_delta. cbn [py_in bind getitem]. unfold has_key.
  destruct (lookup (u "delta") d) as [[| | | | | |o|]|]; cbn [bind];
    try (now eexists).
  destruct (lookup CONTENT o); now eexists.
Qed.

(** X21: on a mapping without 'choices' whose 'content', if any, is not
    a list, the extractor raises nothing and logs nothing: it returns the
    text of the first shape the fragment has, or [None]. *)
Theorem extractor_is_silent_without_choices :
  forall d : list (pystr * pyval),
    lookup (u "choices") d = None ->
    (forall parts, lookup CONTENT d <> Some (PyList parts)) ->
    extract_content_from_stream (PyDict d)
    = (or_none (spec_first_matching_shape (PyDict d)), []).
Proof.
  intros d Hc Hparts.
  assert (Hok : exists r, extract_body (PyDict d) = Ok r).
  { unfold extract_body.
    assert (H1 : format_choices (PyDict d) = Ok None).
    { unfold format_choices. cbn [py_in bind]. unfold has_key. now rewrite Hc. }
    rewrite H1. cbn [or_next].
    assert (H2 : exists r, format_content (PyDict d) = Ok r).
    { unfold format_content. cbn [py_in bind getitem]. unfold has_key.
      destruct (lookup CONTENT d) as [[| | | | |parts| |]|] eqn:E; cbn [bind];
        try (now eexists).
      now destruct (Hparts parts). }
    destruct H2 as [[v|] H2]; rewrite H2; cbn [or_next]; [now eexists|].
    destruct (format_text_total d) as [[v|] H3]; rewrite H3; cbn [or_next];
      [now eexists|].
    destruct (format_output_total d) as [[v|] H4]; rewrite H4; cbn [or_next];
      [now eexists|].
    apply format_delta_total. }
  destruct Hok as [r Hr]. unfold extract_content_from_stream. rewrite Hr.
  apply extract_body_spec in Hr. subst r.
  now destruct (spec_first_matching_shape (PyDict d)).
Qed.

Lemma extractor_is_silent_without_choices_witness :
  extract_content_from_stream (PyDict [(u "type", PyStr (u "response.created"))])
  = (or_none (spec_first_matching_shape
                (PyDict [(u "type", PyStr (u "response.created"))])), []).
Proof.
  apply extractor_is_silent_without_choices.
  - reflexivity.
  - discriminate.
Defined.

(** ** The caller: from the query to the result *)

Section CallerFacts.

Variable py_str : pyval -> pystr.
Variable predict : pystr -> pyval -> attempt pyval.
Variable SERVING_ENDPOINT : pystr.
Variable py : interpreter.
Variables (query : pystr) (max_tokens : Z).

Let turns : list pyval := [PyDict [(ROLE, PyStr (u "user")); (CONTENT, PyStr query)]].
Let search :=
  query_rag_endpoint py_str predict SERVING_ENDPOINT py query max_tokens.
Let sent := query_endpoint py_str predict SERVING_ENDPOINT turns max_tokens.

Lemma search_of_message (message : pyval) (progress_placeholder : bool) :
  fst sent = inr message ->
  fst (search progress_placeholder) =
  match parse_rag_response py message with
  | Some parsed_data =>
      if progress_placeholder then
        match count_results parsed_data with
        | Ok _ => inr (Some parsed_data)
        | Raise e => inl (Runtime e)
        end
      else inr (Some parsed_data)
  | None => inr None
  end.
Proof.
  subst search sent turns. unfold query_rag_endpoint.
  destruct (query_endpoint py_str predict SERVING_ENDPOINT _ max_tokens)
    as [r core].
  cbn [fst]. intros ->.
  destruct (parse_rag_response py message) as [parsed_data|] eqn:Hp; [|reflexivity].
  rewrite (parsed_value_is_true py message parsed_data Hp).
  destruct progress_placeholder; [|reflexivity].
  now destruct (count_results parsed_data).
Qed.

Lemma search_of_failure (e : exn) (progress_placeholder : bool) :
  fst sent = inl e ->
  fst (search progress_placeholder) = inl e /\
  exists trace,
    snd (search progress_placeholder) = trace ++ [AppLogged ERROR (ErrorQuerying e)].
Proof.
  subst search sent turns. unfold query_rag_endpoint.
  destruct (query_endpoint py_str predict SERVING_ENDPOINT _ max_tokens)
    as [r core].
  cbn [fst]. intros ->. split; [reflexivity|]. now eexists.
Qed.

Lemma sent_agent_message (res : pyval) :
  predict SERVING_ENDPOINT (agent_inputs turns max_tokens) = Success res ->
  exists content,
    fst sent = inr (PyDict [(ROLE, ASSISTANT); (CONTENT, PyStr content);
                            (RAW_RESPONSE, res)]).
Proof.
  intros H. subst sent. unfold query_endpoint. rewrite H.
  destruct (from_agent_reply_message py_str res) as [content Hc].
  exists content.
  destruct (from_agent_reply py_str res) as [message evs].
  cbn [fst] in *. now rewrite Hc.
Qed.

Lemma parse_canonical (content : pystr) (d : list (pystr * pyval)) :
  has_key RAW_RESPONSE d = false ->
  has_key QU d = true -> has_key RESULTS d = true ->
  parse_rag_response py
    (PyDict [(ROLE, ASSISTANT); (CONTENT, PyStr content); (RAW_RESPONSE, PyDict d)])
  = Some (PyDict d).
Proof.
  intros Hraw Hq Hr.
  rewrite parse_rag_response_of_body.
  rewrite (parse_rag_body_unwrap py
             [(ROLE, ASSISTANT); (CONTENT, PyStr content); (RAW_RESPONSE, PyDict d)]
             (PyDict d) eq_refl Hraw).
  unfold parse_rag_body. rewrite (unwrap_raw_id (PyDict d) Hraw).
  cbn [decode_string and_then mapping_branch]. now rewrite Hq, Hr.
Qed.

(** X22: when the endpoint answers the agent format with a mapping that
    has 'query_understanding' and a list under 'results' (and is no
    envelope), the search returns that mapping, with or without a
    progress placeholder. *)
Theorem search_returns_the_canonical_reply :
  forall (d : list (pystr * pyval)) (results : list pyval)
         (progress_placeholder : bool),
    predict SERVING_ENDPOINT (agent_inputs turns max_tokens) = Success (PyDict d) ->
    has_key RAW_RESPONSE d = false ->
    has_key QU d = true ->
    lookup RESULTS d = Some (PyList results) ->
    fst (search progress_placeholder) = inr (Some (PyDict d)).
Proof.
  intros d results progress_placeholder H Hraw Hq Hr.
  destruct (sent_agent_message (PyDict d) H) as [content Hs].
  rewrite (search_of_message _ progress_placeholder Hs).
  assert (Hk : has_key RESULTS d = true) by (unfold has_key; now rewrite Hr).
  rewrite (parse_canonical content d Hraw Hq Hk).
  destruct progress_placeholder; [|reflexivity].
  unfold count_results. cbn [py_get bind]. now rewrite Hr.
Qed.

(** X23: when the value under 'results' has no length (a number, for
    one), the search returns the mapping if no progress placeholder is
    given, and raises if one is: counting the results for the message
    of the placeholder is what fails. *)
Theorem search_outcome_depends_on_placeholder :
  forall (d : list (pystr * pyval)) (results : pyval) (e : pyerr),
    predict SERVING_ENDPOINT (agent_inputs turns max_tokens) = Success (PyDict d) ->
    has_key RAW_RESPONSE d = false ->
    has_key QU d = true ->
    lookup RESULTS d = Some results ->
    py_len results = Raise e ->
    fst (search false) = inr (Some (PyDict d)) /\
    fst (search true) = inl (Runtime e).
Proof.
  intros d results e H Hraw Hq Hr He.
  destruct (sent_agent_message (PyDict d) H) as [content Hs].
  assert (Hk : has_key RESULTS d = true) by (unfold has_key; now rewrite Hr).
  rewrite !(search_of_message _ _ Hs), (parse_canonical content d Hraw Hq Hk).
  split; [reflexivity|].
  unfold count_results. cbn [py_get bind]. rewrite Hr. cbn [bind]. now rewrite He.
Qed.

(** X24: when both formats are rejected, the search raises what
    [query_endpoint] raised, the report of the agent-format failure,
    after logging it at level ERROR; nothing is parsed. *)
Theorem search_raises_endpoint_failure :
  forall (custom_error e : failure) (progress_placeholder : bool),
    predict SERVING_ENDPOINT (agent_inputs turns max_tokens) = Failed custom_error ->
    predict SERVING_ENDPOINT (chat_inputs turns max_tokens) = Failed e ->
    fst (search progress_placeholder)
    = inl (Exception (u "Failed to query endpoint " ++ SERVING_ENDPOINT ++
                      u " with custom format: " ++ detail custom_error)) /\
    exists trace,
      snd (search progress_placeholder)
      = trace ++ [AppLogged ERROR
                    (ErrorQuerying
                       (Exception (u "Failed to query endpoint " ++ SERVING_ENDPOINT ++
                                   u " with custom format: " ++ detail custom_error)))].
Proof.
  intros custom_error e progress_placeholder Ha Hc.
  apply search_of_failure.
  subst sent. unfold query_endpoint. rewrite Ha.
  unfold chat_fallback. now rewrite Hc.
Qed.

(** X25: without a progress placeholder the search returns exactly what
    the parser makes of the message of the executor; and, placeholder or
    not, it returns [None] only when the parser found nothing: the truth
    test on the parsed value drops no result. *)
Theorem search_drops_no_result :
  forall message : pyval,
    fst sent = inr message ->
    fst (search false) = inr (parse_rag_response py message) /\
    (forall progress_placeholder,
        fst (search progress_placeholder) = inr None <->
        parse_rag_response py message = None).
Proof.
  intros message Hs. split.
  - rewrite (search_of_message _ false Hs).
    now destruct (parse_rag_response py message).
  - intros progress_placeholder.
    rewrite (search_of_message _ progress_placeholder Hs).
    destruct (parse_rag_response py message) as [parsed_data|]; [|tauto].
    split; [|discriminate].
    destruct progress_placeholder; [|discriminate].
    destruct (count_results parsed_data); discriminate.
Qed.

End CallerFacts.

Lemma search_returns_the_canonical_reply_witness :
  fst (query_rag_endpoint str_of canonical_client (u "rag-agent")
         default_interpreter (u "churn") 2000 true)
  = inr (Some (PyDict canonical_reply)).
Proof.
  apply (search_returns_the_canonical_reply str_of canonical_client (u "rag-agent")
           default_interpreter (u "churn") 2000%Z canonical_reply
           [PyDict [(u "rank", PyInt 1)]; PyDict [(u "rank", PyInt 2)]] true);
    reflexivity.
Defined.

Lemma search_outcome_depends_on_placeholder_witness :
  fst (query_rag_endpoint str_of counting_client (u "rag-agent")
         default_interpreter (u "churn") 2000 false)
  = inr (Some (PyDict [(QU, PyStr (u "churn data")); (RESULTS, PyInt 2)])) /\
  fst (query_rag_endpoint str_of counting_client (u "rag-agent")
         default_interpreter (u "churn") 2000 true)
  = inl (Runtime TypeError).
Proof.
  apply (search_outcome_depends_on_placeholder str_of counting_client (u "rag-agent")
           default_interpreter (u "churn") 2000%Z
           [(QU, PyStr (u "churn data")); (RESULTS, PyInt 2)] (PyInt 2) TypeError);
    reflexivity.
Defined.

Lemma search_raises_endpoint_failure_witness :
  fst (query_rag_endpoint str_of rejecting_client (u "rag-agent")
         default_interpreter (u "churn") 2000 true)
  = inl (Exception (u "Failed to query endpoint " ++ u "rag-agent" ++
                    u " with custom format: " ++ u "agent format rejected")) /\
  exists trace,
    snd (query_rag_endpoint str_of rejecting_client (u "rag-agent")
         default_interpreter (u "churn") 2000 true)
    = trace ++ [AppLogged ERROR
                  (ErrorQuerying
                     (Exception (u "Failed to query endpoint " ++ u "rag-agent" ++
                                 u " with custom format: " ++ u "agent format rejected")))].
Proof.
  apply (search_raises_endpoint_failure str_of rejecting_client (u "rag-agent")
           default_interpreter (u "churn") 2000%Z (Failure (u "agent format rejected"))
           (Failure (u "chat format rejected")) true);
    reflexivity.
Defined.

Lemma search_drops_no_result_witness :
  fst (query_rag_endpoint str_of chat_only_client (u "rag-agent")
         default_interpreter (u "churn") 2000 false)
  = inr (parse_rag_response default_interpreter (PyDict hello_message)) /\
  (forall progress_placeholder,
      fst (query_rag_endpoint str_of chat_only_client (u "rag-agent")
         default_interpreter (u "churn") 2000
             progress_placeholder) = inr None <->
      parse_rag_response default_interpreter (PyDict hello_message) = None).
Proof.
  apply (search_drops_no_result str_of chat_only_client (u "rag-agent")
           default_interpreter (u "churn") 2000%Z (PyDict hello_message)).
  reflexivity.
Defined.

(** ** The parser: a string under 'content' *)

(** X26: a mapping that is not the result itself, with no list under
    'output' and a string under 'content': when [json.loads] decodes the
    string to a mapping with both fields, that mapping is returned, however
    short the string is; when it raises [JSONDecodeError] and the mapping
    has neither 'text' nor 'result', the parser returns [None], code fences
    not being stripped here; and when it raises anything else the parser
    returns [None] at once. *)
Theorem content_string_is_decoded_as_it_is :
  forall (py : interpreter) (d : list (pystr * pyval)) (s : pystr),
    has_key RAW_RESPONSE d = false ->
    has_key QU d && has_key RESULTS d = false ->
    lookup (u "output") d = None ->
    lookup CONTENT d = Some (PyStr s) ->
    (forall p, json_loads py s = Decoded (PyDict p) ->
               has_key QU p = true -> has_key RESULTS p = true ->
               parse_rag_response py (PyDict d) = Some (PyDict p)) /\
    (json_loads py s = JSONDecodeError ->
     lookup (u "text") d = None -> lookup (u "result") d = None ->
     parse_rag_response py (PyDict d) = None) /\
    (forall e, json_loads py s = Raising e ->
               parse_rag_response py (PyDict d) = None).
Proof.
  intros py d s Hraw Hboth Ho Hc.
  assert (Hb : parse_rag_body py (PyDict d)
               = and_then (probe_keys py [u "content"; u "text"; u "result"] d)
                   (fun response =>
                      and_then (list_branch py response)
                        (fun _ => report_failure response))).
  { unfold parse_rag_body. rewrite (unwrap_raw_id (PyDict d) Hraw).
    cbn [decode_string and_then mapping_branch]. now rewrite Hboth, Ho. }
  split; [|split].
  - intros p Hj Hq Hr. rewrite parse_rag_response_of_body, Hb.
    cbn [probe_keys]. fold CONTENT. rewrite Hc, Hj.
    unfold has_both. cbn [py_in bind]. now rewrite Hq, Hr.
  - intros Hj Ht Hres. rewrite parse_rag_response_of_body, Hb.
    cbn [probe_keys]. fold CONTENT. rewrite Hc, Hj, Ht, Hres.
    cbn [and_then list_branch report_failure].
    now destruct (serializable (PyDict d)).
  - intros e Hj. rewrite parse_rag_response_of_body, Hb.
    cbn [probe_keys]. fold CONTENT. now rewrite Hc, Hj.
Qed.

Lemma content_string_is_decoded_as_it_is_witness :
  parse_rag_response default_interpreter
    (PyDict [(ROLE, ASSISTANT); (CONTENT, PyStr short_valid_text)])
  = Some (PyDict [(QU, PyStr (u "x")); (RESULTS, PyList [])]) /\
  parse_rag_response default_interpreter
    (PyDict [(ROLE, ASSISTANT); (CONTENT, PyStr fenced_document)])
  = None /\
  parse_rag_response default_interpreter
    (PyDict [(CONTENT, PyStr (repeat (ch "1") 4301)); (u "text", PyStr short_valid_text)])
  = None.
Proof.
  split; [|split].
  - apply (proj1 (content_string_is_decoded_as_it_is default_interpreter
                    [(ROLE, ASSISTANT); (CONTENT, PyStr short_valid_text)]
                    short_valid_text eq_refl eq_refl eq_refl eq_refl)).
    + vm_compute. reflexivity.
    + reflexivity.
    + reflexivity.
  - apply (proj1 (proj2 (content_string_is_decoded_as_it_is default_interpreter
                    [(ROLE, ASSISTANT); (CONTENT, PyStr fenced_document)]
                    fenced_document eq_refl eq_refl eq_refl eq_refl))).
    + vm_compute. reflexivity.
    + reflexivity.
    + reflexivity.
  - apply (proj2 (proj2 (content_string_is_decoded_as_it_is default_interpreter
                    [(CONTENT, PyStr (repeat (ch "1") 4301));
                     (u "text", PyStr short_valid_text)]
                    (repeat (ch "1") 4301) eq_refl eq_refl eq_refl eq_refl))
             ValueError).
    vm_compute. reflexivity.
Defined.

(** ** The code fences *)

Lemma replace_without_first (old : pystr) (c0 : N) (s : pystr) :
  Forall (fun c => c <> c0) s ->
  replace_from (c0 :: old) [] 0 s = s.
Proof.
  induction 1 as [|c s Hc _ IH]; [reflexivity|].
  cbn [replace_from]. unfold startswith. cbn [strip_prefix].
  destruct (N.eqb c0 c) eqn:E; [apply N.eqb_eq in E; congruence|].
  now rewrite IH.
Qed.

Lemma fence_cases (s : pystr) :
  (exists t, s = BACKTICK :: BACKTICK :: BACKTICK :: t) \/ startswith s FENCE = false.
Proof.
  unfold startswith. change FENCE with [BACKTICK; BACKTICK; BACKTICK].
  destruct s as [|a s]; cbn [strip_prefix]; [now right|].
  destruct (N.eqb_spec BACKTICK a) as [<-|Ha]; [|now right].
  destruct s as [|b s]; cbn [strip_prefix]; [now right|].
  destruct (N.eqb_spec BACKTICK b) as [<-|Hb]; [|now right].
  destruct s as [|c s]; cbn [strip_prefix]; [now right|].
  destruct (N.eqb_spec BACKTICK c) as [<-|Hc]; [|now right].
  left. now exists s.
Qed.

Lemma unfence_fence (t : pystr) :
  replace_from FENCE [] 0 (BACKTICK :: BACKTICK :: BACKTICK :: t)
  = replace_from FENCE [] 0 t.
Proof. reflexivity. Qed.

Lemma unfence_other (c : N) (t : pystr) :
  startswith (c :: t) FENCE = false ->
  replace_from FENCE [] 0 (c :: t) = c :: replace_from FENCE [] 0 t.
Proof. intros H. cbn [replace_from]. now rewrite H. Qed.

Lemma unfence_head (n : nat) :
  forall s, length s <= n ->
    (forall r, replace_from FENCE [] 0 s = BACKTICK :: r ->
               exists t, s = BACKTICK :: t) /\
    (forall r, replace_from FENCE [] 0 s = BACKTICK :: BACKTICK :: r ->
               exists t, s = BACKTICK :: BACKTICK :: t).
Proof.
  induction n as [|n IH]; intros s Hlen.
  - destruct s; [|simpl in Hlen; lia]. split; discriminate.
  - destruct (fence_cases s) as [[t ->]|Hs].
    + split; intros r _; now eexists.
    + destruct s as [|c t]; [split; discriminate|].
      rewrite (unfence_other c t Hs).
      assert (Ht : length t <= n) by (simpl in Hlen; lia).
      destruct (IH t Ht) as [IH1 IH2].
      split.
      * intros r [= -> _]. now eexists.
      * intros r [= -> Hr]. destruct (IH1 r Hr) as [t' ->]. now eexists.
Qed.

Lemma unfence_leaves_no_fence (n : nat) :
  forall s, length s <= n ->
    str_contains FENCE (replace_from FENCE [] 0 s) = false.
Proof.
  induction n as [|n IH]; intros s Hlen.
  - destruct s; [reflexivity | simpl in Hlen; lia].
  - destruct (fence_cases s) as [[t ->]|Hs].
    + rewrite unfence_fence. apply IH. simpl in Hlen. lia.
    + destruct s as [|c t]; [reflexivity|].
      rewrite (unfence_other c t Hs).
      assert (Ht : length t <= n) by (simpl in Hlen; lia).
      cbn [str_contains]. rewrite (IH t Ht), orb_false_r.
      destruct (startswith (c :: replace_from FENCE [] 0 t) FENCE) eqn:E;
        [|reflexivity].
      exfalso. unfold startswith in E.
      destruct (strip_prefix FENCE (c :: replace_from FENCE [] 0 t)) as [r|] eqn:Er;
        [|discriminate].
      apply strip_prefix_split in Er. injection Er as -> Er.
      destruct (proj2 (unfence_head n t Ht) r Er) as [t' ->].
      unfold startswith in Hs. cbn in Hs. discriminate.
Qed.

(** X27: in the text handed to the decoder no code fence is left, and a
    text without a backtick is handed over unchanged. *)
Theorem strip_fences_leaves_no_fence :
  forall text : pystr,
    str_contains FENCE (strip_fences text) = false /\
    (Forall (fun c => c <> BACKTICK) text -> strip_fences text = text).
Proof.
  intros text. split.
  - unfold strip_fences, str_replace.
    apply (unfence_leaves_no_fence
             (length (replace_from (u "```json") [] 0 text))).
    reflexivity.
  - intros H. unfold strip_fences, str_replace.
    change (u "```json") with (BACKTICK :: u "``json").
    change (u "```") with (BACKTICK :: u "``").
    rewrite (replace_without_first (u "``json") BACKTICK text H).
    exact (replace_without_first (u "``") BACKTICK text H).
Qed.

Lemma strip_fences_leaves_no_fence_witness :
  strip_fences short_valid_text = short_valid_text.
Proof.
  apply (proj2 (strip_fences_leaves_no_fence short_valid_text)).
  repeat constructor; discriminate.
Defined.

(** ** The pattern: where its match ends *)

Lemma greedy_star_consumes_closed (cls : N -> bool) (k : pystr -> option pystr)
  (Q : pystr -> Prop) :
  suffix_closed Q -> consumes k Q -> consumes (greedy_star cls k) Q.
Proof.
  intros HQ Hk s. induction s as [|c t IH]; intros rest; simpl.
  - apply Hk.
  - destruct (cls c); [|apply Hk].
    destruct (greedy_star cls k t) as [r|]; [|apply Hk].
    intros [= <-]. destruct (IH r eq_refl) as [p [Hs Hp]].
    exists (c :: p). split; [now rewrite Hs|]. exact (HQ [c] p Hp).
Qed.

Lemma re_match_consumes_closed (Q : pystr -> Prop) (r : regex) :
  suffix_closed Q ->
  forall k, consumes k Q -> consumes (re_match r k) Q.
Proof.
  intros HQ.
  induction r as [l|cls|cls|r1 IH1| |r1 IH1 r2 IH2]; intros k Hk.
  - apply (consumes_weaken _ (fun p => exists q, p = l ++ q /\ Q q));
      [|now apply lit_consumes].
    intros p [q [-> Hq]]. now apply HQ.
  - apply (consumes_weaken _ (fun p => exists a q, p = a ++ q /\ Q q));
      [|now apply lazy_star_consumes].
    intros p [a [q [-> Hq]]]. now apply HQ.
  - now apply greedy_star_consumes_closed.
  - intros s rest. cbn [re_match].
    destruct (re_match r1 k s) as [t|] eqn:E.
    + intros [= <-]. now apply (IH1 k Hk) in E.
    + apply Hk.
  - intros s rest. cbn [re_match]. destruct (at_end s); [apply Hk | discriminate].
  - intros s rest. cbn [re_match]. apply IH1. now apply IH2.
Qed.

(** What a successful match leaves is what its continuation returned. *)
Lemma re_match_result (R : pystr -> Prop) (r : regex) :
  forall k, (forall s rest, k s = Some rest -> R rest) ->
            forall s rest, re_match r k s = Some rest -> R rest.
Proof.
  induction r as [l|cls|cls|r1 IH1| |r1 IH1 r2 IH2]; intros k Hk s rest;
    cbn [re_match].
  - destruct (strip_prefix l s); [apply Hk | discriminate].
  - revert rest. induction s as [|c t IH]; intros rest; simpl.
    + destruct (k []) eqn:E; [|discriminate]. intros [= <-]. now apply Hk in E.
    + destruct (k (c :: t)) eqn:E.
      * intros [= <-]. now apply Hk in E.
      * destruct (cls c); [apply IH | discriminate].
  - revert rest. induction s as [|c t IH]; intros rest; simpl.
    + apply Hk.
    + destruct (cls c); [|apply Hk].
      destruct (greedy_star cls k t) as [x|]; [|apply Hk].
      intros [= <-]. now apply IH.
  - destruct (re_match r1 k s) as [t|] eqn:E.
    + intros [= <-]. now apply (IH1 k Hk) in E.
    + apply Hk.
  - destruct (at_end s); [apply Hk | discriminate].
  - apply IH1. intros s' rest'. now apply IH2.
Qed.

Lemma ends_with_brace_closed : suffix_closed ends_with_brace.
Proof.
  intros a q [q' ->]. exists (a ++ q'). now rewrite app_assoc.
Qed.

Lemma re_match_seq_result (R : pystr -> Prop) (r1 r2 : regex)
  (k : pystr -> option pystr) :
  (forall s rest, re_match r2 k s = Some rest -> R rest) ->
  forall s rest, re_match (Seq r1 r2) k s = Some rest -> R rest.
Proof.
  intros H s rest. cbn [re_match]. now apply re_match_result.
Qed.

Lemma seq_consumes (Q : pystr -> Prop) (r1 r2 : regex) (k : pystr -> option pystr) :
  consumes (re_match r1 (re_match r2 k)) Q -> consumes (re_match (Seq r1 r2) k) Q.
Proof. intros H. exact H. Qed.

Lemma seq_consumes_closed (Q : pystr -> Prop) (r1 r2 : regex)
  (k : pystr -> option pystr) :
  suffix_closed Q ->
  consumes (re_match r2 k) Q -> consumes (re_match (Seq r1 r2) k) Q.
Proof.
  intros HQ H. apply seq_consumes. now apply re_match_consumes_closed.
Qed.

Lemma opt_consumes (Q : pystr -> Prop) (r1 : regex) (k : pystr -> option pystr) :
  consumes (re_match r1 k) Q -> consumes k Q -> consumes (re_match (Opt r1) k) Q.
Proof.
  intros H1 Hk s rest. cbn [re_match].
  destruct (re_match r1 k s) as [t|] eqn:E.
  - intros [= <-]. now apply H1.
  - apply Hk.
Qed.

Lemma end_anchor_consumes : consumes (re_match EndAnchor Some) (fun p => p = []).
Proof.
  intros s rest. cbn [re_match]. destruct (at_end s); [|discriminate].
  intros [= <-]. now exists [].
Qed.

(** The end of the pattern: a closing brace, perhaps white space and a
    second one, and the end of the text. *)
Lemma closing_brace_consumes :
  consumes
    (re_match
       (Seq (Lit (u "}"))
          (Seq (Opt (Seq (GreedyStar py_isspace) (Lit (u "}")))) EndAnchor))
       Some)
    ends_with_brace.
Proof.
  apply seq_consumes.
  apply (consumes_weaken _
           (fun p => exists q, p = u "}" ++ q /\ (q = [] \/ ends_with_brace q))).
  { intros p [q [-> [->|Hq]]]; [now exists [] | now apply ends_with_brace_closed]. }
  apply lit_consumes, seq_consumes, opt_consumes.
  - apply (consumes_weaken _ ends_with_brace); [now right|].
    apply seq_consumes_closed; [exact ends_with_brace_closed|].
    apply (consumes_weaken _ (fun p => exists q, p = u "}" ++ q /\ q = [])).
    { intros p [q [-> ->]]. now exists []. }
    apply lit_consumes, end_anchor_consumes.
  - apply (consumes_weaken _ (fun p => p = [])); [now left|].
    apply end_anchor_consumes.
Qed.

Lemma json_object_pattern_end (s rest : pystr) :
  re_match json_object_pattern Some s = Some rest ->
  at_end rest = true /\ exists p, s = p ++ rest /\ ends_with_brace p.
Proof.
  intros H. split.
  - revert s rest H. unfold json_object_pattern.
    do 8 apply re_match_seq_result.
    intros s rest. cbn [re_match].
    destruct (at_end s) eqn:E; [|discriminate]. now intros [= <-].
  - revert s rest H.
    fold (consumes (re_match json_object_pattern Some) ends_with_brace).
    unfold json_object_pattern.
    do 6 (apply seq_consumes_closed; [exact ends_with_brace_closed|]).
    exact closing_brace_consumes.
Qed.

Lemma matched_to_end (s rest p : pystr) :
  at_end rest = true -> s = p ++ rest ->
  s = [] ++ p \/ s = [] ++ p ++ [c_newline].
Proof.
  destruct rest as [|x [|y r]]; cbn [at_end app]; try discriminate.
  - intros _ ->. left. now rewrite app_nil_r.
  - intros Hx ->. apply N.eqb_eq in Hx. subst x. now right.
Qed.

(** X28: what the pattern finds always ends with a closing brace and
    runs to the end of the text, or to the newline that ends it.  A text
    that ends otherwise, with prose after the object for one, gives no
    match at all. *)
Theorem pattern_matches_only_a_final_object :
  forall text json_match : pystr,
    re_search json_object_pattern text = Some json_match ->
    ends_with_brace json_match /\
    exists before,
      text = before ++ json_match \/ text = before ++ json_match ++ [c_newline].
Proof.
  intros text. induction text as [|c text IH]; intros json_match;
    rewrite re_search_unfold;
    (destruct (re_match json_object_pattern Some _) as [rest|] eqn:E;
     [destruct (json_object_pattern_end _ _ E) as [Hend [p [Hs Hp]]];
      intros Heq; rewrite Hs, firstn_consumed in Heq; injection Heq as <-;
      split; [exact Hp|]; exists []; exact (matched_to_end _ rest p Hend Hs)
     |try discriminate]).
  intros H. destruct (IH json_match H) as [Hb [before [Ht|Ht]]].
  - split; [exact Hb|]. exists (c :: before). left. now rewrite Ht.
  - split; [exact Hb|]. exists (c :: before). right. now rewrite Ht.
Qed.

Lemma pattern_matches_only_a_final_object_witness :
  ends_with_brace (jq "{'query_understanding':'x','results':[{'rank':1}]}") /\
  exists before,
    prose_then_object
    = before ++ jq "{'query_understanding':'x','results':[{'rank':1}]}" \/
    prose_then_object
    = before ++ jq "{'query_understanding':'x','results':[{'rank':1}]}" ++ [c_newline].
Proof.
  apply (pattern_matches_only_a_final_object prose_then_object).
  vm_compute. reflexivity.
Defined.
